(** * Excel import of Xiaohongshu data: column resolution and row normalisation

    A shallow embedding of
    [MindSpider/DeepSentimentCrawling/MediaCrawler/import_xhs_from_excel.py]:
    the alias tables, [_build_col_map], [_get], [_to_int], [_to_ts_ms] and the
    three per-entity loops of [import_from_excel], followed by the properties
    of the importer stated in the specification.

    Python values are modelled by a closed variant, Python [str] by the list
    of its code points, Python [float] by the IEEE binary64 values of
    [SpecFloat], exceptions by an error monad, [dict] by [gmap] and [set] by
    [gset]. *)

From Stdlib Require Import ZArith String Ascii DecimalString DecimalPos DecimalZ.
From Stdlib Require Import SpecFloat Floats.
From stdpp Require Import base option list gmap.

#[local] Set Warnings "-inexact-float".
#[local] Open Scope Z_scope.

(** ** Python strings *)

(** A Python [str] is the sequence of its Unicode code points. *)
Abbreviation pystr := (list Z).

(** Decoder of UTF-8, used only to write string literals: [need] counts the
    continuation bytes still expected and [acc] holds the bits read so far. *)
Fixpoint utf8_decode (bs : list Z) (need : nat) (acc : Z) : pystr :=
  match bs with
  | [] => []
  | b :: bs' =>
      match need with
      | O =>
          if b <? 128 then b :: utf8_decode bs' 0%nat 0
          else if b <? 224 then utf8_decode bs' 1%nat (Z.land b 31)
          else if b <? 240 then utf8_decode bs' 2%nat (Z.land b 15)
          else utf8_decode bs' 3%nat (Z.land b 7)
      | S n =>
          let acc' := acc * 64 + Z.land b 63 in
          match n with
          | O => acc' :: utf8_decode bs' 0%nat 0
          | S _ => utf8_decode bs' n acc'
          end
      end
  end.

Definition bytes_of_string (s : string) : list Z :=
  List.map (fun c => Z.of_N (N_of_ascii c)) (list_ascii_of_string s).

(** [u "..."] is the Python string written between the quotes. *)
Definition u (s : string) : pystr := utf8_decode (bytes_of_string s) 0%nat 0.

(** [str.isspace] on one character: the code points CPython lists in
    [_PyUnicode_IsWhitespace]. *)
Definition isspace (c : Z) : bool :=
  ((9 <=? c) && (c <=? 13)) || ((28 <=? c) && (c <=? 32))
  || (c =? 133) || (c =? 160) || (c =? 5760)
  || ((8192 <=? c) && (c <=? 8202))
  || (c =? 8232) || (c =? 8233) || (c =? 8239) || (c =? 8287) || (c =? 12288).

Fixpoint lstrip (s : pystr) : pystr :=
  match s with
  | [] => []
  | c :: s' => if isspace c then lstrip s' else s
  end.

(** [s.strip()] *)
Definition strip (s : pystr) : pystr := reverse (lstrip (reverse (lstrip s))).

(** [sep.join(parts)] *)
Fixpoint join (sep : pystr) (parts : list pystr) : pystr :=
  match parts with
  | [] => []
  | [p] => p
  | p :: ps => p ++ sep ++ join sep ps
  end.

(** [str(n)] for an [int]: its decimal numeral. *)
Definition str_of_int (n : Z) : pystr :=
  bytes_of_string (NilZero.string_of_int (Z.to_int n)).

(** Lower-casing of the ASCII letters, every other code point unchanged.  It
    agrees with [str.lower] on every string whose cased characters are ASCII
    letters; Chinese text has no case. *)
Definition ascii_lower_char (c : Z) : Z :=
  if (65 <=? c) && (c <=? 90) then c + 32 else c.

Definition ascii_lower (s : pystr) : pystr := List.map ascii_lower_char s.

(** ** Exceptions *)

Inductive exn := ValueError | OverflowError | AttributeError.

Inductive result (A : Type) :=
| Ok (a : A)
| Raise (e : exn).
Arguments Ok {A} a.
Arguments Raise {A} e.

#[global] Instance result_ret : MRet result := fun A a => Ok a.
#[global] Instance result_bind : MBind result := fun A B f r =>
  match r with
  | Ok a => f a
  | Raise e => Raise e
  end.
#[global] Instance result_fmap : FMap result := fun A B f r =>
  match r with
  | Ok a => Ok (f a)
  | Raise e => Raise e
  end.

(** A [for] loop over [rows] threading the loop state, left when the body
    raises. *)
Fixpoint for_rows {S R : Type} (body : S -> R -> result S) (st : S)
    (rows : list R) : result S :=
  match rows with
  | [] => Ok st
  | r :: rs => st' ← body st r; for_rows body st' rs
  end.

(** ** Floats *)

(** [int(f)] for a [float]: truncation toward zero; NaN and the infinities
    have no integer value. *)
Definition int_of_float (f : spec_float) : result Z :=
  match f with
  | S754_zero _ => Ok 0
  | S754_infinity _ => Raise OverflowError
  | S754_nan => Raise ValueError
  | S754_finite s m e =>
      let a := Z.shiftl (Z.pos m) e in
      Ok (if s then - a else a)
  end.

Definition is_nan (f : spec_float) : bool :=
  match f with
  | S754_nan => true
  | _ => false
  end.

Definition is_zero (f : spec_float) : bool :=
  match f with
  | S754_zero _ => true
  | _ => false
  end.

(** The binary64 value nearest to [(-1)^neg * m * 10^e10] (ties to even), as
    the runtime's correctly rounded [strtod] computes it. *)
Definition float_of_decimal (neg : bool) (m e10 : Z) : spec_float :=
  match m with
  | Z.pos p =>
      if 0 <=? e10
      then binary_normalize 53 1024 ((if neg then -1 else 1) * (m * 10 ^ e10)) 0 neg
      else SFdiv 53 1024 (S754_finite neg p 0)
                         (S754_finite false (Z.to_pos (10 ^ (- e10))) 0)
  | _ => S754_zero neg
  end.

Definition is_digit (c : Z) : bool := (48 <=? c) && (c <=? 57).

Fixpoint span_digits (s : pystr) : pystr * pystr :=
  match s with
  | [] => ([], [])
  | c :: s' =>
      if is_digit c
      then let '(ds, r) := span_digits s' in (c :: ds, r)
      else ([], s)
  end.

Definition digits_val (ds : pystr) : Z :=
  foldl (fun acc d => acc * 10 + (d - 48)) 0 ds.

Definition parse_sign (s : pystr) : bool * pystr :=
  match s with
  | 45 :: r => (true, r)
  | 43 :: r => (false, r)
  | _ => (false, s)
  end.

(** Digits, an optional fraction and an optional exponent, the whole string
    consumed: the mantissa as an integer and the power of ten. *)
Definition parse_decimal (s : pystr) : option (Z * Z) :=
  let '(ip, r1) := span_digits s in
  let '(fp, r2) :=
    match r1 with
    | 46 :: r => span_digits r
    | _ => ([], r1)
    end in
  if bool_decide (ip = [] ∧ fp = []) then None
  else
    let m := digits_val (ip ++ fp) in
    let shift := Z.of_nat (length fp) in
    match r2 with
    | [] => Some (m, - shift)
    | c :: r3 =>
        if (c =? 101) || (c =? 69) then
          let '(eneg, r4) := parse_sign r3 in
          let '(ed, r5) := span_digits r4 in
          if bool_decide (ed ≠ [] ∧ r5 = [])
          then Some (m, (if eneg then - digits_val ed else digits_val ed) - shift)
          else None
        else None
    end.

(** Underscores of a numeric literal: allowed only between two digits; the
    string without them, or [None]. *)
Fixpoint drop_underscores (prev : Z) (s : pystr) : option pystr :=
  match s with
  | [] => if prev =? 95 then None else Some []
  | c :: s' =>
      if c =? 95 then
        if is_digit prev then drop_underscores c s' else None
      else if (prev =? 95) && negb (is_digit c) then None
      else r ← drop_underscores c s'; Some (c :: r)
  end.

Definition is_c_space (c : Z) : bool := ((9 <=? c) && (c <=? 13)) || (c =? 32).

(** The code points of the digit zero of every script that has decimal
    digits (general category Nd), from the tables of Unicode 14.0 that
    CPython 3.11 carries; the digits one to nine of a script follow its zero.
    Later versions of the tables add scripts. *)
Definition DECIMAL_ZEROS : list Z :=
  [48; 1632; 1776; 1984; 2406; 2534; 2662; 2790; 2918; 3046; 3174; 3302; 3430;
   3558; 3664; 3792; 3872; 4160; 4240; 6112; 6160; 6470; 6608; 6784; 6800; 6992;
   7088; 7232; 7248; 42528; 43216; 43264; 43472; 43504; 43600; 44016; 65296;
   66720; 68912; 69734; 69872; 69942; 70096; 70384; 70736; 70864; 71248; 71360;
   71472; 71904; 72016; 72784; 73040; 73120; 92768; 92864; 93008; 120782; 120792;
   120802; 120812; 120822; 123200; 123632; 125264; 130032].

(** [Py_UNICODE_TODECIMAL]: the value of a decimal digit, [None] for any
    other character. *)
Definition to_decimal (c : Z) : option Z :=
  (fun zero => c - zero) <$>
    List.find (fun zero => (zero <=? c) && (c <=? zero + 9)) DECIMAL_ZEROS.

(** [_PyUnicode_TransformDecimalAndSpaceToASCII] on one character: ASCII is
    kept, white space becomes a space, a decimal digit of any script becomes
    the ASCII digit of its value and every other character a question mark,
    with which no numeral is read. *)
Definition to_ascii_numeral (c : Z) : Z :=
  if c <? 127 then c
  else if isspace c then 32
  else
    match to_decimal c with
    | Some d => 48 + d
    | None => 63
    end.

Fixpoint c_lstrip (s : pystr) : pystr :=
  match s with
  | [] => []
  | c :: s' => if is_c_space c then c_lstrip s' else s
  end.

(** [float(s)] for a [str]: the decimal digits of every script count as
    the ASCII ones, white space around the numeral is ignored, the numeral is
    a decimal with optional sign, fraction and exponent, or one of [inf],
    [infinity], [nan] in any case. *)
Definition py_float (s : pystr) : result spec_float :=
  let t := List.map to_ascii_numeral s in
  match drop_underscores 0 t with
  | None => Raise ValueError
  | Some t1 =>
      let t2 := reverse (c_lstrip (reverse (c_lstrip t1))) in
      let '(neg, body) := parse_sign t2 in
      let name := ascii_lower body in
      if bool_decide (name = u "inf" ∨ name = u "infinity") then Ok (S754_infinity neg)
      else if bool_decide (name = u "nan") then Ok S754_nan
      else
        match parse_decimal body with
        | Some (m, e10) => Ok (float_of_decimal neg m e10)
        | None => Raise ValueError
        end
  end.

(** ** Cell values *)

(** What a cell of a sheet holds once pandas has read it and [iterrows] has
    handed it out: [VNone] stands for [None] and for the missing markers
    [NaT] and [NA], [VInt] for a Python [int], [VFloat] for a [float] (the
    float scalars of numpy are floats), [VStr] for a [str], [VDateTime] for a
    timestamp, given by its nanoseconds, and [VNpInt] for an integer scalar
    of numpy, which is no [int]: [iterrows] hands out such scalars for a row
    whose cells are all integers, and Python integers for the integer cells
    of a row that also holds text.  A blank cell of a sheet arrives as the
    float NaN. *)
Inductive value :=
| VNone
| VInt (n : Z)
| VFloat (f : spec_float)
| VStr (s : pystr)
| VDateTime (ns : Z)
| VNpInt (n : Z).

(** The parts of the Python runtime and of pandas that the importer calls and
    that are left open: the definitions below take them as they come, and the
    theorems hold whatever they return. *)

(** [s.lower()] *)
Class StrLower := str_lower : pystr -> pystr.

(** [str(f)] for a [float] *)
Class FloatRepr := float_repr : spec_float -> pystr.

(** [str(t)] for a timestamp *)
Class DatetimeStr := datetime_str : Z -> pystr.

(** [pd.to_datetime(val).timestamp()]: the seconds, a float, from the epoch
    to the date and time that pandas reads in the value; [None] when one of
    the two calls raises. *)
Class ToDatetimeMs := to_datetime_timestamp : value -> option spec_float.

(** [pd.isna(val)] *)
Definition pd_isna (val : value) : bool :=
  match val with
  | VNone => true
  | VFloat f => is_nan f
  | _ => false
  end.

(** [bool(val)] *)
Definition truthy (val : value) : bool :=
  match val with
  | VNone => false
  | VInt n => negb (n =? 0)
  | VFloat f => negb (is_zero f)
  | VStr s => bool_decide (s ≠ [])
  | VDateTime _ => true
  | VNpInt n => negb (n =? 0)
  end.

(** A row handed out by [iterrows]: the cells with their column labels. *)
Abbreviation Series := (list (pystr * value)).

(** [row.get(col, default)] *)
Fixpoint series_get (row : Series) (col : pystr) (default : value) : value :=
  match row with
  | [] => default
  | (k, v) :: row' => if decide (k = col) then v else series_get row' col default
  end.

(** A sheet whose column labels are all text, as they are when every cell
    of the header row holds text; the sheets with other labels come with
    [Sheet] below. *)
Record DataFrame := {
  columns : list pystr;
  data : list (list value);
}.

(** [df.iterrows()] of a sheet read with its default index. *)
Definition iterrows (df : DataFrame) : list (Z * Series) :=
  imap (fun i vals => (Z.of_nat i, zip (columns df) vals)) (data df).

(** [df.empty] *)
Definition df_empty (df : DataFrame) : bool :=
  bool_decide (columns df = [] ∨ data df = []).

(** ** The alias tables *)

(** A [dict] literal of aliases, in the order it is written. *)
Abbreviation Aliases := (list (pystr * list pystr)).

Definition NOTE_ALIASES : Aliases := [
  (u "note_id", [u "note_id"; u "笔记id"; u "笔记ID"]);
  (u "note_url", [u "note_url"; u "笔记链接"]);
  (u "title", [u "title"; u "笔记标题"]);
  (u "desc", [u "desc"; u "笔记内容"]);
  (u "time", [u "time"; u "发布时间"]);
  (u "tag_list", [u "tag_list"; u "话题"; u "笔记内容标签"]);
  (u "source_keyword", [u "source_keyword"; u "命中关键词"]);
  (u "liked_count", [u "liked_count"; u "点赞"; u "赞"; u "互动量"]);
  (u "collected_count", [u "collected_count"; u "收藏"]);
  (u "comment_count", [u "comment_count"; u "评论"]);
  (u "share_count", [u "share_count"; u "分享"]);
  (u "user_id", [u "user_id"; u "账号小红书号"; u "作者ID"]);
  (u "nickname", [u "nickname"; u "账号昵称"]);
  (u "avatar", [u "avatar"; u "头像"; u "账号头像"]);
  (u "ip_location", [u "ip_location"; u "发文属地"; u "IP属地"])
].

Definition CREATOR_ALIASES : Aliases := [
  (u "user_id", [u "user_id"; u "账号小红书号"; u "作者ID"]);
  (u "nickname", [u "nickname"; u "账号昵称"]);
  (u "avatar", [u "avatar"; u "头像"; u "账号头像"]);
  (u "ip_location", [u "ip_location"; u "IP属地"; u "常驻地"]);
  (u "desc", [u "desc"; u "账号简介"; u "作者简介"]);
  (u "gender", [u "gender"; u "性别"]);
  (u "follows", [u "follows"; u "关注数"]);
  (u "fans", [u "fans"; u "当前粉丝数"; u "粉丝数"]);
  (u "interaction", [u "interaction"; u "互动量"]);
  (u "tag_list", [u "tag_list"; u "账号标签"])
].

Definition COMMENT_ALIASES : Aliases := [
  (u "comment_id", [u "comment_id"; u "评论id"; u "评论ID"]);
  (u "note_id", [u "note_id"; u "笔记id"; u "笔记ID"]);
  (u "user_id", [u "user_id"; u "账号小红书号"; u "作者ID"]);
  (u "nickname", [u "nickname"; u "账号昵称"]);
  (u "avatar", [u "avatar"; u "头像"; u "账号头像"]);
  (u "ip_location", [u "ip_location"; u "IP属地"]);
  (u "content", [u "content"; u "评论内容"]);
  (u "create_time", [u "create_time"; u "评论时间"]);
  (u "sub_comment_count", [u "sub_comment_count"; u "回复数"]);
  (u "pictures", [u "pictures"; u "图片"]);
  (u "parent_comment_id", [u "parent_comment_id"; u "父评论id"]);
  (u "like_count", [u "like_count"; u "点赞数"; u "赞"])
].

(** ** The records handed to the session *)

Module XhsCreator.
Record t := {
  user_id : pystr;
  nickname : value;
  avatar : value;
  ip_location : value;
  desc : value;
  gender : value;
  follows : pystr;
  fans : pystr;
  interaction : pystr;
  tag_list : value;
  add_ts : Z;
  last_modify_ts : Z;
}.
End XhsCreator.

Module XhsNote.
Record t := {
  user_id : pystr;
  nickname : value;
  avatar : value;
  ip_location : value;
  add_ts : Z;
  last_modify_ts : Z;
  note_id : pystr;
  type : value;
  title : value;
  desc : value;
  video_url : value;
  time : option Z;
  last_update_time : Z;
  liked_count : pystr;
  collected_count : pystr;
  comment_count : pystr;
  share_count : pystr;
  image_list : value;
  tag_list : option pystr;
  note_url : value;
  source_keyword : value;
  xsec_token : value;
}.
End XhsNote.

Module XhsNoteComment.
Record t := {
  user_id : option pystr;
  nickname : value;
  avatar : value;
  ip_location : value;
  add_ts : Z;
  last_modify_ts : Z;
  comment_id : pystr;
  create_time : option Z;
  note_id : pystr;
  content : value;
  sub_comment_count : Z;
  pictures : value;
  parent_comment_id : value;
  like_count : pystr;
}.
End XhsNoteComment.

(** One call of [session.add_all]. *)
Inductive batch :=
| Creators (objs : list XhsCreator.t)
| Notes (objs : list XhsNote.t)
| Comments (objs : list XhsNoteComment.t).

(** ** The importer *)

Section Importer.
Context `{!StrLower, !FloatRepr, !DatetimeStr, !ToDatetimeMs}.

(** [str(val)] *)
Definition py_str (val : value) : pystr :=
  match val with
  | VNone => u "None"
  | VInt n => str_of_int n
  | VFloat f => float_repr f
  | VStr s => s
  | VDateTime t => datetime_str t
  | VNpInt n => str_of_int n
  end.

(** [str(x)] where [x] is an [int] or [None] *)
Definition str_of_optint (x : option Z) : pystr :=
  match x with
  | Some n => str_of_int n
  | None => u "None"
  end.

(** [{c.lower(): c for c in df.columns}] on the labels of a frame, which are
    text; what the comprehension does on a label that is no text is in
    [text_labels]. *)
Definition lower_cols (cols : list pystr) : gmap pystr pystr :=
  foldl (fun m c => <[str_lower c := c]> m) ∅ cols.

(** The inner loop of [_build_col_map]: the column of the first name that the
    lookup knows, the loop being left there. *)
Fixpoint first_alias (lc : gmap pystr pystr) (names : list pystr) : option pystr :=
  match names with
  | [] => None
  | name :: rest =>
      match lc !! str_lower name with
      | Some col => if bool_decide (col ≠ []) then Some col else first_alias lc rest
      | None => first_alias lc rest
      end
  end.

(** [_build_col_map(df, aliases)], [cols] being [df.columns]. *)
Definition _build_col_map (cols : list pystr) (aliases : Aliases) : gmap pystr pystr :=
  let lc := lower_cols cols in
  foldl (fun col_map '(field, names) =>
           match first_alias lc names with
           | Some col => <[field := col]> col_map
           | None => col_map
           end) ∅ aliases.

(** [_get(row, col_map, field, default)]; [pd.isna] raises on no cell value,
    which leaves its handler idle. *)
Definition _get (row : Series) (col_map : gmap pystr pystr) (field : pystr)
    (default : value) : value :=
  match col_map !! field with
  | None => default
  | Some col =>
      if bool_decide (col = []) then default
      else
        let val := series_get row col default in
        if pd_isna val then default else val
  end.

(** [_to_int(val, default)], the default being an [int] or [None].  The
    conversion of a float stands outside any handler, and the handler around
    the conversion of text catches [ValueError] only.  An integer scalar of
    numpy is neither an [int] nor a [float] nor a [str] and gets the
    default. *)
Definition _to_int (val : value) (default : option Z) : result (option Z) :=
  if pd_isna val then Ok default
  else
    match val with
    | VInt n => Ok (Some n)
    | VFloat f => Some <$> int_of_float f
    | VStr s =>
        if bool_decide (strip s ≠ []) then
          match py_float s ≫= int_of_float with
          | Ok n => Ok (Some n)
          | Raise ValueError => Ok default
          | Raise e => Raise e
          end
        else Ok default
    | _ => Ok default
    end.

(** The [try] block of [_to_ts_ms]: [int(dt.timestamp() * 1000)] for the
    date and time [dt] that pandas reads in the value, the product being the
    one of two floats, and the default when the parsing, the product or the
    conversion to an integer raises. *)
Definition parsed_ms (val : value) (default : option Z) : option Z :=
  match to_datetime_timestamp val with
  | Some secs =>
      match int_of_float (SFmul 53 1024 secs (S754_finite false 1000 0)) with
      | Ok ms => Some ms
      | Raise _ => default
      end
  | None => default
  end.

(** [_to_ts_ms(val, default)].  The call of [_to_int] stands before the
    handler; the missing markers that [VNone] also stands for fail in the
    parsing and give the default as [None] does. *)
Definition _to_ts_ms (val : value) (default : option Z) : result (option Z) :=
  num ← _to_int val None;
  match num with
  | Some n => Ok (Some n)
  | None =>
      match val with
      | VNone => Ok default
      | _ => Ok (parsed_ms val default)
      end
  end.

(** *** xhs_creator *)

(** The body of the loop over the creator rows; the state is [objs] and
    [seen_user_ids]. *)
Definition creator_row (col_map : gmap pystr pystr) (now_ms : Z)
    (st : list XhsCreator.t * gset pystr) (ir : Z * Series)
    : result (list XhsCreator.t * gset pystr) :=
  let '(objs, seen_user_ids) := st in
  let row := ir.2 in
  let user_id := _get row col_map (u "user_id") VNone in
  if negb (truthy user_id) then Ok st
  else
    let user_id_str := py_str user_id in
    if bool_decide (user_id_str ∈ seen_user_ids) then Ok st
    else
      let seen_user_ids := seen_user_ids ∪ {[user_id_str]} in
      follows ← _to_int (_get row col_map (u "follows") VNone) (Some 0);
      fans ← _to_int (_get row col_map (u "fans") VNone) (Some 0);
      interaction ← _to_int (_get row col_map (u "interaction") VNone) (Some 0);
      let obj := {|
        XhsCreator.user_id := user_id_str;
        XhsCreator.nickname := _get row col_map (u "nickname") VNone;
        XhsCreator.avatar := _get row col_map (u "avatar") VNone;
        XhsCreator.ip_location := _get row col_map (u "ip_location") VNone;
        XhsCreator.desc := _get row col_map (u "desc") VNone;
        XhsCreator.gender := _get row col_map (u "gender") VNone;
        XhsCreator.follows := str_of_optint follows;
        XhsCreator.fans := str_of_optint fans;
        XhsCreator.interaction := str_of_optint interaction;
        XhsCreator.tag_list := _get row col_map (u "tag_list") VNone;
        XhsCreator.add_ts := now_ms;
        XhsCreator.last_modify_ts := now_ms;
      |} in
      Ok (objs ++ [obj], seen_user_ids).

(** The creator section: the calls of [session.add_all] it makes. *)
Definition import_creators (df_creators : option DataFrame) (now_ms : Z)
    : result (list batch) :=
  match df_creators with
  | Some df =>
      if df_empty df then Ok []
      else
        let col_map := _build_col_map (columns df) CREATOR_ALIASES in
        if bool_decide (col_map !! u "user_id" = None) then Ok []
        else
          st ← for_rows (creator_row col_map now_ms) ([], ∅) (iterrows df);
          Ok (if bool_decide (st.1 = []) then [] else [Creators st.1])
  | None => Ok []
  end.

(** *** xhs_note *)

Definition AUX_TAG_COLUMNS : list pystr :=
  [u "笔记分类"; u "提及品类"; u "种草品牌"; u "商业合作品牌"].

(** [val is None] *)
Definition is_none (val : value) : bool :=
  match val with
  | VNone => true
  | _ => false
  end.

(** The loop over the four auxiliary columns, appending to [extra_tags]. *)
Definition extra_tags_loop (cols : list pystr) (row : Series) : list pystr :=
  foldl (fun extra_tags col_name =>
           if bool_decide (col_name ∈ cols) then
             match series_get row col_name VNone with
             | VStr s =>
                 if bool_decide (strip s ≠ []) then extra_tags ++ [strip s]
                 else extra_tags
             | _ => extra_tags
             end
           else extra_tags) [] AUX_TAG_COLUMNS.

Definition merged_tag_list (cols : list pystr) (col_map : gmap pystr pystr)
    (row : Series) : option pystr :=
  let raw_tag_list := _get row col_map (u "tag_list") VNone in
  let extra_tags := extra_tags_loop cols row in
  let extra_tags :=
    if negb (is_none raw_tag_list) && bool_decide (strip (py_str raw_tag_list) ≠ [])
    then strip (py_str raw_tag_list) :: extra_tags
    else extra_tags in
  if bool_decide (extra_tags ≠ []) then Some (join (u " | ") extra_tags) else None.

(** The [note_id] of a row, or [None] where the loop goes on to the next row. *)
Definition note_id_of (col_map : gmap pystr pystr) (idx : Z) (row : Series)
    : option value :=
  if bool_decide (is_Some (col_map !! u "note_id")) then
    let note_id := _get row col_map (u "note_id") VNone in
    if negb (truthy note_id) then None else Some note_id
  else Some (VStr (u "row_" ++ str_of_int (idx + 1))).

Definition note_row (cols : list pystr) (col_map : gmap pystr pystr) (now_ms : Z)
    (objs : list XhsNote.t) (ir : Z * Series) : result (list XhsNote.t) :=
  let '(idx, row) := ir in
  match note_id_of col_map idx row with
  | None => Ok objs
  | Some note_id =>
      t_ms ← _to_ts_ms (_get row col_map (u "time") VNone) (Some now_ms);
      let merged_tag_list := merged_tag_list cols col_map row in
      let raw_user_id := _get row col_map (u "user_id") VNone in
      let user_id_str :=
        if truthy raw_user_id then py_str raw_user_id else u "unknown" in
      liked_count ← _to_int (_get row col_map (u "liked_count") VNone) (Some 0);
      collected_count ← _to_int (_get row col_map (u "collected_count") VNone) (Some 0);
      comment_count ← _to_int (_get row col_map (u "comment_count") VNone) (Some 0);
      share_count ← _to_int (_get row col_map (u "share_count") VNone) (Some 0);
      let obj := {|
        XhsNote.user_id := user_id_str;
        XhsNote.nickname := _get row col_map (u "nickname") VNone;
        XhsNote.avatar := _get row col_map (u "avatar") VNone;
        XhsNote.ip_location := _get row col_map (u "ip_location") VNone;
        XhsNote.add_ts := now_ms;
        XhsNote.last_modify_ts := now_ms;
        XhsNote.note_id := py_str note_id;
        XhsNote.type := VNone;
        XhsNote.title := _get row col_map (u "title") VNone;
        XhsNote.desc := _get row col_map (u "desc") VNone;
        XhsNote.video_url := VNone;
        XhsNote.time := t_ms;
        XhsNote.last_update_time := now_ms;
        XhsNote.liked_count := str_of_optint liked_count;
        XhsNote.collected_count := str_of_optint collected_count;
        XhsNote.comment_count := str_of_optint comment_count;
        XhsNote.share_count := str_of_optint share_count;
        XhsNote.image_list := VNone;
        XhsNote.tag_list := merged_tag_list;
        XhsNote.note_url := _get row col_map (u "note_url") VNone;
        XhsNote.source_keyword := _get row col_map (u "source_keyword") VNone;
        XhsNote.xsec_token := VNone;
      |} in
      Ok (objs ++ [obj])
  end.

(** The objects the note loop collects for a sheet. *)
Definition note_objs (df : DataFrame) (now_ms : Z) : result (list XhsNote.t) :=
  let col_map := _build_col_map (columns df) NOTE_ALIASES in
  for_rows (note_row (columns df) col_map now_ms) [] (iterrows df).

Definition import_notes (df_notes : option DataFrame) (now_ms : Z)
    : result (list batch) :=
  match df_notes with
  | Some df =>
      if df_empty df then Ok []
      else
        objs ← note_objs df now_ms;
        Ok (if bool_decide (objs = []) then [] else [Notes objs])
  | None => Ok []
  end.

(** *** xhs_note_comment *)

Definition comment_row (col_map : gmap pystr pystr) (now_ms : Z)
    (objs : list XhsNoteComment.t) (ir : Z * Series)
    : result (list XhsNoteComment.t) :=
  let row := ir.2 in
  let comment_id := _get row col_map (u "comment_id") VNone in
  let note_id := _get row col_map (u "note_id") VNone in
  if negb (truthy comment_id) || negb (truthy note_id) then Ok objs
  else
    ct_ms ← _to_ts_ms (_get row col_map (u "create_time") VNone) (Some now_ms);
    sub_comment_count ← _to_int (_get row col_map (u "sub_comment_count") VNone) (Some 0);
    like_count ← _to_int (_get row col_map (u "like_count") VNone) (Some 0);
    let obj := {|
      XhsNoteComment.user_id :=
        if truthy (_get row col_map (u "user_id") VNone)
        then Some (py_str (_get row col_map (u "user_id") VNone))
        else None;
      XhsNoteComment.nickname := _get row col_map (u "nickname") VNone;
      XhsNoteComment.avatar := _get row col_map (u "avatar") VNone;
      XhsNoteComment.ip_location := _get row col_map (u "ip_location") VNone;
      XhsNoteComment.add_ts := now_ms;
      XhsNoteComment.last_modify_ts := now_ms;
      XhsNoteComment.comment_id := py_str comment_id;
      XhsNoteComment.create_time := ct_ms;
      XhsNoteComment.note_id := py_str note_id;
      XhsNoteComment.content := _get row col_map (u "content") VNone;
      XhsNoteComment.sub_comment_count :=
        match sub_comment_count with
        | Some n => n
        | None => 0
        end;
      XhsNoteComment.pictures := _get row col_map (u "pictures") VNone;
      XhsNoteComment.parent_comment_id := _get row col_map (u "parent_comment_id") VNone;
      XhsNoteComment.like_count := str_of_optint like_count;
    |} in
    Ok (objs ++ [obj]).

(** The comment section: [None] when the sheet lacks a required column and
    the loop is not entered, else the objects the loop collects. *)
Definition comment_objs (df : DataFrame) (now_ms : Z)
    : result (option (list XhsNoteComment.t)) :=
  let col_map := _build_col_map (columns df) COMMENT_ALIASES in
  if bool_decide (col_map !! u "comment_id" = None ∨ col_map !! u "note_id" = None)
  then Ok None
  else Some <$> for_rows (comment_row col_map now_ms) [] (iterrows df).

Definition import_comments (df_comments : option DataFrame) (now_ms : Z)
    : result (list batch) :=
  match df_comments with
  | Some df =>
      if df_empty df then Ok []
      else
        r ← comment_objs df now_ms;
        match r with
        | Some objs => Ok (if bool_decide (objs = []) then [] else [Comments objs])
        | None => Ok []
        end
  | None => Ok []
  end.

(** *** The sheets of the workbook and the whole run *)

(** [pd.read_excel(path, sheet_name=...)], [None] for a sheet that is not in
    the workbook. *)
Fixpoint _read_sheet (wb : list (pystr * DataFrame)) (sheet_name : pystr)
    : option DataFrame :=
  match wb with
  | [] => None
  | (name, df) :: wb' =>
      if decide (name = sheet_name) then Some df else _read_sheet wb' sheet_name
  end.

(** The frames [(df_notes, df_creators, df_comments)]. *)
Definition select_sheets (wb : list (pystr * DataFrame))
    (notes_sheet creators_sheet comments_sheet : pystr)
    : option DataFrame * option DataFrame * option DataFrame :=
  match wb with
  | [(_, df_single)] => (Some df_single, Some df_single, None)
  | _ => (_read_sheet wb notes_sheet, _read_sheet wb creators_sheet,
          _read_sheet wb comments_sheet)
  end.

(** The three sections in the order of the source, within one session: the
    calls of [session.add_all], or the exception that ends the run. *)
Definition import_frames (df_notes df_creators df_comments : option DataFrame)
    (now_ms : Z) : result (list batch) :=
  b1 ← import_creators df_creators now_ms;
  b2 ← import_notes df_notes now_ms;
  b3 ← import_comments df_comments now_ms;
  Ok (b1 ++ b2 ++ b3).

(** [import_from_excel] on a workbook that exists and opens, with an SQL
    session; [now_ms] is the time the run starts. *)
Definition import_from_excel (wb : list (pystr * DataFrame))
    (notes_sheet creators_sheet comments_sheet : pystr) (now_ms : Z)
    : result (list batch) :=
  let '(df_notes, df_creators, df_comments) :=
    select_sheets wb notes_sheet creators_sheet comments_sheet in
  import_frames df_notes df_creators df_comments now_ms.

End Importer.

(** ** Sheets whose header holds more than text *)

(** A sheet as [read_excel] returns it: the label of a column is the text of
    its header cell, or else the number or the date that the header cell
    holds. *)
Record Sheet := {
  labels : list value;
  cells : list (list value);
}.

(** [df.empty] *)
Definition sheet_empty (s : Sheet) : bool :=
  bool_decide (labels s = [] ∨ cells s = []).

(** The labels as the lookup of [_build_col_map] goes through them, calling
    [c.lower()] on each: a label that is no [str] has no such method and the
    call raises [AttributeError], which nothing catches. *)
Definition text_labels (labels : list value) : result (list pystr) :=
  mapM (fun c => match c with
                 | VStr s => Ok s
                 | _ => Raise AttributeError
                 end) labels.

Section Sheets.
Context `{!StrLower, !FloatRepr, !DatetimeStr, !ToDatetimeMs}.

(** One section of the run on a sheet.  Without the sheet, or on an empty
    one, the section does nothing; otherwise it starts with
    [_build_col_map], which raises on a label that is no text, and it goes on
    as it does on the frame with these labels. *)
Definition import_section (section : option DataFrame -> Z -> result (list batch))
    (sheet : option Sheet) (now_ms : Z) : result (list batch) :=
  match sheet with
  | Some s =>
      if sheet_empty s then Ok []
      else
        cols ← text_labels (labels s);
        section (Some {| columns := cols; data := cells s |}) now_ms
  | None => Ok []
  end.

(** The three sections in the order of the source, on sheets with any
    labels. *)
Definition import_sheets (notes creators comments : option Sheet) (now_ms : Z)
    : result (list batch) :=
  b1 ← import_section import_creators creators now_ms;
  b2 ← import_section import_notes notes now_ms;
  b3 ← import_section import_comments comments now_ms;
  Ok (b1 ++ b2 ++ b3).

End Sheets.

(** ** The tag merge, in closed form and as the specification words it *)

Section TagMerge.
Context `{!FloatRepr, !DatetimeStr}.

(** The text the resolved tag_list value contributes: its [str], stripped,
    unless the value is [None] or the stripped text is empty. *)
Definition tag_list_text (raw_tag_list : value) : list pystr :=
  if is_none raw_tag_list then []
  else if bool_decide (strip (py_str raw_tag_list) = []) then []
  else [strip (py_str raw_tag_list)].

(** The text an auxiliary column contributes: its cell, stripped, when the
    sheet has the column and the cell holds text that is not blank. *)
Definition aux_tag_text (cols : list pystr) (row : Series) (col_name : pystr)
    : option pystr :=
  if bool_decide (col_name ∈ cols) then
    match series_get row col_name VNone with
    | VStr s => if bool_decide (strip s = []) then None else Some (strip s)
    | _ => None
    end
  else None.

(** Following the specification's words: a value is blank when it is missing
    or is text of white space only. *)
Definition spec_is_blank (v : value) : bool :=
  pd_isna v ||
  match v with
  | VStr s => bool_decide (strip s = [])
  | _ => false
  end.

(** Following the specification's words: the resolved tag_list value when
    present and non-blank, then the non-blank values of the four auxiliary
    columns in their fixed order. *)
Definition spec_tag_values (cols : list pystr) (col_map : gmap pystr pystr)
    (row : Series) : list value :=
  (if spec_is_blank (_get row col_map (u "tag_list") VNone) then []
   else [_get row col_map (u "tag_list") VNone]) ++
  omap (fun col_name =>
          if bool_decide (col_name ∈ cols) then
            if spec_is_blank (series_get row col_name VNone) then None
            else Some (series_get row col_name VNone)
          else None) AUX_TAG_COLUMNS.

(** Following the specification's words: these values joined with " | ", and
    null when there is none. *)
Definition spec_merged_tag (cols : list pystr) (col_map : gmap pystr pystr)
    (row : Series) : option pystr :=
  match spec_tag_values cols col_map row with
  | [] => None
  | vals => Some (join (u " | ") (py_str <$> vals))
  end.

End TagMerge.

(** ** Values on which the integer coercion overflows *)

(** The values whose conversion to an integer goes through an infinite
    float: the float infinities, and the text that is not blank and that
    [float] reads as one of them. *)
Definition reads_as_infinity (val : value) : bool :=
  match val with
  | VFloat (S754_infinity _) => true
  | VStr s =>
      bool_decide (strip s ≠ []) &&
      match py_float s with
      | Ok (S754_infinity _) => true
      | _ => false
      end
  | _ => false
  end.

(** ** The user ids of a sheet *)

(** The user ids, as text, of the rows whose user_id cell is not empty, in
    the order of the rows. *)
Definition user_id_texts `{!FloatRepr, !DatetimeStr} (col_map : gmap pystr pystr)
    (rows : list (Z * Series)) : list pystr :=
  omap (fun ir : Z * Series =>
          if truthy (_get ir.2 col_map (u "user_id") VNone)
          then Some (py_str (_get ir.2 col_map (u "user_id") VNone))
          else None) rows.

(** ** Fields without a value *)

(** A field has no value in a row when the sheet has no column for it or
    when the cell of its column holds a missing value. *)
Definition field_missing (col_map : gmap pystr pystr) (row : Series)
    (field : pystr) : Prop :=
  col_map !! field = None ∨
  ∃ col, col_map !! field = Some col ∧ pd_isna (series_get row col VNone) = true.

(** ** The keyword helpers of [InsightEngine/tools/keyword_optimizer.py] *)

Module KeywordOptimizer.

(** [s.lstrip(chars)] and [s.strip(chars)] *)
Fixpoint lstrip_chars (chars : list Z) (s : pystr) : pystr :=
  match s with
  | [] => []
  | c :: s' => if bool_decide (c ∈ chars) then lstrip_chars chars s' else s
  end.

Definition strip_chars (chars : list Z) (s : pystr) : pystr :=
  reverse (lstrip_chars chars (reverse (lstrip_chars chars s))).

(** [s.startswith(p)] *)
Fixpoint startswith (s p : pystr) : bool :=
  match p, s with
  | [], _ => true
  | _ :: _, [] => false
  | a :: p', b :: s' => (a =? b) && startswith s' p'
  end.

(** [sub in s] *)
Fixpoint contains (s sub : pystr) : bool :=
  startswith s sub ||
  match s with
  | [] => false
  | _ :: s' => contains s' sub
  end.

(** [re.split] for a pattern that is one class of characters repeated once
    or more, and [s.split(sep)] for a separator of one character ([plus] is
    false then): the pieces between the matches, the empty ones at the ends
    and, for [s.split(sep)], between two separators included.  [cur] is the
    piece being read and [in_sep] tells that the last character belonged to a
    match. *)
Fixpoint split_class (plus : bool) (is_sep : Z -> bool) (s cur : pystr)
    (in_sep : bool) : list pystr :=
  match s with
  | [] => [cur]
  | c :: s' =>
      if is_sep c then
        if in_sep && plus then split_class plus is_sep s' [] true
        else cur :: split_class plus is_sep s' [] true
      else split_class plus is_sep s' (cur ++ [c]) false
  end.

(** [s.split(sep)] for a separator of one character *)
Definition split_on (sep : Z) (s : pystr) : list pystr :=
  split_class false (Z.eqb sep) s [] false.

(** [s.split()] *)
Definition split_ws (s : pystr) : list pystr :=
  filter (fun w => w ≠ []) (split_class true isspace s [] false).

(** The characters that [strip] is given in the source and the class of the
    regular expression of quoted content: the double and the single ASCII
    quote. *)
Definition QUOTES : list Z := [34; 39].

(** [keyword.strip().strip(...)] with the quotes *)
Definition clean (keyword : pystr) : pystr := strip_chars QUOTES (strip keyword).

(** [re.findall] for the pattern of quoted content: a quote, as few
    characters as possible, none of them a line feed, and a quote; the
    content between the two quotes of each match, the matches being taken
    from left to right without overlap.  [inside] holds the content read
    since an opening quote. *)
Fixpoint findall_quoted (s : pystr) (inside : option pystr) : list pystr :=
  match s with
  | [] => []
  | c :: s' =>
      match inside with
      | None =>
          if bool_decide (c ∈ QUOTES) then findall_quoted s' (Some [])
          else findall_quoted s' None
      | Some content =>
          if bool_decide (c ∈ QUOTES) then content :: findall_quoted s' None
          else if c =? 10 then findall_quoted s' None
          else findall_quoted s' (Some (content ++ [c]))
      end
  end.

(** An element of the list under the key keywords of the parsed answer: a
    [str], or a value of another type. *)
Inductive item :=
| IStr (s : pystr)
| IOther.

Definition bad_keywords : list pystr :=
  [u "态度分析"; u "公众反应"; u "情绪倾向"; u "未来展望"; u "发展趋势";
   u "战略规划"; u "政策导向"; u "管理机制"].

Definition _validate_keywords (keywords : list item) : list pystr :=
  let validated :=
    foldl (fun validated keyword =>
             match keyword with
             | IStr s =>
                 let keyword := clean s in
                 if bool_decide (keyword ≠ []) &&
                    (length keyword <=? 20)%nat && (1 <=? length keyword)%nat &&
                    negb (existsb (fun bad_word => contains keyword bad_word) bad_keywords)
                 then validated ++ [keyword]
                 else validated
             | IOther => validated
             end) [] keywords in
  take 20 validated.

(** The characters the fallback splits the query at: white space and seven
    full-width punctuation marks. *)
Definition is_separator (c : Z) : bool :=
  isspace c || bool_decide (c ∈ [65292; 12290; 65281; 65311; 65307; 65306; 12289]).

Definition stop_words : list pystr := [u "、"].

Definition _fallback_keyword_extraction (original_query : pystr) : list pystr :=
  let tokens := split_class true is_separator original_query [] false in
  let keywords :=
    foldl (fun keywords token =>
             let token := strip token in
             if bool_decide (token ≠ []) && negb (bool_decide (token ∈ stop_words)) &&
                (2 <=? length token)%nat
             then keywords ++ [token]
             else keywords) [] tokens in
  let keywords :=
    if bool_decide (keywords = []) then
      let first_word :=
        match split_ws original_query with
        | w :: _ => w
        | [] => original_query
        end in
      if bool_decide (first_word ≠ []) then [first_word] else [u "热门"]
    else keywords in
  take 20 keywords.

(** The keywords one line of the text gives. *)
Definition line_keywords (line : pystr) : list pystr :=
  let line := strip line in
  if contains line (u "：") || contains line (u ":") then
    let parts :=
      if contains line (u "：") then split_on 65306 line else split_on 58 line in
    match parts with
    | _ :: part :: _ =>
        let potential_keywords := strip part in
        if contains potential_keywords (u "、")
        then strip <$> split_on 12289 potential_keywords
        else if contains potential_keywords (u ",")
        then strip <$> split_on 44 potential_keywords
        else [potential_keywords]
    | _ => []
    end
  else [].

Definition _extract_keywords_from_text (text : pystr) : list pystr :=
  let lines := split_on 10 text in
  let keywords := foldl (fun keywords line => keywords ++ line_keywords line) [] lines in
  let keywords :=
    if bool_decide (keywords = []) then keywords ++ findall_quoted text None
    else keywords in
  let cleaned_keywords :=
    foldl (fun cleaned_keywords keyword =>
             let keyword := clean keyword in
             if bool_decide (keyword ≠ []) && (length keyword <=? 20)%nat
             then cleaned_keywords ++ [keyword]
             else cleaned_keywords) [] (take 20 keywords) in
  take 20 cleaned_keywords.

End KeywordOptimizer.

(** ** Sample sheets *)

(** Two creator rows with the same user id. *)
Definition sheet_creators_u1 : DataFrame := {|
  columns := [u "user_id"; u "nickname"];
  data := [[VStr (u "u1"); VStr (u "A")];
           [VStr (u "u1"); VStr (u "B")]];
|}.

(** Four note rows in a sheet without a column for the note id. *)
Definition sheet_notes_no_id : DataFrame := {|
  columns := [u "笔记标题"; u "账号小红书号"];
  data := [[VStr (u "t0"); VStr (u "a")];
           [VStr (u "t1"); VFloat S754_nan];
           [VStr (u "t2"); VInt 0];
           [VStr (u "t3"); VStr (u "b")]];
|}.

(** Note rows in a sheet with a column for the note id, blank in the second
    row. *)
Definition sheet_notes_with_id : DataFrame := {|
  columns := [u "笔记id"; u "笔记标题"];
  data := [[VStr (u "n1"); VStr (u "t0")];
           [VFloat S754_nan; VStr (u "t1")]];
|}.

(** A comment row with both ids and one whose comment id is blank. *)
Definition sheet_comments : DataFrame := {|
  columns := [u "comment_id"; u "note_id"; u "content"];
  data := [[VStr (u "c1"); VStr (u "n1"); VStr (u "hi")];
           [VFloat S754_nan; VStr (u "n1"); VStr (u "yo")]];
|}.

(** A comment sheet without a column for the comment id. *)
Definition sheet_comments_no_id : DataFrame := {|
  columns := [u "note_id"; u "content"];
  data := [[VStr (u "n1"); VStr (u "hi")]];
|}.

(** A comment row with both ids whose count of likes is the text 1e999. *)
Definition sheet_comments_overflow : DataFrame := {|
  columns := [u "comment_id"; u "note_id"; u "like_count"];
  data := [[VStr (u "c1"); VStr (u "n1"); VStr (u "1e999")]];
|}.

(** * Properties *)

(** ** The column lookup and alias resolution *)

Section AliasResolver.
Context `{!StrLower}.

(** The lookup built from the column labels answers with the last label that
    has the given lower-case form. *)
Lemma lower_cols_lookup (cols : list pystr) (k : pystr) :
  lower_cols cols !! k = last (filter (fun c => str_lower c = k) cols).
Proof.
  unfold lower_cols.
  assert (Hgen : ∀ m : gmap pystr pystr,
    foldl (fun m c => <[str_lower c := c]> m) m cols !! k =
    match last (filter (fun c => str_lower c = k) cols) with
    | Some c => Some c
    | None => m !! k
    end).
  { induction cols as [|c cols IH]; intros m; simpl; [done|].
    rewrite IH. destruct (decide (str_lower c = k)) as [Heq|Hne].
    - rewrite filter_cons_True by done. rewrite last_cons.
      destruct (last _); [done|]. subst k. by rewrite lookup_insert_eq.
    - rewrite filter_cons_False by done.
      destruct (last _); [done|]. by rewrite lookup_insert_ne. }
  rewrite Hgen, lookup_empty. by destruct (last _).
Qed.

Lemma lower_cols_last (pre post : list pystr) (h : pystr) :
  (∀ h', h' ∈ post → str_lower h' ≠ str_lower h) →
  lower_cols (pre ++ h :: post) !! str_lower h = Some h.
Proof.
  intros Hpost. rewrite lower_cols_lookup, filter_app.
  rewrite filter_cons_True by done.
  assert (filter (fun c => str_lower c = str_lower h) post = []) as ->.
  { induction post as [|x post IH]; [done|].
    rewrite filter_cons_False by (apply Hpost; left).
    apply IH. intros h' Hin. apply Hpost. by right. }
  by rewrite last_snoc.
Qed.

Lemma lower_cols_Some (cols : list pystr) (k c : pystr) :
  lower_cols cols !! k = Some c → c ∈ cols ∧ str_lower c = k.
Proof.
  rewrite lower_cols_lookup. intros Hl.
  apply last_Some_elem_of in Hl. by apply list_elem_of_filter in Hl as [? ?].
Qed.

Lemma lower_cols_None (cols : list pystr) (k : pystr) :
  (∀ h, h ∈ cols → str_lower h ≠ k) → lower_cols cols !! k = None.
Proof.
  intros Hno. destruct (lower_cols cols !! k) as [c|] eqn:Hl; [|done].
  apply lower_cols_Some in Hl as [Hin Heq]. by destruct (Hno c Hin).
Qed.

(** The inner loop passes over the names the lookup does not know. *)
Lemma first_alias_skip (lc : gmap pystr pystr) (pre rest : list pystr) :
  (∀ p, p ∈ pre → lc !! str_lower p = None) →
  first_alias lc (pre ++ rest) = first_alias lc rest.
Proof.
  induction pre as [|p pre IH]; intros Hpre; simpl; [done|].
  rewrite (Hpre p) by left. apply IH. intros q Hq. apply Hpre. by right.
Qed.

Lemma first_alias_hit (lc : gmap pystr pystr) (a col : pystr) (post : list pystr) :
  lc !! str_lower a = Some col → col ≠ [] → first_alias lc (a :: post) = Some col.
Proof. intros Hl Hne. simpl. rewrite Hl. by rewrite bool_decide_true. Qed.

Lemma first_alias_None (lc : gmap pystr pystr) (names : list pystr) :
  (∀ a, a ∈ names → lc !! str_lower a = None) → first_alias lc names = None.
Proof.
  intros Hno. rewrite <- (app_nil_r names). by rewrite first_alias_skip.
Qed.

(** A field the schema does not declare never enters the column map. *)
Lemma build_col_map_undeclared (cols : list pystr) (aliases : Aliases) (field : pystr) :
  field ∉ aliases.*1 → _build_col_map cols aliases !! field = None.
Proof.
  unfold _build_col_map. induction aliases as [|[f ns] aliases IH] using rev_ind.
  - intros _. apply lookup_empty.
  - rewrite fmap_app, foldl_app. simpl. intros Hnot.
    apply not_elem_of_app in Hnot as [Hl Hf].
    assert (f ≠ field) by (intros ->; apply Hf; left).
    destruct (first_alias _ ns); [rewrite lookup_insert_ne by done|]; by apply IH.
Qed.

(** Each declared field is resolved by the inner loop over its own names. *)
Lemma build_col_map_lookup (cols : list pystr) (aliases : Aliases)
    (field : pystr) (names : list pystr) :
  NoDup aliases.*1 → (field, names) ∈ aliases →
  _build_col_map cols aliases !! field = first_alias (lower_cols cols) names.
Proof.
  induction aliases as [|[f ns] aliases IH] using rev_ind; intros Hnd Hin.
  - by apply elem_of_nil in Hin.
  - rewrite fmap_app in Hnd. apply NoDup_app in Hnd as (Hnd & Hdisj & _).
    unfold _build_col_map in *. rewrite foldl_app. simpl.
    apply elem_of_app in Hin as [Hin|Hin].
    + assert (f ≠ field).
      { intros ->. apply (Hdisj field); [|left].
        apply list_elem_of_fmap. by exists (field, names). }
      destruct (first_alias _ ns); [rewrite lookup_insert_ne by done|]; by apply IH.
    + apply list_elem_of_singleton in Hin. injection Hin as -> ->.
      destruct (first_alias _ ns) as [col|] eqn:Hfa.
      * by rewrite lookup_insert_eq.
      * apply (build_col_map_undeclared cols). intros Hf. apply (Hdisj f Hf). left.
Qed.

End AliasResolver.

(** The three alias tables declare each field once. *)
Lemma alias_tables_NoDup :
  NoDup NOTE_ALIASES.*1 ∧ NoDup CREATOR_ALIASES.*1 ∧ NoDup COMMENT_ALIASES.*1.
Proof. repeat split; compute_done. Qed.

(** Resolution of one field: the names before [a] match no column, [a]
    matches the column [h], and no column after [h] has the lower-case form
    of [h]. *)
Lemma resolve_first_match `{!StrLower} (cols : list pystr) (aliases : Aliases)
    (field : pystr) (names pre post cpre cpost : list pystr) (a h : pystr) :
  NoDup aliases.*1 → (field, names) ∈ aliases →
  names = pre ++ a :: post →
  (∀ p, p ∈ pre → ∀ c, c ∈ cols → str_lower c ≠ str_lower p) →
  cols = cpre ++ h :: cpost → h ≠ [] →
  str_lower h = str_lower a →
  (∀ c, c ∈ cpost → str_lower c ≠ str_lower h) →
  lower_cols cols !! str_lower h = Some h ∧
  _build_col_map cols aliases !! field = Some h.
Proof.
  intros Hnd Hin -> Hpre Hcols Hne Heq Hpost.
  assert (Hl : lower_cols cols !! str_lower h = Some h).
  { rewrite Hcols. by apply lower_cols_last. }
  split; [done|].
  rewrite (build_col_map_lookup cols aliases field _ Hnd Hin).
  rewrite first_alias_skip.
  - apply first_alias_hit; [by rewrite <- Heq|done].
  - intros p Hp. apply lower_cols_None. intros c Hc. by apply Hpre.
Qed.

Lemma resolve_no_match `{!StrLower} (cols : list pystr) (aliases : Aliases)
    (field : pystr) (names : list pystr) :
  NoDup aliases.*1 → (field, names) ∈ aliases →
  (∀ a, a ∈ names → ∀ c, c ∈ cols → str_lower c ≠ str_lower a) →
  _build_col_map cols aliases !! field = None.
Proof.
  intros Hnd Hin Hno.
  rewrite (build_col_map_lookup cols aliases field _ Hnd Hin).
  apply first_alias_None. intros a Ha. apply lower_cols_None.
  intros c Hc. by apply Hno.
Qed.

(** C1. For every schema (a table with each field declared once) and every
    sequence of column labels, a field is resolved by going through its
    aliases in the order they are declared: when the aliases before [a] match
    no label case-insensitively and [a] matches the non-empty label [h], the
    field is mapped to [h], the original label (the last one with that
    lower-case form, should several labels share it), whatever follows [a] in
    the list; a field none of whose aliases matches a label is absent from
    the map.  With labels 点赞, 赞 the field liked_count is resolved to 点赞,
    and the label Note_ID is found by the alias note_id. *)
Theorem alias_resolution_first_match :
  (∀ (L : StrLower) (cols : list pystr) (aliases : Aliases) (field : pystr)
     (names : list pystr),
     NoDup aliases.*1 → (field, names) ∈ aliases →
     (∀ (pre post cpre cpost : list pystr) (a h : pystr),
        names = pre ++ a :: post →
        (∀ p, p ∈ pre → ∀ c, c ∈ cols → str_lower c ≠ str_lower p) →
        cols = cpre ++ h :: cpost → h ≠ [] →
        str_lower h = str_lower a →
        (∀ c, c ∈ cpost → str_lower c ≠ str_lower h) →
        _build_col_map cols aliases !! field = Some h) ∧
     ((∀ a, a ∈ names → ∀ c, c ∈ cols → str_lower c ≠ str_lower a) →
      _build_col_map cols aliases !! field = None)) ∧
  @_build_col_map ascii_lower [u "点赞"; u "赞"]
     [(u "liked_count", [u "liked_count"; u "点赞"; u "赞"; u "互动量"])]
     !! u "liked_count" = Some (u "点赞") ∧
  @_build_col_map ascii_lower [u "Note_ID"] NOTE_ALIASES !! u "note_id"
    = Some (u "Note_ID").
Proof.
  split; [|split; by vm_compute].
  intros L cols aliases field names Hnd Hin. split.
  - intros pre post cpre cpost a h Hnames Hpre Hcols Hne Heq Hpost.
    by eapply resolve_first_match.
  - by apply resolve_no_match.
Qed.

Lemma alias_resolution_first_match_witness :
  @_build_col_map ascii_lower [u "点赞"; u "赞"; u "互动量"] NOTE_ALIASES
    !! u "liked_count" = Some (u "点赞") ∧
  @_build_col_map ascii_lower [u "点赞"; u "赞"; u "互动量"] NOTE_ALIASES
    !! u "title" = None.
Proof.
  pose proof (proj1 alias_resolution_first_match ascii_lower
    [u "点赞"; u "赞"; u "互动量"] NOTE_ALIASES) as Hres.
  split.
  - refine (proj1 (Hres (u "liked_count")
      [u "liked_count"; u "点赞"; u "赞"; u "互动量"] _ _)
      [u "liked_count"] [u "赞"; u "互动量"] [] [u "赞"; u "互动量"]
      (u "点赞") (u "点赞") _ _ _ _ _ _).
    + compute_done.
    + compute_done.
    + reflexivity.
    + intros p Hp. apply Forall_forall. revert p Hp. apply Forall_forall. compute_done.
    + reflexivity.
    + by vm_compute.
    + reflexivity.
    + apply Forall_forall. compute_done.
  - refine (proj2 (Hres (u "title") [u "title"; u "笔记标题"] _ _) _).
    + compute_done.
    + compute_done.
    + intros a Ha. apply Forall_forall. revert a Ha. apply Forall_forall. compute_done.
Defined.

(** C5, as the code has it.  When several column labels of one sheet are
    equal case-insensitively, the lookup keeps the last of them, and a field
    whose first matching alias matches that label is resolved to the last
    such label in the order of the columns. *)
Theorem lookup_keeps_last_label (L : StrLower) (cols : list pystr)
    (aliases : Aliases) (field : pystr)
    (names pre post cpre cpost : list pystr) (a h : pystr) :
  NoDup aliases.*1 → (field, names) ∈ aliases →
  names = pre ++ a :: post →
  (∀ p, p ∈ pre → ∀ c, c ∈ cols → str_lower c ≠ str_lower p) →
  cols = cpre ++ h :: cpost → h ≠ [] →
  str_lower h = str_lower a →
  (∀ c, c ∈ cpost → str_lower c ≠ str_lower h) →
  lower_cols cols !! str_lower h = Some h ∧
  _build_col_map cols aliases !! field = Some h.
Proof. apply resolve_first_match. Qed.

Lemma lookup_keeps_last_label_witness :
  @lower_cols ascii_lower [u "Note_ID"; u "note_id"] !! ascii_lower (u "note_id")
    = Some (u "note_id") ∧
  @_build_col_map ascii_lower [u "Note_ID"; u "note_id"] NOTE_ALIASES !! u "note_id"
    = Some (u "note_id").
Proof.
  refine (lookup_keeps_last_label ascii_lower [u "Note_ID"; u "note_id"]
    NOTE_ALIASES (u "note_id") [u "note_id"; u "笔记id"; u "笔记ID"]
    [] [u "笔记id"; u "笔记ID"] [u "Note_ID"] [] (u "note_id") (u "note_id")
    _ _ _ _ _ _ _ _).
  - compute_done.
  - compute_done.
  - reflexivity.
  - intros p Hp. by apply elem_of_nil in Hp.
  - reflexivity.
  - by vm_compute.
  - reflexivity.
  - intros c Hc. by apply elem_of_nil in Hc.
Defined.

(** C5 as the specification words it fails: with the labels Note_ID and
    note_id in this order, the lookup holds note_id under the key note_id and
    the field note_id is resolved to note_id, not to the first label
    Note_ID. *)
Lemma first_label_not_kept :
  @lower_cols ascii_lower [u "Note_ID"; u "note_id"] !! u "note_id"
    = Some (u "note_id") ∧
  @_build_col_map ascii_lower [u "Note_ID"; u "note_id"] NOTE_ALIASES !! u "note_id"
    = Some (u "note_id") ∧
  @_build_col_map ascii_lower [u "Note_ID"; u "note_id"] NOTE_ALIASES !! u "note_id"
    ≠ Some (u "Note_ID").
Proof. repeat split; by vm_compute. Qed.

(** ** Integer and timestamp coercion *)

Lemma to_int_int (n : Z) (d : option Z) : _to_int (VInt n) d = Ok (Some n).
Proof. reflexivity. Qed.

(** A float that has an integer part is truncated toward zero. *)
Lemma to_int_float (f : spec_float) (z : Z) (d : option Z) :
  int_of_float f = Ok z → _to_int (VFloat f) d = Ok (Some z).
Proof. intros Hf. unfold _to_int. by destruct f; simplify_eq/=. Qed.

Lemma int_of_float_trunc (s : bool) (m : positive) (e : Z) :
  int_of_float (S754_finite s m e) =
  Ok (Z.quot ((if s then -1 else 1) * Z.pos m * 2 ^ Z.max e 0) (2 ^ Z.max (- e) 0)).
Proof.
  unfold int_of_float. f_equal.
  destruct (Z.le_gt_cases 0 e) as [He|He].
  - rewrite Z.shiftl_mul_pow2 by done.
    rewrite (Z.max_l e 0), (Z.max_r (- e) 0) by lia.
    rewrite Z.quot_1_r. destruct s; lia.
  - rewrite Z.shiftl_div_pow2 by lia.
    rewrite (Z.max_r e 0), (Z.max_l (- e) 0) by lia.
    rewrite Z.mul_1_r.
    assert (0 < 2 ^ (- e)) by (apply Z.pow_pos_nonneg; lia).
    destruct s.
    + replace (-1 * Z.pos m) with (- Z.pos m) by lia.
      rewrite Z.quot_opp_l by lia. rewrite Z.quot_div_nonneg by lia. done.
    + rewrite Z.mul_1_l. rewrite Z.quot_div_nonneg by lia. done.
Qed.

(** Text that is not blank and reads as a float with an integer part. *)
Lemma to_int_text (s : pystr) (f : spec_float) (z : Z) (d : option Z) :
  strip s ≠ [] → py_float s = Ok f → int_of_float f = Ok z →
  _to_int (VStr s) d = Ok (Some z).
Proof.
  intros Hs Hf Hz. unfold _to_int. simpl.
  rewrite bool_decide_true by done. rewrite Hf. simpl. by rewrite Hz.
Qed.

Lemma to_int_not_numeric (s : pystr) (d : option Z) :
  py_float s = Raise ValueError → _to_int (VStr s) d = Ok d.
Proof.
  intros Hf. unfold _to_int. simpl. rewrite Hf. simpl. by case_bool_decide.
Qed.

Lemma to_int_blank (s : pystr) (d : option Z) :
  strip s = [] → _to_int (VStr s) d = Ok d.
Proof.
  intros Hs. unfold _to_int. simpl. by rewrite bool_decide_false by (by intros []).
Qed.

Lemma to_int_missing (v : value) (d : option Z) :
  pd_isna v = true → _to_int v d = Ok d.
Proof. intros Hna. unfold _to_int. by rewrite Hna. Qed.

Lemma to_int_datetime (t : Z) (d : option Z) : _to_int (VDateTime t) d = Ok d.
Proof. reflexivity. Qed.

(** The reading of text as a float raises nothing but [ValueError]. *)
Lemma py_float_raise (s : pystr) (e : exn) : py_float s = Raise e → e = ValueError.
Proof.
  unfold py_float. destruct (drop_underscores _ _); [|congruence].
  destruct (parse_sign _) as [neg body].
  repeat case_bool_decide; try congruence.
  destruct (parse_decimal body) as [[m e10]|]; congruence.
Qed.

(** What [_to_int] returns is an integer or the default, and what it raises
    is an [OverflowError] on an infinite float, native or read from text. *)
Lemma to_int_raise_inv (v : value) (d : option Z) (e : exn) :
  _to_int v d = Raise e →
  e = OverflowError ∧
  ∃ b, v = VFloat (S754_infinity b) ∨
       ∃ s, v = VStr s ∧ strip s ≠ [] ∧ py_float s = Ok (S754_infinity b).
Proof.
  unfold _to_int. destruct (pd_isna v) eqn:Hna; [done|].
  destruct v as [|n|f|s|t|n]; try done.
  - destruct f as [b|b| |b m ex]; try done. simpl. intros [= <-]. split; [done|].
    exists b. by left.
  - case_bool_decide as Hs; [|done].
    destruct (py_float s) as [f|e'] eqn:Hf; simpl.
    + destruct f as [b|b| |b m ex]; try done. simpl. intros [= <-]. split; [done|].
      exists b. right. by exists s.
    + apply py_float_raise in Hf as ->. done.
Qed.

Lemma to_int_default_Some (v : value) (n : Z) (r : option Z) :
  _to_int v (Some n) = Ok r → is_Some r.
Proof.
  unfold _to_int. destruct (pd_isna v); [intros [= <-]; eauto|].
  destruct v as [| |f|s| |]; try (intros [= <-]; eauto).
  - destruct (int_of_float f); simpl; intros [= <-]; eauto.
  - case_bool_decide; [|intros [= <-]; eauto].
    destruct (py_float s ≫= int_of_float) as [|[]]; intros [= <-]; eauto.
Qed.

Lemma to_ts_ms_cases `{!ToDatetimeMs} (v : value) (d : option Z) :
  _to_ts_ms v d =
  match _to_int v None with
  | Ok (Some n) => Ok (Some n)
  | Ok None =>
      if is_none v then Ok d
      else Ok (parsed_ms v d)
  | Raise e => Raise e
  end.
Proof.
  unfold _to_ts_ms. destruct (_to_int v None) as [[n|]|e]; simpl; try done.
  by destruct v.
Qed.

Lemma parsed_ms_default_Some `{!ToDatetimeMs} (v : value) (n : Z) :
  is_Some (parsed_ms v (Some n)).
Proof.
  unfold parsed_ms. destruct (to_datetime_timestamp v); [|by eexists].
  destruct (int_of_float _); by eexists.
Qed.

(** Whenever the integer coercion of the value yields an integer, the
    timestamp coercion returns that integer as it is, without guessing a
    unit (1700000000 stays 1700000000); when it yields none, the value goes
    through the date and time parsing, the seconds that the parsing gives
    are multiplied by 1000 as floats and the product is truncated ([None],
    which is not parsed, and every value whose parsing fails give the
    default); and the timestamp coercion raises only what the integer
    coercion raises. *)
Lemma timestamp_literal_integer (T : ToDatetimeMs) :
  (∀ v d n, _to_int v None = Ok (Some n) → _to_ts_ms v d = Ok (Some n)) ∧
  (∀ v d secs ms, _to_int v None = Ok None → v ≠ VNone →
     to_datetime_timestamp v = Some secs →
     int_of_float (SFmul 53 1024 secs (S754_finite false 1000 0)) = Ok ms →
     _to_ts_ms v d = Ok (Some ms)) ∧
  (∀ v d, _to_int v None = Ok None → to_datetime_timestamp v = None →
     _to_ts_ms v d = Ok d) ∧
  (∀ d, _to_ts_ms VNone d = Ok d) ∧
  (∀ v d e, _to_ts_ms v d = Raise e → _to_int v None = Raise e) ∧
  (∀ d, _to_ts_ms (VInt 1700000000) d = Ok (Some 1700000000)).
Proof.
  repeat split.
  - intros v d n Hi. by rewrite to_ts_ms_cases, Hi.
  - intros v d secs ms Hi Hv Hp Hms. rewrite to_ts_ms_cases, Hi.
    unfold parsed_ms. rewrite Hp, Hms. by destruct v.
  - intros v d Hi Hp. rewrite to_ts_ms_cases, Hi. unfold parsed_ms. rewrite Hp.
    by destruct (is_none v).
  - intros v d e. rewrite to_ts_ms_cases.
    destruct (_to_int v None) as [[n|]|e']; try done. by destruct (is_none v).
Qed.

Lemma timestamp_literal_integer_witness :
  @_to_ts_ms (fun _ => None) (VFloat (Prim2SF 1700000000.9)) (Some 5)
    = Ok (Some 1700000000) ∧
  @_to_ts_ms (fun _ => Some (Prim2SF 86400.5)) (VStr (u "1970-01-02 00:00:00.5")) (Some 5)
    = Ok (Some 86400500) ∧
  @_to_ts_ms (fun _ => None) (VStr (u "soon")) (Some 5) = Ok (Some 5).
Proof.
  split; [|split].
  - apply (proj1 (timestamp_literal_integer (fun _ => None))). by vm_compute.
  - apply (proj1 (proj2 (timestamp_literal_integer (fun _ => Some (Prim2SF 86400.5))))
             _ _ (Prim2SF 86400.5)).
    + by vm_compute.
    + done.
    + reflexivity.
    + by vm_compute.
  - apply (proj1 (proj2 (proj2 (timestamp_literal_integer (fun _ => None))))).
    + by vm_compute.
    + reflexivity.
Defined.

(** C3, where the code departs from the specification.  The timestamp
    coercion is specified to return, for every value, the integer that the
    integer coercion yields, or else the milliseconds of the parsed date, or
    else the default.  On the integer 1700000000, on a float with an integer
    part, on [None] and on text that is no number [_to_ts_ms] does so: the
    integer is returned as it is, and the text goes through the parsing.  On
    the text Infinity and on the float -inf it returns none of the three:
    the call of [_to_int] stands before the handler of [_to_ts_ms], and the
    [OverflowError] that [_to_int] lets through leaves [_to_ts_ms] too.  An
    integer scalar of numpy is no [int] for [_to_int], so that it is not
    returned as it is either but handed to the parsing. *)
Theorem timestamp_no_value_on_infinite_input (T : ToDatetimeMs) (d : option Z) :
  _to_ts_ms (VInt 1700000000) d = Ok (Some 1700000000) ∧
  _to_ts_ms (VFloat (Prim2SF 1700000000.9)) d = Ok (Some 1700000000) ∧
  _to_ts_ms VNone d = Ok d ∧
  _to_ts_ms (VStr (u "soon")) d
    = Ok (parsed_ms (VStr (u "soon")) d) ∧
  _to_int (VStr (u "Infinity")) None = Raise OverflowError ∧
  _to_ts_ms (VStr (u "Infinity")) d = Raise OverflowError ∧
  _to_ts_ms (VFloat (S754_infinity true)) d = Raise OverflowError ∧
  _to_ts_ms (VNpInt 1700000000) d
    = Ok (parsed_ms (VNpInt 1700000000) d).
Proof.
  assert (_to_int (VStr (u "soon")) None = Ok None) as Hsoon by by vm_compute.
  repeat split; try (by vm_compute); rewrite to_ts_ms_cases; by rewrite ?Hsoon.
Qed.

(** C4, where the code departs from the specification.  The coercions are
    specified never to let an error through.  The text 1e999 reads as the
    float infinity, whose conversion to an integer raises [OverflowError];
    the handler of [_to_int] catches [ValueError] only, so the error leaves
    [_to_int], and [_to_ts_ms], which calls it outside its own handler, with
    it.  The same happens on the float infinity itself. *)
Theorem coercion_raises_on_infinity (T : ToDatetimeMs) (d : option Z) :
  py_float (u "1e999") = Ok (S754_infinity false) ∧
  _to_int (VStr (u "1e999")) d = Raise OverflowError ∧
  _to_ts_ms (VStr (u "1e999")) d = Raise OverflowError ∧
  _to_int (VFloat (S754_infinity false)) d = Raise OverflowError ∧
  _to_ts_ms (VFloat (S754_infinity false)) d = Raise OverflowError.
Proof. repeat split; by vm_compute. Qed.

(** C8, where the code departs from the specification.  Integer coercion is
    specified to pass integers through, to truncate floats and numeric text
    toward zero and to return the default for anything else.  On the integer
    7, the floats 12.9 and -3.9, the texts 12.9 and abc and the missing
    values, [_to_int] does so; on the numeric text 1e999 and on the text
    -inf it returns neither a truncated value nor the default: it raises
    [OverflowError]. *)
Theorem to_int_no_value_on_infinite_text (d : option Z) :
  _to_int (VInt 7) d = Ok (Some 7) ∧
  _to_int (VFloat (Prim2SF 12.9)) d = Ok (Some 12) ∧
  _to_int (VFloat (Prim2SF (-3.9))) d = Ok (Some (-3)) ∧
  _to_int (VStr (u "12.9")) d = Ok (Some 12) ∧
  _to_int (VStr (u "abc")) d = Ok d ∧
  _to_int (VFloat S754_nan) d = Ok d ∧
  _to_int VNone d = Ok d ∧
  _to_int (VStr (u "1e999")) d = Raise OverflowError ∧
  _to_int (VStr (u "-inf")) d = Raise OverflowError.
Proof. repeat split; by vm_compute. Qed.

(** ** The creator loop *)

Lemma for_rows_app {S R : Type} (body : S → R → result S) (st : S) (l1 l2 : list R) :
  for_rows body st (l1 ++ l2) = for_rows body st l1 ≫= fun st' => for_rows body st' l2.
Proof.
  revert st. induction l1 as [|r l1 IH]; intros st; simpl; [done|].
  destruct (body st r); simpl; [apply IH|done].
Qed.

Lemma for_rows_snoc_Ok {S R : Type} (body : S → R → result S) (st st2 : S)
    (l : list R) (r : R) :
  for_rows body st (l ++ [r]) = Ok st2 →
  ∃ st1, for_rows body st l = Ok st1 ∧ body st1 r = Ok st2.
Proof.
  rewrite for_rows_app. destruct (for_rows body st l) as [st1|]; simpl; [|done].
  destruct (body st1 r) eqn:Hb; simpl; [|done]. intros [= <-]. by exists st1.
Qed.

Section CreatorLoop.
Context `{!FloatRepr, !DatetimeStr} (col_map : gmap pystr pystr) (now_ms : Z).

(** One pass of the loop body either leaves the state as it is, the row
    holding no user id or one already seen, or appends the object built from
    the row alone and records its user id. *)
Lemma creator_row_inv (objs objs' : list XhsCreator.t) (seen seen' : gset pystr)
    (ir : Z * Series) (user_id : value) :
  user_id = _get ir.2 col_map (u "user_id") VNone →
  creator_row col_map now_ms (objs, seen) ir = Ok (objs', seen') →
  ((truthy user_id = false ∨ py_str user_id ∈ seen) ∧ objs' = objs ∧ seen' = seen) ∨
  (truthy user_id = true ∧ (py_str user_id ∉ seen) ∧
   ∃ o, objs' = objs ++ [o] ∧ seen' = seen ∪ {[py_str user_id]} ∧
        XhsCreator.user_id o = py_str user_id ∧
        creator_row col_map now_ms ([], ∅) ir = Ok ([o], {[py_str user_id]})).
Proof.
  intros ->. unfold creator_row. simpl.
  destruct (truthy _) eqn:Ht; simpl; [|intros [= <- <-]; left; eauto].
  case_bool_decide as Hseen; [intros [= <- <-]; left; eauto|].
  rewrite bool_decide_false by apply not_elem_of_empty.
  destruct (_to_int (_get ir.2 col_map (u "follows") VNone) _) as [follows|]; [|done].
  destruct (_to_int (_get ir.2 col_map (u "fans") VNone) _) as [fans|]; [|done].
  destruct (_to_int (_get ir.2 col_map (u "interaction") VNone) _) as [inter|]; [|done].
  simpl. intros [= <- <-]. right. repeat split; [done|].
  eexists. repeat split. by rewrite (left_id_L ∅ (∪)).
Qed.

Lemma creator_loop_invariant (rows : list (Z * Series))
    (objs : list XhsCreator.t) (seen : gset pystr) :
  for_rows (creator_row col_map now_ms) ([], ∅) rows = Ok (objs, seen) →
  (∀ k, k ∈ seen ↔ k ∈ XhsCreator.user_id <$> objs) ∧
  NoDup (XhsCreator.user_id <$> objs) ∧
  (∀ o, o ∈ objs → ∃ (i : nat) (ir : Z * Series),
     rows !! i = Some ir ∧
     truthy (_get ir.2 col_map (u "user_id") VNone) = true ∧
     py_str (_get ir.2 col_map (u "user_id") VNone) = XhsCreator.user_id o ∧
     creator_row col_map now_ms ([], ∅) ir = Ok ([o], {[XhsCreator.user_id o]}) ∧
     ∀ (j : nat) (jr : Z * Series), (j < i)%nat → rows !! j = Some jr →
       truthy (_get jr.2 col_map (u "user_id") VNone) = true →
       py_str (_get jr.2 col_map (u "user_id") VNone) ≠ XhsCreator.user_id o) ∧
  (∀ ir, ir ∈ rows → truthy (_get ir.2 col_map (u "user_id") VNone) = true →
     py_str (_get ir.2 col_map (u "user_id") VNone) ∈ seen).
Proof.
  revert objs seen. induction rows as [|r rows IH] using rev_ind; intros objs seen.
  - simpl. intros [= <- <-]. split; [|split; [|split]].
    + intros k. rewrite elem_of_empty. simpl. by rewrite elem_of_nil.
    + constructor.
    + intros o Ho. by apply elem_of_nil in Ho.
    + intros ir Hir. by apply elem_of_nil in Hir.
  - intros Hrun. apply for_rows_snoc_Ok in Hrun as ([objs1 seen1] & Hrun & Hbody).
    destruct (IH _ _ Hrun) as (Hseen & Hnd & Hfirst & Hall).
    assert (Hold : ∀ o, o ∈ objs1 → ∃ (i : nat) (ir : Z * Series),
      (rows ++ [r]) !! i = Some ir ∧
      truthy (_get ir.2 col_map (u "user_id") VNone) = true ∧
      py_str (_get ir.2 col_map (u "user_id") VNone) = XhsCreator.user_id o ∧
      creator_row col_map now_ms ([], ∅) ir = Ok ([o], {[XhsCreator.user_id o]}) ∧
      ∀ (j : nat) (jr : Z * Series), (j < i)%nat → (rows ++ [r]) !! j = Some jr →
        truthy (_get jr.2 col_map (u "user_id") VNone) = true →
        py_str (_get jr.2 col_map (u "user_id") VNone) ≠ XhsCreator.user_id o).
    { intros o Ho. destruct (Hfirst o Ho) as (i & ir & Hi & ? & ? & ? & Hbefore).
      exists i, ir. repeat split; try done.
      - by apply lookup_app_l_Some.
      - intros j jr Hj Hjr. apply (Hbefore j jr Hj).
        rewrite lookup_app_l in Hjr; [done|].
        apply lookup_lt_Some in Hi. lia. }
    eapply creator_row_inv in Hbody as
      [(Hskip & -> & ->)|(Ht & Hnew & o & -> & -> & Hkey & Hrow)]; [| |done..].
    + split; [done|]. split; [done|]. split; [done|].
      intros ir Hir Htr. apply elem_of_app in Hir as [Hir|Hir]; [by apply Hall|].
      apply list_elem_of_singleton in Hir as ->.
      destruct Hskip as [Hf|Hin]; [congruence|done].
    + rewrite fmap_app. simpl. split; [|split; [|split]].
      * intros k. rewrite elem_of_union, elem_of_app, elem_of_singleton,
          list_elem_of_singleton, Hseen, Hkey. done.
      * apply NoDup_app. repeat split; [done| |apply NoDup_singleton].
        intros k Hk Hk'. apply list_elem_of_singleton in Hk'.
        apply Hnew. apply Hseen. congruence.
      * intros o' Ho'. apply elem_of_app in Ho' as [Ho'|Ho']; [by apply Hold|].
        apply list_elem_of_singleton in Ho' as ->.
        exists (length rows), r. repeat split; try done.
        -- by rewrite list_lookup_middle.
        -- by rewrite Hkey.
        -- intros j jr Hj Hjr Htr Heq. rewrite lookup_app_l in Hjr by done.
           apply Hnew. rewrite <- Hkey, <- Heq. apply Hall; [|done].
           by eapply list_elem_of_lookup_2.
      * intros ir Hir Htr. apply elem_of_union. apply elem_of_app in Hir as [Hir|Hir].
        -- left. by apply Hall.
        -- right. apply list_elem_of_singleton in Hir as ->. by apply elem_of_singleton.
Qed.

End CreatorLoop.

Lemma import_creators_loop `{!StrLower, !FloatRepr, !DatetimeStr} (df : DataFrame)
    (now_ms : Z) (objs : list XhsCreator.t) :
  import_creators (Some df) now_ms = Ok [Creators objs] →
  ∃ seen, for_rows (creator_row (_build_col_map (columns df) CREATOR_ALIASES) now_ms)
            ([], ∅) (iterrows df) = Ok (objs, seen).
Proof.
  unfold import_creators. destruct (df_empty df); [done|].
  case_bool_decide; [done|].
  destruct (for_rows _ _ _) as [[objs' seen]|]; simpl; [|done].
  case_bool_decide; [done|]. intros [= <-]. by exists seen.
Qed.

(** C2. Whenever the creator section hands a batch to the session, the user
    ids of its records are pairwise distinct; each record is the one built
    from the first row that carries its user id (as text) in a non-empty
    cell, the later rows with that user id adding nothing; and every row with
    a non-empty user id is represented by the record of its user id.  Two
    rows with user id u1 and nicknames A then B give one record, with
    nickname A. *)
Theorem creator_first_row_wins :
  (∀ (L : StrLower) (FR : FloatRepr) (DS : DatetimeStr) (df : DataFrame)
     (now_ms : Z) (objs : list XhsCreator.t) (col_map : gmap pystr pystr),
     col_map = _build_col_map (columns df) CREATOR_ALIASES →
     import_creators (Some df) now_ms = Ok [Creators objs] →
     NoDup (XhsCreator.user_id <$> objs) ∧
     (∀ o, o ∈ objs → ∃ (i : nat) (ir : Z * Series),
        iterrows df !! i = Some ir ∧
        truthy (_get ir.2 col_map (u "user_id") VNone) = true ∧
        py_str (_get ir.2 col_map (u "user_id") VNone) = XhsCreator.user_id o ∧
        creator_row col_map now_ms ([], ∅) ir = Ok ([o], {[XhsCreator.user_id o]}) ∧
        ∀ (j : nat) (jr : Z * Series), (j < i)%nat → iterrows df !! j = Some jr →
          truthy (_get jr.2 col_map (u "user_id") VNone) = true →
          py_str (_get jr.2 col_map (u "user_id") VNone) ≠ XhsCreator.user_id o) ∧
     (∀ ir, ir ∈ iterrows df →
        truthy (_get ir.2 col_map (u "user_id") VNone) = true →
        py_str (_get ir.2 col_map (u "user_id") VNone) ∈ XhsCreator.user_id <$> objs)) ∧
  (∀ (FR : FloatRepr) (DS : DatetimeStr) (now_ms : Z),
     ∃ o, @import_creators ascii_lower FR DS (Some sheet_creators_u1) now_ms
            = Ok [Creators [o]] ∧
          XhsCreator.user_id o = u "u1" ∧ XhsCreator.nickname o = VStr (u "A")).
Proof.
  split.
  - intros L FR DS df now_ms objs col_map -> Himp.
    apply import_creators_loop in Himp as [seen Hrun].
    apply creator_loop_invariant in Hrun as (Hseen & Hnd & Hfirst & Hall).
    split; [done|]. split; [done|].
    intros ir Hir Htr. apply Hseen. by apply Hall.
  - intros FR DS now_ms. eexists. split; [by vm_compute|]. split; by vm_compute.
Qed.

Lemma creator_first_row_wins_witness :
  ∃ o, @import_creators ascii_lower (fun _ => []) (fun _ => [])
         (Some sheet_creators_u1) 0 = Ok [Creators [o]] ∧
       NoDup (XhsCreator.user_id <$> [o]) ∧
       u "u1" ∈ XhsCreator.user_id <$> [o].
Proof.
  destruct (proj2 creator_first_row_wins (fun _ => []) (fun _ => []) 0)
    as (o & Himp & Hid & Hnick).
  exists o. split; [done|].
  destruct (proj1 creator_first_row_wins ascii_lower (fun _ => []) (fun _ => [])
    sheet_creators_u1 0 [o] _ eq_refl Himp) as (Hnd & _ & Hall).
  split; [done|].
  apply (Hall (0, zip (columns sheet_creators_u1) [VStr (u "u1"); VStr (u "A")])).
  - left.
  - by vm_compute.
Defined.

(** ** Cells as [_get] hands them out *)

(** A column the map resolves has a non-empty label. *)
Lemma first_alias_nonempty `{!StrLower} (lc : gmap pystr pystr) (names : list pystr)
    (col : pystr) :
  first_alias lc names = Some col → col ≠ [].
Proof.
  induction names as [|name names IH]; simpl; [done|].
  destruct (lc !! str_lower name) as [c|]; [|done].
  case_bool_decide; [|done]. by intros [= <-].
Qed.

Lemma build_col_map_nonempty `{!StrLower} (cols : list pystr) (aliases : Aliases)
    (field col : pystr) :
  _build_col_map cols aliases !! field = Some col → col ≠ [].
Proof.
  unfold _build_col_map. induction aliases as [|[f ns] aliases IH] using rev_ind.
  - simpl. by rewrite lookup_empty.
  - rewrite foldl_app. simpl. destruct (first_alias _ ns) as [c|] eqn:Hfa; [|done].
    destruct (decide (f = field)) as [->|Hne].
    + rewrite lookup_insert_eq. intros [= <-]. by eapply first_alias_nonempty.
    + by rewrite lookup_insert_ne.
Qed.

(** A field without a column gives the default. *)
Lemma get_unresolved (row : Series) (col_map : gmap pystr pystr) (field : pystr)
    (default : value) :
  col_map !! field = None → _get row col_map field default = default.
Proof. intros Hc. unfold _get. by rewrite Hc. Qed.

(** The cell of a resolved field, a missing value replaced by the default. *)
Lemma get_cell (row : Series) (col_map : gmap pystr pystr) (field col : pystr)
    (default : value) :
  col_map !! field = Some col → col ≠ [] →
  _get row col_map field default =
  if pd_isna (series_get row col default) then default else series_get row col default.
Proof. intros Hc Hne. unfold _get. rewrite Hc. by rewrite bool_decide_false. Qed.

(** A cell that is false as a condition stays so through [_get]. *)
Lemma get_falsy (row : Series) (col_map : gmap pystr pystr) (field col : pystr) :
  col_map !! field = Some col →
  truthy (series_get row col VNone) = false →
  truthy (_get row col_map field VNone) = false.
Proof.
  intros Hc Hf. unfold _get. rewrite Hc. case_bool_decide; [done|].
  by destruct (pd_isna _).
Qed.

(** A blank cell, which pandas reads as NaN, and one holding [None] come out
    of [_get] as [None]. *)
Lemma get_missing (row : Series) (col_map : gmap pystr pystr) (field col : pystr) :
  col_map !! field = Some col →
  pd_isna (series_get row col VNone) = true →
  _get row col_map field VNone = VNone.
Proof.
  intros Hc Hna. unfold _get. rewrite Hc. case_bool_decide; [done|]. by rewrite Hna.
Qed.

(** An empty cell, be it a missing value or the empty text, is false as a
    condition once [_get] has read it. *)
Lemma get_empty (row : Series) (col_map : gmap pystr pystr) (field col : pystr) :
  col_map !! field = Some col →
  pd_isna (series_get row col VNone) = true ∨ series_get row col VNone = VStr [] →
  truthy (_get row col_map field VNone) = false.
Proof.
  intros Hc [Hna|Hs].
  - by rewrite (get_missing row col_map field col).
  - apply (get_falsy row col_map field col Hc). by rewrite Hs.
Qed.

(** ** The note loop *)

Section NoteLoop.
Context `{!FloatRepr, !DatetimeStr, !ToDatetimeMs}.
Context (cols : list pystr) (col_map : gmap pystr pystr) (now_ms : Z).

Lemma note_id_of_unresolved (idx : Z) (row : Series) :
  col_map !! u "note_id" = None →
  note_id_of col_map idx row = Some (VStr (u "row_" ++ str_of_int (idx + 1))).
Proof.
  intros Hc. unfold note_id_of. rewrite Hc.
  by rewrite bool_decide_false by (by intros [? ?]).
Qed.

Lemma note_id_of_resolved (idx : Z) (row : Series) :
  is_Some (col_map !! u "note_id") →
  note_id_of col_map idx row =
  if truthy (_get row col_map (u "note_id") VNone)
  then Some (_get row col_map (u "note_id") VNone) else None.
Proof.
  intros Hc. unfold note_id_of. rewrite bool_decide_true by done.
  by destruct (truthy _).
Qed.

(** The body of the note loop: it goes on to the next row exactly when the
    row has no [note_id], and otherwise appends one object, or raises. *)
Lemma note_row_inv (objs objs' : list XhsNote.t) (idx : Z) (row : Series) :
  note_row cols col_map now_ms objs (idx, row) = Ok objs' →
  match note_id_of col_map idx row with
  | None => objs' = objs
  | Some note_id =>
      ∃ o, objs' = objs ++ [o] ∧
           XhsNote.note_id o = py_str note_id ∧
           XhsNote.user_id o =
             (if truthy (_get row col_map (u "user_id") VNone)
              then py_str (_get row col_map (u "user_id") VNone)
              else u "unknown") ∧
           XhsNote.tag_list o = merged_tag_list cols col_map row
  end.
Proof.
  unfold note_row. destruct (note_id_of col_map idx row) as [note_id|].
  - destruct (_to_ts_ms _ _) as [t_ms|]; [|done]. simpl.
    destruct (_to_int (_get row col_map (u "liked_count") VNone) _); [|done]. simpl.
    destruct (_to_int (_get row col_map (u "collected_count") VNone) _); [|done]. simpl.
    destruct (_to_int (_get row col_map (u "comment_count") VNone) _); [|done]. simpl.
    destruct (_to_int (_get row col_map (u "share_count") VNone) _); [|done]. simpl.
    intros [= <-]. eexists. by repeat split.
  - by intros [= <-].
Qed.

(** A row whose coercions return gives its object. *)
Lemma note_row_Ok (objs : list XhsNote.t) (idx : Z) (row : Series) (note_id : value)
    (t_ms liked collected comment share : option Z) :
  note_id_of col_map idx row = Some note_id →
  _to_ts_ms (_get row col_map (u "time") VNone) (Some now_ms) = Ok t_ms →
  _to_int (_get row col_map (u "liked_count") VNone) (Some 0) = Ok liked →
  _to_int (_get row col_map (u "collected_count") VNone) (Some 0) = Ok collected →
  _to_int (_get row col_map (u "comment_count") VNone) (Some 0) = Ok comment →
  _to_int (_get row col_map (u "share_count") VNone) (Some 0) = Ok share →
  ∃ o, note_row cols col_map now_ms objs (idx, row) = Ok (objs ++ [o]).
Proof.
  intros Hid Ht Hl Hc Hm Hs. unfold note_row. rewrite Hid, Ht. simpl.
  rewrite Hl. simpl. rewrite Hc. simpl. rewrite Hm. simpl. rewrite Hs. simpl.
  by eexists.
Qed.

(** In a sheet without a column for the note id the loop keeps every row,
    and the object of the row with index [i] is named after [i + 1]. *)
Lemma note_loop_synthesized (rows : list (Z * Series)) (objs : list XhsNote.t) :
  col_map !! u "note_id" = None →
  (∀ (i : nat) ir, rows !! i = Some ir → ir.1 = Z.of_nat i) →
  for_rows (note_row cols col_map now_ms) [] rows = Ok objs →
  length objs = length rows ∧
  ∀ (i : nat) o, objs !! i = Some o →
    XhsNote.note_id o = u "row_" ++ str_of_int (Z.of_nat i + 1).
Proof.
  intros Hc. revert objs. induction rows as [|[idx row] rows IH] using rev_ind;
    intros objs Hidx.
  - simpl. intros [= <-]. split; [done|]. intros i o Hi. by rewrite lookup_nil in Hi.
  - intros Hrun. apply for_rows_snoc_Ok in Hrun as (objs1 & Hrun & Hbody).
    destruct (IH objs1) as [Hlen Hids]; [|done|].
    { intros i ir Hi. apply Hidx. by apply lookup_app_l_Some. }
    apply note_row_inv in Hbody. rewrite note_id_of_unresolved in Hbody by done.
    destruct Hbody as (o & -> & Hid & _).
    assert (idx = Z.of_nat (length rows)) as ->.
    { apply (Hidx (length rows) (idx, row)). by rewrite list_lookup_middle. }
    split; [rewrite !length_app; simpl; lia|].
    intros i o' Hi. apply lookup_app_Some in Hi as [Hi|[Hge Hi]]; [by apply Hids|].
    rewrite Hlen in *. destruct (i - length rows)%nat as [|k] eqn:Hk; [|done].
    injection Hi as <-. by replace i with (length rows) by lia.
Qed.

End NoteLoop.

Lemma iterrows_index (df : DataFrame) (i : nat) (ir : Z * Series) :
  iterrows df !! i = Some ir → ir.1 = Z.of_nat i.
Proof.
  unfold iterrows. rewrite list_lookup_imap.
  destruct (data df !! i); simpl; [|done]. by intros [= <-].
Qed.

Lemma iterrows_length (df : DataFrame) : length (iterrows df) = length (data df).
Proof. apply length_imap. Qed.

(** C6. In the note loop: where note_id has a column, a row whose cell in it
    is empty (a missing value or the empty text) is passed over and adds no
    record; where note_id has no column, a row is never passed over and the
    note_id of its record is row_ followed by the row index plus one, so that
    the loop keeps every row of such a sheet and the row with index 3 gets
    row_4; a row is passed over only for its note_id, and a user_id that is
    missing or empty gives the record the user_id unknown. *)
Theorem note_identity_policy :
  (∀ (FR : FloatRepr) (DS : DatetimeStr) (T : ToDatetimeMs) (cols : list pystr)
     (col_map : gmap pystr pystr) (now_ms : Z) (objs : list XhsNote.t)
     (idx : Z) (row : Series),
     (∀ col, col_map !! u "note_id" = Some col →
        pd_isna (series_get row col VNone) = true ∨ series_get row col VNone = VStr [] →
        note_row cols col_map now_ms objs (idx, row) = Ok objs) ∧
     (∀ objs', col_map !! u "note_id" = None →
        note_row cols col_map now_ms objs (idx, row) = Ok objs' →
        ∃ o, objs' = objs ++ [o] ∧
             XhsNote.note_id o = u "row_" ++ str_of_int (idx + 1)) ∧
     (∀ t_ms liked collected comment share, col_map !! u "note_id" = None →
        _to_ts_ms (_get row col_map (u "time") VNone) (Some now_ms) = Ok t_ms →
        _to_int (_get row col_map (u "liked_count") VNone) (Some 0) = Ok liked →
        _to_int (_get row col_map (u "collected_count") VNone) (Some 0) = Ok collected →
        _to_int (_get row col_map (u "comment_count") VNone) (Some 0) = Ok comment →
        _to_int (_get row col_map (u "share_count") VNone) (Some 0) = Ok share →
        ∃ o, note_row cols col_map now_ms objs (idx, row) = Ok (objs ++ [o])) ∧
     (note_row cols col_map now_ms objs (idx, row) = Ok objs →
        is_Some (col_map !! u "note_id") ∧
        truthy (_get row col_map (u "note_id") VNone) = false) ∧
     (∀ objs' o, note_row cols col_map now_ms objs (idx, row) = Ok objs' →
        objs' = objs ++ [o] →
        col_map !! u "user_id" = None ∨
        (∃ col, col_map !! u "user_id" = Some col ∧
           (pd_isna (series_get row col VNone) = true ∨
            series_get row col VNone = VStr [])) →
        XhsNote.user_id o = u "unknown")) ∧
  (∀ (L : StrLower) (FR : FloatRepr) (DS : DatetimeStr) (T : ToDatetimeMs)
     (df : DataFrame) (now_ms : Z) (objs : list XhsNote.t),
     _build_col_map (columns df) NOTE_ALIASES !! u "note_id" = None →
     note_objs df now_ms = Ok objs →
     length objs = length (data df) ∧
     ∀ (i : nat) o, objs !! i = Some o →
       XhsNote.note_id o = u "row_" ++ str_of_int (Z.of_nat i + 1)) ∧
  (∀ (FR : FloatRepr) (DS : DatetimeStr) (T : ToDatetimeMs) (now_ms : Z),
     ∃ objs o, @note_objs ascii_lower FR DS T sheet_notes_no_id now_ms = Ok objs ∧
               length objs = 4%nat ∧ objs !! 3%nat = Some o ∧
               XhsNote.note_id o = u "row_4").
Proof.
  split; [|split].
  - intros FR DS T cols col_map now_ms objs idx row. split; [|split; [|split; [|split]]].
    + intros col Hc Hempty. unfold note_row.
      rewrite note_id_of_resolved by (by rewrite Hc).
      by rewrite (get_empty row col_map _ col Hc Hempty).
    + intros objs' Hc Hrow. apply note_row_inv in Hrow.
      rewrite note_id_of_unresolved in Hrow by done.
      destruct Hrow as (o & -> & Hid & _). by exists o.
    + intros t_ms liked collected comment share Hc. eapply note_row_Ok.
      by apply note_id_of_unresolved.
    + intros Hrow. apply note_row_inv in Hrow.
      destruct (col_map !! u "note_id") as [col|] eqn:Hc.
      * split; [done|]. rewrite note_id_of_resolved in Hrow by (by rewrite Hc).
        destruct (truthy _); [|done].
        destruct Hrow as (o & Heq & _). apply (f_equal length) in Heq.
        rewrite length_app in Heq. simpl in Heq. lia.
      * rewrite note_id_of_unresolved in Hrow by done.
        destruct Hrow as (o & Heq & _). apply (f_equal length) in Heq.
        rewrite length_app in Heq. simpl in Heq. lia.
    + intros objs' o Hrow Ho Huser. apply note_row_inv in Hrow.
      destruct (note_id_of col_map idx row) as [note_id|].
      2:{ rewrite Hrow in Ho. apply (f_equal length) in Ho.
          rewrite length_app in Ho. simpl in Ho. lia. }
      destruct Hrow as (o' & Heq & _ & Huid & _).
      rewrite Ho in Heq. apply app_inj_tail in Heq as [_ <-]. rewrite Huid.
      destruct Huser as [Hc|(col & Hc & Hempty)].
      * by rewrite get_unresolved.
      * by rewrite (get_empty row col_map _ col Hc Hempty).
  - intros L FR DS T df now_ms objs Hc Hrun. unfold note_objs in Hrun.
    rewrite <- iterrows_length.
    eapply note_loop_synthesized; [done| |done]. apply iterrows_index.
  - intros FR DS T now_ms. do 2 eexists. split; [by vm_compute|].
    split; [done|]. split; [done|]. by vm_compute.
Qed.

Lemma note_identity_policy_witness :
  (∃ objs, @note_objs ascii_lower (fun _ => []) (fun _ => []) (fun _ => None)
             sheet_notes_no_id 0 = Ok objs ∧
           length objs = length (data sheet_notes_no_id)) ∧
  @note_row (fun _ => []) (fun _ => []) (fun _ => None)
     (columns sheet_notes_with_id)
     (@_build_col_map ascii_lower (columns sheet_notes_with_id) NOTE_ALIASES) 0 []
     (1, zip (columns sheet_notes_with_id) [VFloat S754_nan; VStr (u "t1")])
   = Ok [].
Proof.
  split.
  - destruct (proj2 (proj2 note_identity_policy) (fun _ => []) (fun _ => [])
      (fun _ => None) 0) as (objs & o & Hrun & _).
    exists objs. split; [done|].
    refine (proj1 (proj1 (proj2 note_identity_policy) ascii_lower (fun _ => [])
      (fun _ => []) (fun _ => None) sheet_notes_no_id 0 objs _ Hrun)).
    by vm_compute.
  - refine (proj1 (proj1 note_identity_policy (fun _ => []) (fun _ => [])
      (fun _ => None) _ _ 0 [] 1 _) (u "笔记id") _ _).
    + by vm_compute.
    + left. by vm_compute.
Defined.

(** ** The comment loop *)

Section CommentLoop.
Context `{!FloatRepr, !DatetimeStr, !ToDatetimeMs}.
Context (col_map : gmap pystr pystr) (now_ms : Z).

Lemma comment_row_skip (objs : list XhsNoteComment.t) (ir : Z * Series) :
  truthy (_get ir.2 col_map (u "comment_id") VNone) = false ∨
  truthy (_get ir.2 col_map (u "note_id") VNone) = false →
  comment_row col_map now_ms objs ir = Ok objs.
Proof.
  intros Hf. unfold comment_row. destruct Hf as [-> | ->]; [done|].
  by rewrite orb_true_r.
Qed.

Lemma comment_row_inv (objs objs' : list XhsNoteComment.t) (ir : Z * Series) :
  truthy (_get ir.2 col_map (u "comment_id") VNone) = true →
  truthy (_get ir.2 col_map (u "note_id") VNone) = true →
  comment_row col_map now_ms objs ir = Ok objs' →
  ∃ o, objs' = objs ++ [o] ∧
       XhsNoteComment.comment_id o = py_str (_get ir.2 col_map (u "comment_id") VNone) ∧
       XhsNoteComment.note_id o = py_str (_get ir.2 col_map (u "note_id") VNone).
Proof.
  intros Hc Hn. unfold comment_row. rewrite Hc, Hn. simpl.
  destruct (_to_ts_ms _ _) as [ct_ms|]; [|done]. simpl.
  destruct (_to_int (_get ir.2 col_map (u "sub_comment_count") VNone) _); [|done]. simpl.
  destruct (_to_int (_get ir.2 col_map (u "like_count") VNone) _); [|done]. simpl.
  intros [= <-]. eexists. by repeat split.
Qed.

Lemma comment_row_Ok (objs : list XhsNoteComment.t) (ir : Z * Series)
    (ct_ms sub like : option Z) :
  truthy (_get ir.2 col_map (u "comment_id") VNone) = true →
  truthy (_get ir.2 col_map (u "note_id") VNone) = true →
  _to_ts_ms (_get ir.2 col_map (u "create_time") VNone) (Some now_ms) = Ok ct_ms →
  _to_int (_get ir.2 col_map (u "sub_comment_count") VNone) (Some 0) = Ok sub →
  _to_int (_get ir.2 col_map (u "like_count") VNone) (Some 0) = Ok like →
  ∃ o, comment_row col_map now_ms objs ir = Ok (objs ++ [o]).
Proof.
  intros Hc Hn Ht Hs Hl. unfold comment_row. rewrite Hc, Hn. simpl.
  rewrite Ht. simpl. rewrite Hs. simpl. rewrite Hl. simpl. by eexists.
Qed.

End CommentLoop.

Lemma import_comments_unresolved `{!StrLower, !FloatRepr, !DatetimeStr, !ToDatetimeMs}
    (df : DataFrame) (now_ms : Z) :
  _build_col_map (columns df) COMMENT_ALIASES !! u "comment_id" = None ∨
  _build_col_map (columns df) COMMENT_ALIASES !! u "note_id" = None →
  import_comments (Some df) now_ms = Ok [].
Proof.
  intros Hun. unfold import_comments, comment_objs.
  destruct (df_empty df); [done|]. by rewrite bool_decide_true.
Qed.

(** A comment sheet in which comment_id or note_id finds no column gives
    the session no comment batch, and the run is the one of a workbook
    without the comment sheet, the creators and the notes being imported as
    usual.  With both columns, a row whose two cells are not empty adds one
    record carrying the two ids whenever the loop body returns, and it
    returns as soon as the coercions of the three numeric cells do; a row
    with an empty cell in one of the two columns is passed over.  A sheet
    with one valid row and one row without comment_id gives one record and
    passes over one row. *)
Lemma comment_requirements :
  (∀ (L : StrLower) (FR : FloatRepr) (DS : DatetimeStr) (T : ToDatetimeMs)
     (df_notes df_creators : option DataFrame) (df : DataFrame) (now_ms : Z),
     _build_col_map (columns df) COMMENT_ALIASES !! u "comment_id" = None ∨
     _build_col_map (columns df) COMMENT_ALIASES !! u "note_id" = None →
     import_comments (Some df) now_ms = Ok [] ∧
     import_frames df_notes df_creators (Some df) now_ms
       = import_frames df_notes df_creators None now_ms) ∧
  (∀ (FR : FloatRepr) (DS : DatetimeStr) (T : ToDatetimeMs)
     (col_map : gmap pystr pystr) (now_ms : Z) (objs : list XhsNoteComment.t)
     (ir : Z * Series),
     (truthy (_get ir.2 col_map (u "comment_id") VNone) = true →
      truthy (_get ir.2 col_map (u "note_id") VNone) = true →
      (∀ objs', comment_row col_map now_ms objs ir = Ok objs' →
         ∃ o, objs' = objs ++ [o] ∧
              XhsNoteComment.comment_id o
                = py_str (_get ir.2 col_map (u "comment_id") VNone) ∧
              XhsNoteComment.note_id o
                = py_str (_get ir.2 col_map (u "note_id") VNone)) ∧
      (∀ ct_ms sub like,
         _to_ts_ms (_get ir.2 col_map (u "create_time") VNone) (Some now_ms) = Ok ct_ms →
         _to_int (_get ir.2 col_map (u "sub_comment_count") VNone) (Some 0) = Ok sub →
         _to_int (_get ir.2 col_map (u "like_count") VNone) (Some 0) = Ok like →
         ∃ o, comment_row col_map now_ms objs ir = Ok (objs ++ [o]))) ∧
     (∀ field col, field = u "comment_id" ∨ field = u "note_id" →
        col_map !! field = Some col →
        pd_isna (series_get ir.2 col VNone) = true ∨ series_get ir.2 col VNone = VStr [] →
        comment_row col_map now_ms objs ir = Ok objs)) ∧
  (∀ (FR : FloatRepr) (DS : DatetimeStr) (T : ToDatetimeMs) (now_ms : Z),
     ∃ o, @import_comments ascii_lower FR DS T (Some sheet_comments) now_ms
            = Ok [Comments [o]] ∧
          XhsNoteComment.comment_id o = u "c1" ∧
          XhsNoteComment.note_id o = u "n1" ∧
          iterrows sheet_comments !! 1%nat
            = Some (1, zip (columns sheet_comments)
                         [VFloat S754_nan; VStr (u "n1"); VStr (u "yo")]) ∧
          comment_row (@_build_col_map ascii_lower (columns sheet_comments) COMMENT_ALIASES)
            now_ms [o]
            (1, zip (columns sheet_comments) [VFloat S754_nan; VStr (u "n1"); VStr (u "yo")])
            = Ok [o]).
Proof.
  split; [|split].
  - intros L FR DS T df_notes df_creators df now_ms Hun.
    assert (Himp : import_comments (Some df) now_ms = Ok [])
      by by apply import_comments_unresolved.
    split; [done|]. unfold import_frames. by rewrite Himp.
  - intros FR DS T col_map now_ms objs ir. split.
    + intros Hc Hn. split.
      * intros objs'. by apply comment_row_inv.
      * intros ct_ms sub like. by apply comment_row_Ok.
    + intros field col Hfield Hc Hempty. apply comment_row_skip.
      destruct Hfield as [-> | ->]; [left|right];
        by apply (get_empty _ col_map _ col).
  - intros FR DS T now_ms. eexists. split; [by vm_compute|].
    repeat split; by vm_compute.
Qed.

Lemma comment_requirements_witness :
  @import_comments ascii_lower (fun _ => []) (fun _ => []) (fun _ => None)
     (Some sheet_comments_no_id) 0 = Ok [] ∧
  (∃ o, @comment_row (fun _ => []) (fun _ => []) (fun _ => None)
          (@_build_col_map ascii_lower (columns sheet_comments) COMMENT_ALIASES) 0 []
          (0, zip (columns sheet_comments) [VStr (u "c1"); VStr (u "n1"); VStr (u "hi")])
        = Ok ([] ++ [o])) ∧
  @comment_row (fun _ => []) (fun _ => []) (fun _ => None)
    (@_build_col_map ascii_lower (columns sheet_comments) COMMENT_ALIASES) 0 []
    (1, zip (columns sheet_comments) [VFloat S754_nan; VStr (u "n1"); VStr (u "yo")])
  = Ok [].
Proof.
  split; [|split].
  - refine (proj1 (proj1 comment_requirements ascii_lower (fun _ => []) (fun _ => [])
      (fun _ => None) None None sheet_comments_no_id 0 _)).
    left. by vm_compute.
  - refine (proj2 (proj1 (proj1 (proj2 comment_requirements) (fun _ => [])
      (fun _ => []) (fun _ => None) _ 0 [] _) _ _) (Some 0) (Some 0) (Some 0) _ _ _);
      by vm_compute.
  - refine (proj2 (proj1 (proj2 comment_requirements) (fun _ => []) (fun _ => [])
      (fun _ => None) _ 0 [] _) (u "comment_id") (u "comment_id") _ _ _).
    + by left.
    + by vm_compute.
    + left. by vm_compute.
Defined.

(** C7, where the code departs from the specification.  With comment_id
    and note_id resolved, every row whose two cells are not empty is
    specified to give a record.  In the sheet with the columns comment_id,
    note_id and like_count and the one row c1, n1, 1e999 both columns
    resolve and both cells are not empty; the count of likes reads as the
    float infinity, [_to_int] raises [OverflowError] on it, the loop body
    raises with it, and so does the comment section and the run: the row
    gives no record and the session gets no batch. *)
Theorem comment_row_lost_on_infinite_count (FR : FloatRepr) (DS : DatetimeStr)
    (T : ToDatetimeMs) (now_ms : Z) :
  is_Some (@_build_col_map ascii_lower (columns sheet_comments_overflow)
             COMMENT_ALIASES !! u "comment_id") ∧
  is_Some (@_build_col_map ascii_lower (columns sheet_comments_overflow)
             COMMENT_ALIASES !! u "note_id") ∧
  iterrows sheet_comments_overflow
    = [(0, [(u "comment_id", VStr (u "c1")); (u "note_id", VStr (u "n1"));
            (u "like_count", VStr (u "1e999"))])] ∧
  (∀ ir, ir ∈ iterrows sheet_comments_overflow →
     truthy (_get ir.2 (@_build_col_map ascii_lower (columns sheet_comments_overflow)
                          COMMENT_ALIASES) (u "comment_id") VNone) = true ∧
     truthy (_get ir.2 (@_build_col_map ascii_lower (columns sheet_comments_overflow)
                          COMMENT_ALIASES) (u "note_id") VNone) = true ∧
     ∀ objs, comment_row (@_build_col_map ascii_lower (columns sheet_comments_overflow)
                            COMMENT_ALIASES) now_ms objs ir = Raise OverflowError) ∧
  @import_comments ascii_lower FR DS T (Some sheet_comments_overflow) now_ms
    = Raise OverflowError ∧
  @import_frames ascii_lower FR DS T None None (Some sheet_comments_overflow) now_ms
    = Raise OverflowError.
Proof.
  split; [eexists; by vm_compute|]. split; [eexists; by vm_compute|].
  split; [by vm_compute|]. split; [|split; by vm_compute].
  intros ir Hir.
  assert (ir = (0, [(u "comment_id", VStr (u "c1")); (u "note_id", VStr (u "n1"));
                    (u "like_count", VStr (u "1e999"))])) as ->.
  { revert Hir. assert (iterrows sheet_comments_overflow
      = [(0, [(u "comment_id", VStr (u "c1")); (u "note_id", VStr (u "n1"));
              (u "like_count", VStr (u "1e999"))])]) as -> by by vm_compute.
    by intros ->%list_elem_of_singleton. }
  split; [by vm_compute|]. split; [by vm_compute|].
  intros objs. by vm_compute.
Qed.

(** ** The tag merge *)

(** A loop that appends what each element contributes collects the
    contributions in order. *)
Lemma foldl_append_omap {A B : Type} (body : list B → A → list B)
    (f : A → option B) (l : list A) (acc : list B) :
  (∀ acc a, body acc a = match f a with Some b => acc ++ [b] | None => acc end) →
  foldl body acc l = acc ++ omap f l.
Proof.
  intros Hbody. revert acc. induction l as [|a l IH]; intros acc; simpl.
  - by rewrite app_nil_r.
  - rewrite IH, Hbody. destruct (f a); [|done]. by rewrite <- app_assoc.
Qed.

Lemma extra_tags_loop_omap (cols : list pystr) (row : Series) :
  extra_tags_loop cols row = omap (aux_tag_text cols row) AUX_TAG_COLUMNS.
Proof.
  unfold extra_tags_loop.
  rewrite (foldl_append_omap _ (aux_tag_text cols row)); [done|].
  intros acc c. unfold aux_tag_text.
  case_bool_decide; [|done].
  destruct (series_get row c VNone); try done.
  by repeat case_bool_decide.
Qed.

Lemma join_nonempty (sep : pystr) (parts : list pystr) :
  parts ≠ [] → Forall (fun p => p ≠ []) parts → join sep parts ≠ [].
Proof.
  destruct parts as [|p parts]; [done|]. intros _ Hall.
  apply Forall_cons in Hall as [Hp _]. simpl.
  destruct parts; [done|]. by destruct p.
Qed.

Lemma aux_tag_text_nonempty (cols : list pystr) (row : Series) (l : list pystr) :
  Forall (fun p => p ≠ []) (omap (aux_tag_text cols row) l).
Proof.
  induction l as [|c l IH]; simpl; [constructor|].
  destruct (aux_tag_text cols row c) as [t|] eqn:Ht; [|done].
  constructor; [|done]. unfold aux_tag_text in Ht.
  case_bool_decide; [|done]. destruct (series_get row c VNone); try done.
  case_bool_decide; [done|]. by injection Ht as <-.
Qed.

(** C9, as the code has it.  The merged tag of a note row is built from the
    sequence that starts with the text of the resolved tag_list value,
    stripped of the white space around it (when the value is present and
    this text is not empty), and goes on, in the fixed order, with the
    stripped cells of those of the columns 笔记分类, 提及品类, 种草品牌,
    商业合作品牌 that the sheet has and that hold text which is not blank;
    the columns are found by their label, whatever the column map; the
    sequence is joined with " | ", and the merged tag is null when the
    sequence is empty, never the empty string. *)
Theorem merged_tag_of_text_cells (FR : FloatRepr) (DS : DatetimeStr)
    (cols : list pystr) (col_map : gmap pystr pystr) (row : Series) :
  merged_tag_list cols col_map row =
    (match tag_list_text (_get row col_map (u "tag_list") VNone)
           ++ omap (aux_tag_text cols row)
                [u "笔记分类"; u "提及品类"; u "种草品牌"; u "商业合作品牌"] with
     | [] => None
     | parts => Some (join (u " | ") parts)
     end) ∧
  merged_tag_list cols col_map row ≠ Some [].
Proof.
  assert (Heq : merged_tag_list cols col_map row =
    match tag_list_text (_get row col_map (u "tag_list") VNone)
          ++ omap (aux_tag_text cols row) AUX_TAG_COLUMNS with
    | [] => None
    | parts => Some (join (u " | ") parts)
    end).
  { unfold merged_tag_list, tag_list_text. rewrite extra_tags_loop_omap.
    generalize (omap (aux_tag_text cols row) AUX_TAG_COLUMNS). intros aux.
    destruct (is_none _); simpl.
    - by destruct aux.
    - generalize (strip (py_str (_get row col_map (u "tag_list") VNone))).
      intros t. destruct (decide (t = [])) as [Hs|Hs].
      + rewrite (bool_decide_true (t = []) Hs).
        rewrite (bool_decide_false (t ≠ [])) by (intros Hn; destruct (Hn Hs)).
        by destruct aux.
      + rewrite (bool_decide_false (t = []) Hs).
        rewrite (bool_decide_true (t ≠ []) Hs). by rewrite bool_decide_true. }
  split; [exact Heq|]. rewrite Heq.
  destruct (tag_list_text _ ++ omap (aux_tag_text cols row) AUX_TAG_COLUMNS)
    as [|p parts] eqn:Hparts; [done|].
  intros Hj. apply (join_nonempty (u " | ") (p :: parts)); [done| |congruence].
  rewrite <- Hparts. apply Forall_app. split; [|apply aux_tag_text_nonempty].
  unfold tag_list_text. destruct (is_none _); [constructor|].
  case_bool_decide; by repeat constructor.
Qed.

(** C9 as the specification words it fails.  A row whose 笔记分类 cell holds
    the integer 5 has a non-blank value in that column, and the sequence of
    the specification holds it, yet the merged tag is null, the code taking
    text cells only; and the text cell " a " enters the merged tag as "a",
    not as it is. *)
Lemma merged_tag_skips_non_text :
  (@spec_tag_values [u "笔记分类"] ∅ [(u "笔记分类", VInt 5)] = [VInt 5] ∧
   @spec_merged_tag (fun _ => []) (fun _ => []) [u "笔记分类"] ∅
      [(u "笔记分类", VInt 5)] = Some (u "5") ∧
   @merged_tag_list (fun _ => []) (fun _ => []) [u "笔记分类"] ∅
      [(u "笔记分类", VInt 5)] = None) ∧
  (@spec_merged_tag (fun _ => []) (fun _ => []) [u "笔记分类"] ∅
      [(u "笔记分类", VStr (u " a "))] = Some (u " a ") ∧
   @merged_tag_list (fun _ => []) (fun _ => []) [u "笔记分类"] ∅
      [(u "笔记分类", VStr (u " a "))] = Some (u "a")) ∧
  @merged_tag_list (fun _ => []) (fun _ => []) [u "笔记分类"] ∅ [(u "笔记分类", VInt 5)]
    ≠ @spec_merged_tag (fun _ => []) (fun _ => []) [u "笔记分类"] ∅
        [(u "笔记分类", VInt 5)].
Proof. repeat split; by vm_compute. Qed.

(** ** The sheets of a run *)

(** A workbook with one sheet feeds this sheet to the creator and to the note
    section and has no comments. *)
Lemma single_sheet_run `{!StrLower, !FloatRepr, !DatetimeStr, !ToDatetimeMs}
    (name notes_sheet creators_sheet comments_sheet : pystr) (df : DataFrame)
    (now_ms : Z) :
  import_from_excel [(name, df)] notes_sheet creators_sheet comments_sheet now_ms
  = import_frames (Some df) (Some df) None now_ms.
Proof. reflexivity. Qed.

(** A sheet that is not in a workbook of several sheets leaves its section
    without rows, and the section adds nothing. *)
Lemma missing_sheet_adds_nothing `{!StrLower, !FloatRepr, !DatetimeStr, !ToDatetimeMs}
    (now_ms : Z) :
  import_creators None now_ms = Ok [] ∧
  import_notes None now_ms = Ok [] ∧
  import_comments None now_ms = Ok [].
Proof. by repeat split. Qed.

(** * Further properties of the importer *)

(** ** What [_get] hands out *)

Lemma series_get_elem (row : Series) (col : pystr) (default : value) :
  series_get row col default = default ∨ (col, series_get row col default) ∈ row.
Proof.
  induction row as [|[k v] row IH]; simpl; [by left|].
  destruct (decide (k = col)) as [->|Hne].
  - right. left.
  - destruct IH as [IH|IH]; [by left|]. right. by right.
Qed.

Lemma get_cases (row : Series) (col_map : gmap pystr pystr)
    (field : pystr) (default : value) :
  _get row col_map field default = default ∨
  ∃ col, col_map !! field = Some col ∧ col ≠ [] ∧
         (col, _get row col_map field default) ∈ row ∧
         pd_isna (_get row col_map field default) = false.
Proof.
  unfold _get. destruct (col_map !! field) as [col|] eqn:Hc; [|by left].
  case_bool_decide as Hne; [by left|].
  destruct (pd_isna (series_get row col default)) eqn:Hna; [by left|].
  destruct (series_get_elem row col default) as [Hd|Hin]; [by left|].
  right. by exists col.
Qed.

(** X1. What [_get] returns is the default, or else the content of a cell
    of the row, in the non-empty column that the map gives for the field, and
    this content is not a missing value. *)
Theorem get_default_or_cell (row : Series) (col_map : gmap pystr pystr)
    (field : pystr) (default : value) :
  _get row col_map field default = default ∨
  ∃ col, col_map !! field = Some col ∧ col ≠ [] ∧
         (col, _get row col_map field default) ∈ row ∧
         pd_isna (_get row col_map field default) = false.
Proof. apply get_cases. Qed.

(** ** The column map and the sheet *)

Section ColumnMap.
Context `{!StrLower}.

Lemma first_alias_Some (lc : gmap pystr pystr) (names : list pystr) (col : pystr) :
  first_alias lc names = Some col →
  col ≠ [] ∧ ∃ a, a ∈ names ∧ lc !! str_lower a = Some col.
Proof.
  induction names as [|name names IH]; simpl; [done|].
  destruct (lc !! str_lower name) as [c|] eqn:Hl.
  - case_bool_decide as Hne.
    + intros [= <-]. split; [done|]. exists name. split; [left|done].
    + intros Hfa. destruct (IH Hfa) as (? & a & Ha & ?).
      split; [done|]. exists a. split; [by right|done].
  - intros Hfa. destruct (IH Hfa) as (? & a & Ha & ?).
    split; [done|]. exists a. split; [by right|done].
Qed.

(** The inner loop consults the lookup under the lower-case forms of the
    names only. *)
Lemma first_alias_ext (lc lc' : gmap pystr pystr) (names : list pystr) :
  (∀ a, a ∈ names → lc !! str_lower a = lc' !! str_lower a) →
  first_alias lc names = first_alias lc' names.
Proof.
  induction names as [|name names IH]; intros Hagree; simpl; [done|].
  rewrite <- (Hagree name) by left.
  rewrite IH; [done|]. intros a Ha. apply Hagree. by right.
Qed.

Lemma foldl_ext_in {A B : Type} (f g : A → B → A) (l : list B) (a : A) :
  (∀ acc x, x ∈ l → f acc x = g acc x) → foldl f a l = foldl g a l.
Proof.
  revert a. induction l as [|x l IH]; intros a Hfg; simpl; [done|].
  rewrite (Hfg a x) by left. apply IH. intros acc y Hy. apply Hfg. by right.
Qed.

Lemma build_col_map_entry (cols : list pystr) (aliases : Aliases) (field col : pystr) :
  _build_col_map cols aliases !! field = Some col →
  ∃ names, (field, names) ∈ aliases ∧ first_alias (lower_cols cols) names = Some col.
Proof.
  unfold _build_col_map. induction aliases as [|[f ns] aliases IH] using rev_ind.
  - simpl. by rewrite lookup_empty.
  - rewrite foldl_app. simpl.
    destruct (first_alias (lower_cols cols) ns) as [c|] eqn:Hfa.
    + destruct (decide (f = field)) as [->|Hne].
      * rewrite lookup_insert_eq. intros [= ->].
        exists ns. split; [|done]. apply elem_of_app. right. left.
      * rewrite lookup_insert_ne by done. intros Hl.
        destruct (IH Hl) as (names & Hin & Hfa').
        exists names. split; [|done]. apply elem_of_app. by left.
    + intros Hl. destruct (IH Hl) as (names & Hin & Hfa').
      exists names. split; [|done]. apply elem_of_app. by left.
Qed.

End ColumnMap.

(** X2. Every entry of the column map is sound: its field is declared in
    the schema, its column is a non-empty label of the sheet, and this label
    equals one of the aliases of the field up to case. *)
Theorem col_map_sound (L : StrLower) (cols : list pystr) (aliases : Aliases)
    (field col : pystr) :
  _build_col_map cols aliases !! field = Some col →
  col ∈ cols ∧ col ≠ [] ∧
  ∃ names a, (field, names) ∈ aliases ∧ a ∈ names ∧ str_lower col = str_lower a.
Proof.
  intros Hl. apply build_col_map_entry in Hl as (names & Hin & Hfa).
  apply first_alias_Some in Hfa as (Hne & a & Ha & Hlc).
  apply lower_cols_Some in Hlc as [Hcol Heq].
  split; [done|]. split; [done|]. by exists names, a.
Qed.

Lemma col_map_sound_witness :
  u "账号昵称" ∈ [u "笔记标题"; u "账号昵称"] ∧
  ∃ names a, (u "nickname", names) ∈ NOTE_ALIASES ∧ a ∈ names ∧
             ascii_lower (u "账号昵称") = ascii_lower a.
Proof.
  destruct (col_map_sound ascii_lower [u "笔记标题"; u "账号昵称"] NOTE_ALIASES
    (u "nickname") (u "账号昵称")) as (Hin & _ & Hal).
  - by vm_compute.
  - by split.
Defined.

(** X3. A column whose label matches no alias of the schema, whatever the
    case, has no effect on the column map: the map of the sheet with the
    column is the map of the sheet without it. *)
Theorem unrelated_column_ignored (L : StrLower) (cols1 cols2 : list pystr)
    (c : pystr) (aliases : Aliases) :
  (∀ field names a, (field, names) ∈ aliases → a ∈ names →
     str_lower c ≠ str_lower a) →
  _build_col_map (cols1 ++ c :: cols2) aliases = _build_col_map (cols1 ++ cols2) aliases.
Proof.
  intros Hun. unfold _build_col_map. apply foldl_ext_in.
  intros acc [field names] Hin.
  rewrite (first_alias_ext (lower_cols (cols1 ++ c :: cols2))
             (lower_cols (cols1 ++ cols2)) names); [done|].
  intros a Ha. rewrite !lower_cols_lookup, !filter_app.
  rewrite filter_cons_False; [done|]. by apply (Hun field names).
Qed.

Lemma unrelated_column_ignored_witness :
  @_build_col_map ascii_lower ([u "笔记标题"] ++ u "备注" :: [u "账号昵称"]) NOTE_ALIASES
  = @_build_col_map ascii_lower ([u "笔记标题"] ++ [u "账号昵称"]) NOTE_ALIASES.
Proof.
  apply (unrelated_column_ignored ascii_lower).
  intros field names a Hin. revert a. apply Forall_forall.
  revert field names Hin.
  assert (Hall : Forall (fun fn : pystr * list pystr =>
            Forall (fun a => ascii_lower (u "备注") ≠ ascii_lower a) fn.2) NOTE_ALIASES)
    by compute_done.
  intros field names Hin. by apply (proj1 (Forall_forall _ _) Hall (field, names)).
Defined.

(** X4. The order in which a schema declares its fields has no effect on
    the column map; only the order of the aliases of one field counts. *)
Theorem field_order_irrelevant (L : StrLower) (cols : list pystr)
    (aliases aliases' : Aliases) :
  NoDup aliases.*1 → aliases ≡ₚ aliases' →
  _build_col_map cols aliases = _build_col_map cols aliases'.
Proof.
  intros Hnd Hperm. apply map_eq. intros field.
  assert (Hnd' : NoDup aliases'.*1) by by rewrite <- Hperm.
  destruct (decide (field ∈ aliases.*1)) as [Hin|Hout].
  - apply list_elem_of_fmap in Hin as ([f names] & -> & Hin). simpl.
    rewrite (build_col_map_lookup cols aliases f names Hnd Hin).
    rewrite Hperm in Hin.
    by rewrite (build_col_map_lookup cols aliases' f names Hnd' Hin).
  - rewrite (build_col_map_undeclared cols aliases field Hout).
    rewrite Hperm in Hout.
    by rewrite (build_col_map_undeclared cols aliases' field Hout).
Qed.

Lemma field_order_irrelevant_witness :
  @_build_col_map ascii_lower [u "评论内容"; u "评论id"] COMMENT_ALIASES
  = @_build_col_map ascii_lower [u "评论内容"; u "评论id"] (reverse COMMENT_ALIASES).
Proof.
  apply (field_order_irrelevant ascii_lower).
  - compute_done.
  - by rewrite reverse_Permutation.
Defined.

Lemma filter_image_at_most_one {A B : Type} `{EqDecision B} (f : A → B)
    (l : list A) (k : B) :
  NoDup (f <$> l) → (length (filter (fun c => f c = k) l) ≤ 1)%nat.
Proof.
  induction l as [|x l IH]; simpl; [lia|]. intros Hnd.
  apply NoDup_cons in Hnd as [Hx Hnd].
  destruct (decide (f x = k)) as [Heq|Hne].
  - rewrite filter_cons_True by done. simpl.
    assert (filter (fun c => f c = k) l = []) as ->; [|simpl; lia].
    destruct (filter (fun c => f c = k) l) as [|y l'] eqn:Hf; [done|].
    assert (Hy : y ∈ filter (fun c => f c = k) l) by (rewrite Hf; left).
    apply list_elem_of_filter in Hy as [Hfy Hy].
    destruct Hx. apply list_elem_of_fmap. exists y. split; [congruence|done].
  - rewrite filter_cons_False by done. by apply IH.
Qed.

(** X5. In a sheet whose labels are pairwise distinct up to case, the order
    of the columns has no effect on the column map. *)
Theorem column_order_irrelevant (L : StrLower) (cols cols' : list pystr)
    (aliases : Aliases) :
  NoDup (str_lower <$> cols) → cols ≡ₚ cols' →
  _build_col_map cols aliases = _build_col_map cols' aliases.
Proof.
  intros Hnd Hperm.
  assert (Hlc : lower_cols cols = lower_cols cols').
  { apply map_eq. intros k. rewrite !lower_cols_lookup.
    assert (Hnd' : NoDup (str_lower <$> cols')) by by rewrite <- Hperm.
    pose proof (filter_image_at_most_one str_lower cols k Hnd) as Hlen.
    pose proof (filter_image_at_most_one str_lower cols' k Hnd') as Hlen'.
    assert (Hp : filter (fun c => str_lower c = k) cols
                 ≡ₚ filter (fun c => str_lower c = k) cols') by by rewrite Hperm.
    destruct (filter (fun c => str_lower c = k) cols) as [|x [|y l]];
      [| |simpl in Hlen; lia].
    - apply Permutation_nil_l in Hp. by rewrite Hp.
    - apply Permutation_singleton_l in Hp. by rewrite Hp. }
  unfold _build_col_map. by rewrite Hlc.
Qed.

Lemma column_order_irrelevant_witness :
  @_build_col_map ascii_lower [u "Note_ID"; u "笔记标题"; u "发布时间"] NOTE_ALIASES
  = @_build_col_map ascii_lower [u "发布时间"; u "Note_ID"; u "笔记标题"] NOTE_ALIASES.
Proof.
  apply (column_order_irrelevant ascii_lower).
  - compute_done.
  - symmetry. apply (Permutation_cons_append [u "Note_ID"; u "笔记标题"] (u "发布时间")).
Defined.

(** ** More on the coercions *)

(** X6. A finite float goes through [_to_int] to its integer part, rounded
    toward zero: for the float of sign [s] and absolute value [m * 2 ^ e]
    the result is [a] or [- a] after the sign, with [a] the largest integer
    that does not exceed the absolute value. *)
Theorem to_int_truncates_toward_zero (s : bool) (m : positive) (e : Z) (d : option Z) :
  ∃ a, 0 ≤ a ∧
       a * 2 ^ Z.max (- e) 0 ≤ Z.pos m * 2 ^ Z.max e 0 ∧
       Z.pos m * 2 ^ Z.max e 0 < (a + 1) * 2 ^ Z.max (- e) 0 ∧
       _to_int (VFloat (S754_finite s m e)) d = Ok (Some (if s then - a else a)).
Proof.
  exists (Z.shiftl (Z.pos m) e). split; [by apply Z.shiftl_nonneg|].
  assert (Hcases : (0 ≤ e ∧ Z.shiftl (Z.pos m) e = Z.pos m * 2 ^ e) ∨
                   (e < 0 ∧ Z.shiftl (Z.pos m) e = Z.pos m / 2 ^ (- e))).
  { destruct (Z.le_gt_cases 0 e) as [He|He].
    - left. split; [done|]. by apply Z.shiftl_mul_pow2.
    - right. split; [done|]. apply Z.shiftl_div_pow2. lia. }
  destruct Hcases as [[He ->]|[He ->]].
  - rewrite (Z.max_l e 0), (Z.max_r (- e) 0) by lia.
    split; [lia|]. split; [lia|].
    unfold _to_int. simpl. by rewrite Z.shiftl_mul_pow2.
  - rewrite (Z.max_r e 0), (Z.max_l (- e) 0) by lia.
    assert (Hp : 0 < 2 ^ (- e)) by (apply Z.pow_pos_nonneg; lia).
    pose proof (Z.mul_div_le (Z.pos m) (2 ^ (- e)) Hp) as Hle.
    pose proof (Z.mul_succ_div_gt (Z.pos m) (2 ^ (- e)) Hp) as Hgt.
    split; [lia|]. split; [lia|].
    unfold _to_int. simpl. by rewrite Z.shiftl_div_pow2 by lia.
Qed.

Lemma to_int_infinite (v : value) (d : option Z) :
  reads_as_infinity v = true → _to_int v d = Raise OverflowError.
Proof.
  destruct v as [| |f|s| |]; try done.
  - by destruct f.
  - simpl. intros Hinf. apply andb_prop in Hinf as [Hs Hf].
    unfold _to_int. simpl. rewrite Hs.
    by destruct (py_float s) as [[]|].
Qed.

Lemma to_int_finite (v : value) (d : option Z) :
  reads_as_infinity v = false → ∃ r, _to_int v d = Ok r.
Proof.
  intros Hfin. destruct (_to_int v d) as [r|e] eqn:Hi; [by exists r|].
  apply to_int_raise_inv in Hi as (_ & b & [->|(s & -> & Hs & Hf)]); [done|].
  simpl in Hfin. by rewrite Hf, bool_decide_true in Hfin.
Qed.

Lemma to_ts_ms_finite `{!ToDatetimeMs} (v : value) (d : option Z) :
  reads_as_infinity v = false → ∃ r, _to_ts_ms v d = Ok r.
Proof.
  intros Hfin. destruct (to_int_finite v None Hfin) as [r Hr].
  rewrite to_ts_ms_cases, Hr. destruct r; [by eexists|].
  destruct (is_none v); by eexists.
Qed.

(** X7. The coercions raise on the values that read as an infinite float
    and on no other value: on such a value [_to_int] and [_to_ts_ms] raise
    [OverflowError], and on every other value both return. *)
Theorem coercions_raise_on_infinity_only (T : ToDatetimeMs) (v : value)
    (d : option Z) :
  (reads_as_infinity v = true →
     _to_int v d = Raise OverflowError ∧ _to_ts_ms v d = Raise OverflowError) ∧
  (reads_as_infinity v = false →
     (∃ r, _to_int v d = Ok r) ∧ (∃ r, _to_ts_ms v d = Ok r)).
Proof.
  split.
  - intros Hinf. split; [by apply to_int_infinite|].
    unfold _to_ts_ms. by rewrite (to_int_infinite v None Hinf).
  - intros Hfin. split; [by apply to_int_finite|by apply to_ts_ms_finite].
Qed.

Lemma coercions_raise_on_infinity_only_witness :
  @_to_ts_ms (fun _ => None) (VStr (u "Infinity")) (Some 0) = Raise OverflowError ∧
  ∃ r, @_to_ts_ms (fun _ => None) (VStr (u "2024-05-01")) (Some 0) = Ok r.
Proof.
  split.
  - apply (proj1 (coercions_raise_on_infinity_only (fun _ => None)
      (VStr (u "Infinity")) (Some 0))). by vm_compute.
  - apply (proj2 (coercions_raise_on_infinity_only (fun _ => None)
      (VStr (u "2024-05-01")) (Some 0))). by vm_compute.
Defined.

(** ** Cells that are false as a condition *)

Lemma to_int_raise_infinite (v : value) (d : option Z) (e : exn) :
  _to_int v d = Raise e → e = OverflowError ∧ reads_as_infinity v = true.
Proof.
  intros Hi. destruct (reads_as_infinity v) eqn:Hinf.
  - rewrite (to_int_infinite v d Hinf) in Hi. by injection Hi as <-.
  - destruct (to_int_finite v d Hinf) as [r Hr]. congruence.
Qed.

Lemma to_ts_ms_raise_infinite `{!ToDatetimeMs} (v : value) (d : option Z) (e : exn) :
  _to_ts_ms v d = Raise e → e = OverflowError ∧ reads_as_infinity v = true.
Proof.
  intros Ht. destruct (reads_as_infinity v) eqn:Hinf.
  - unfold _to_ts_ms in Ht. rewrite (to_int_infinite v None Hinf) in Ht.
    by injection Ht as <-.
  - destruct (to_ts_ms_finite v d Hinf) as [r Hr]. congruence.
Qed.

(** The fields of a note that go through a coercion. *)
Lemma note_row_outcome `{!FloatRepr, !DatetimeStr, !ToDatetimeMs} (cols : list pystr)
    (col_map : gmap pystr pystr) (now_ms : Z) (objs : list XhsNote.t) (idx : Z)
    (row : Series) (note_id : value) :
  note_id_of col_map idx row = Some note_id →
  (∃ o, note_row cols col_map now_ms objs (idx, row) = Ok (objs ++ [o]) ∧
        XhsNote.note_id o = py_str note_id ∧
        XhsNote.user_id o =
          (if truthy (_get row col_map (u "user_id") VNone)
           then py_str (_get row col_map (u "user_id") VNone)
           else u "unknown")) ∨
  (note_row cols col_map now_ms objs (idx, row) = Raise OverflowError ∧
   ∃ field,
     field ∈ [u "time"; u "liked_count"; u "collected_count"; u "comment_count";
              u "share_count"] ∧
     reads_as_infinity (_get row col_map field VNone) = true).
Proof.
  intros Hid.
  destruct (note_row cols col_map now_ms objs (idx, row)) as [objs'|e] eqn:Hrow.
  - left. apply note_row_inv in Hrow. rewrite Hid in Hrow.
    destruct Hrow as (o & -> & Ho & Hu & _). by exists o.
  - right. unfold note_row in Hrow. rewrite Hid in Hrow.
    destruct (_to_ts_ms _ _) as [t_ms|e1] eqn:Ht; simpl in Hrow.
    2:{ injection Hrow as <-. apply to_ts_ms_raise_infinite in Ht as [-> Hinf].
        split; [done|]. exists (u "time"). split; [|done]. by left. }
    destruct (_to_int (_get row col_map (u "liked_count") VNone) _) as [a|e1] eqn:Ha;
      simpl in Hrow.
    2:{ injection Hrow as <-. apply to_int_raise_infinite in Ha as [-> Hinf].
        split; [done|]. exists (u "liked_count"). split; [|done]. right. by left. }
    destruct (_to_int (_get row col_map (u "collected_count") VNone) _) as [b|e1] eqn:Hb;
      simpl in Hrow.
    2:{ injection Hrow as <-. apply to_int_raise_infinite in Hb as [-> Hinf].
        split; [done|]. exists (u "collected_count"). split; [|done].
        do 2 right. by left. }
    destruct (_to_int (_get row col_map (u "comment_count") VNone) _) as [c|e1] eqn:Hc;
      simpl in Hrow.
    2:{ injection Hrow as <-. apply to_int_raise_infinite in Hc as [-> Hinf].
        split; [done|]. exists (u "comment_count"). split; [|done].
        do 3 right. by left. }
    destruct (_to_int (_get row col_map (u "share_count") VNone) _) as [f|e1] eqn:Hf;
      simpl in Hrow; [done|].
    injection Hrow as <-. apply to_int_raise_infinite in Hf as [-> Hinf].
    split; [done|]. exists (u "share_count"). split; [|done].
    do 4 right. by left.
Qed.

(** C10. The identity cells are tested as conditions: a cell whose value is
    false as a condition, the integer 0 and the float 0.0 among them, is
    treated as an empty one.  With such a value in the user_id cell the
    creator loop passes over the row, as it does for an empty cell.  The
    note loop does not pass over the row for it: a row that has a note_id
    gives one record, appended to the objects, with this note_id and the
    user_id unknown, unless one of its numeric cells reads as an infinite
    float, on which the loop body raises; a row without note_id is passed
    over as any such row.  With such a value in the comment_id or note_id
    cell the comment loop passes over the row. *)
Theorem falsy_identity_cells (FR : FloatRepr) (DS : DatetimeStr) (T : ToDatetimeMs)
    (col_map : gmap pystr pystr) (now_ms : Z) (ir : Z * Series) (v : value) :
  truthy v = false →
  (truthy (VInt 0) = false ∧ truthy (VFloat (Prim2SF 0)) = false) ∧
  (∀ col st, col_map !! u "user_id" = Some col →
     (series_get ir.2 col VNone = v ∨
      pd_isna (series_get ir.2 col VNone) = true ∨
      series_get ir.2 col VNone = VStr []) →
     creator_row col_map now_ms st ir = Ok st) ∧
  (∀ col cols objs, col_map !! u "user_id" = Some col →
     series_get ir.2 col VNone = v →
     match note_id_of col_map ir.1 ir.2 with
     | None => note_row cols col_map now_ms objs ir = Ok objs
     | Some note_id =>
         (∃ o, note_row cols col_map now_ms objs ir = Ok (objs ++ [o]) ∧
               XhsNote.note_id o = py_str note_id ∧
               XhsNote.user_id o = u "unknown") ∨
         (note_row cols col_map now_ms objs ir = Raise OverflowError ∧
          ∃ field,
            field ∈ [u "time"; u "liked_count"; u "collected_count";
                     u "comment_count"; u "share_count"] ∧
            reads_as_infinity (_get ir.2 col_map field VNone) = true)
     end) ∧
  (∀ field col objs, field = u "comment_id" ∨ field = u "note_id" →
     col_map !! field = Some col →
     series_get ir.2 col VNone = v →
     comment_row col_map now_ms objs ir = Ok objs).
Proof.
  intros Hv. split; [done|]. split; [|split].
  - intros col [objs seen] Hc Hcell. unfold creator_row.
    assert (truthy (_get ir.2 col_map (u "user_id") VNone) = false) as ->; [|done].
    destruct Hcell as [Hcell|Hempty].
    + apply (get_falsy _ col_map _ col Hc). by rewrite Hcell.
    + by apply (get_empty _ col_map _ col).
  - intros col cols objs Hc Hcell. destruct ir as [idx row]. cbn [fst snd] in *.
    destruct (note_id_of col_map idx row) as [note_id|] eqn:Hid.
    + destruct (note_row_outcome cols col_map now_ms objs idx row note_id Hid)
        as [(o & Hrow & Ho & Hu)|Hraise]; [left|right; exact Hraise].
      exists o. split; [done|]. split; [done|]. rewrite Hu.
      rewrite (get_falsy row col_map _ col Hc); [done|]. by rewrite Hcell.
    + unfold note_row. by rewrite Hid.
  - intros field col objs Hfield Hc Hcell. apply comment_row_skip.
    destruct Hfield as [-> | ->]; [left|right];
      apply (get_falsy _ col_map _ col Hc); by rewrite Hcell.
Qed.

Lemma falsy_identity_cells_witness :
  @creator_row (fun _ => []) (fun _ => [])
    (@_build_col_map ascii_lower [u "user_id"; u "nickname"] CREATOR_ALIASES) 0 ([], ∅)
    (0, [(u "user_id", VInt 0); (u "nickname", VStr (u "A"))])
  = Ok ([], ∅) ∧
  (∃ o, @note_row (fun _ => []) (fun _ => []) (fun _ => None)
          [u "note_id"; u "user_id"]
          (@_build_col_map ascii_lower [u "note_id"; u "user_id"] NOTE_ALIASES) 0 []
          (0, [(u "note_id", VStr (u "n1")); (u "user_id", VInt 0)])
        = Ok ([] ++ [o]) ∧
        XhsNote.note_id o = u "n1" ∧ XhsNote.user_id o = u "unknown") ∧
  @comment_row (fun _ => []) (fun _ => []) (fun _ => None)
    (@_build_col_map ascii_lower [u "comment_id"; u "note_id"] COMMENT_ALIASES) 0 []
    (0, [(u "comment_id", VStr (u "c1")); (u "note_id", VInt 0)])
  = Ok [].
Proof.
  split; [|split].
  - refine (proj1 (proj2 (falsy_identity_cells (fun _ => []) (fun _ => [])
      (fun _ => None) _ 0 _ (VInt 0) _)) (u "user_id") _ _ _).
    + reflexivity.
    + by vm_compute.
    + left. by vm_compute.
  - pose proof (proj1 (proj2 (proj2 (falsy_identity_cells (fun _ => []) (fun _ => [])
      (fun _ => None)
      (@_build_col_map ascii_lower [u "note_id"; u "user_id"] NOTE_ALIASES) 0
      (0, [(u "note_id", VStr (u "n1")); (u "user_id", VInt 0)]) (VInt 0) eq_refl)))
      (u "user_id") [u "note_id"; u "user_id"] []) as Hnote.
    assert (note_id_of
              (@_build_col_map ascii_lower [u "note_id"; u "user_id"] NOTE_ALIASES) 0
              [(u "note_id", VStr (u "n1")); (u "user_id", VInt 0)]
            = Some (VStr (u "n1"))) as Hid by by vm_compute.
    simpl fst in Hnote. simpl snd in Hnote. rewrite Hid in Hnote.
    destruct Hnote as [(o & Hrow & Ho & Hu)|[Hraise _]].
    + by vm_compute.
    + by vm_compute.
    + by exists o.
    + by vm_compute in Hraise.
  - refine (proj2 (proj2 (proj2 (falsy_identity_cells (fun _ => []) (fun _ => [])
      (fun _ => None) _ 0 _ (VInt 0) _))) (u "note_id") (u "note_id") _ _ _ _).
    + reflexivity.
    + by right.
    + by vm_compute.
    + by vm_compute.
Defined.

Lemma to_ts_ms_default_Some `{!ToDatetimeMs} (v : value) (n : Z) (r : option Z) :
  _to_ts_ms v (Some n) = Ok r → is_Some r.
Proof.
  rewrite to_ts_ms_cases. destruct (_to_int v None) as [[k|]|]; [| |done].
  - intros [= <-]. eauto.
  - destruct (is_none v); [intros [= <-]; eauto|].
    intros [= <-]. apply parsed_ms_default_Some.
Qed.

Lemma app_singleton_neq {A : Type} (l : list A) (x : A) : l ≠ l ++ [x].
Proof.
  intros Heq. apply (f_equal length) in Heq. rewrite length_app in Heq.
  simpl in Heq. lia.
Qed.

(** X8. The records carry no null where a number is stored: in every record
    that a loop body appends, the count fields are the decimal numerals of
    integers, the time of a note and the creation time of a comment are
    integers, and the time stamps of the record are the start time of the
    run. *)
Theorem record_numbers_never_null (FR : FloatRepr) (DS : DatetimeStr)
    (T : ToDatetimeMs) (col_map : gmap pystr pystr) (now_ms : Z) (ir : Z * Series) :
  (∀ objs seen seen' o,
     creator_row col_map now_ms (objs, seen) ir = Ok (objs ++ [o], seen') →
     (∃ a b c, XhsCreator.follows o = str_of_int a ∧
               XhsCreator.fans o = str_of_int b ∧
               XhsCreator.interaction o = str_of_int c) ∧
     XhsCreator.add_ts o = now_ms ∧ XhsCreator.last_modify_ts o = now_ms) ∧
  (∀ cols objs o,
     note_row cols col_map now_ms objs ir = Ok (objs ++ [o]) →
     (∃ t a b c e, XhsNote.time o = Some t ∧
                   XhsNote.liked_count o = str_of_int a ∧
                   XhsNote.collected_count o = str_of_int b ∧
                   XhsNote.comment_count o = str_of_int c ∧
                   XhsNote.share_count o = str_of_int e) ∧
     XhsNote.add_ts o = now_ms ∧ XhsNote.last_modify_ts o = now_ms ∧
     XhsNote.last_update_time o = now_ms) ∧
  (∀ objs o,
     comment_row col_map now_ms objs ir = Ok (objs ++ [o]) →
     (∃ t a, XhsNoteComment.create_time o = Some t ∧
             XhsNoteComment.like_count o = str_of_int a) ∧
     XhsNoteComment.add_ts o = now_ms ∧ XhsNoteComment.last_modify_ts o = now_ms).
Proof.
  split; [|split].
  - intros objs seen seen' o. unfold creator_row.
    destruct (negb (truthy _)).
    { intros [= Heq _]. by apply app_singleton_neq in Heq. }
    case_bool_decide.
    { intros [= Heq _]. by apply app_singleton_neq in Heq. }
    destruct (_to_int (_get ir.2 col_map (u "follows") VNone) _) as [a|] eqn:Ha; [|done].
    destruct (_to_int (_get ir.2 col_map (u "fans") VNone) _) as [b|] eqn:Hb; [|done].
    destruct (_to_int (_get ir.2 col_map (u "interaction") VNone) _) as [c|] eqn:Hc; [|done].
    simpl. intros [= Heq _]. apply app_inj_tail in Heq as [_ <-]. simpl.
    apply to_int_default_Some in Ha as [a' ->].
    apply to_int_default_Some in Hb as [b' ->].
    apply to_int_default_Some in Hc as [c' ->].
    split; [|done]. by exists a', b', c'.
  - intros cols objs o. destruct ir as [idx row]. unfold note_row.
    destruct (note_id_of col_map idx row) as [note_id|].
    2:{ intros [= Heq]. by apply app_singleton_neq in Heq. }
    destruct (_to_ts_ms _ _) as [t|] eqn:Ht; [|done]. simpl.
    destruct (_to_int (_get row col_map (u "liked_count") VNone) _) as [a|] eqn:Ha;
      [|done]. simpl.
    destruct (_to_int (_get row col_map (u "collected_count") VNone) _) as [b|] eqn:Hb;
      [|done]. simpl.
    destruct (_to_int (_get row col_map (u "comment_count") VNone) _) as [c|] eqn:Hc;
      [|done]. simpl.
    destruct (_to_int (_get row col_map (u "share_count") VNone) _) as [e|] eqn:He;
      [|done]. simpl.
    intros [= Heq]. apply app_inj_tail in Heq as [_ <-]. simpl.
    apply to_ts_ms_default_Some in Ht as [t' ->].
    apply to_int_default_Some in Ha as [a' ->].
    apply to_int_default_Some in Hb as [b' ->].
    apply to_int_default_Some in Hc as [c' ->].
    apply to_int_default_Some in He as [e' ->].
    split; [|done]. by exists t', a', b', c', e'.
  - intros objs o. unfold comment_row.
    destruct (negb (truthy _) || negb (truthy _)).
    { intros [= Heq]. by apply app_singleton_neq in Heq. }
    destruct (_to_ts_ms _ _) as [t|] eqn:Ht; [|done]. simpl.
    destruct (_to_int (_get ir.2 col_map (u "sub_comment_count") VNone) _) as [a|];
      [|done]. simpl.
    destruct (_to_int (_get ir.2 col_map (u "like_count") VNone) _) as [b|] eqn:Hb;
      [|done]. simpl.
    intros [= Heq]. apply app_inj_tail in Heq as [_ <-]. simpl.
    apply to_ts_ms_default_Some in Ht as [t' ->].
    apply to_int_default_Some in Hb as [b' ->].
    split; [|done]. by exists t', b'.
Qed.

Lemma record_numbers_never_null_witness :
  ∃ o, @comment_row (fun _ => []) (fun _ => []) (fun _ => None)
         (@_build_col_map ascii_lower (columns sheet_comments) COMMENT_ALIASES) 7 []
         (0, zip (columns sheet_comments) [VStr (u "c1"); VStr (u "n1"); VStr (u "hi")])
       = Ok ([] ++ [o]) ∧
       XhsNoteComment.create_time o = Some 7 ∧ XhsNoteComment.add_ts o = 7.
Proof.
  eexists. split; [by vm_compute|].
  match goal with
  | |- XhsNoteComment.create_time ?o = _ ∧ _ =>
      destruct (proj2 (proj2 (record_numbers_never_null (fun _ => []) (fun _ => [])
        (fun _ => None)
        (@_build_col_map ascii_lower (columns sheet_comments) COMMENT_ALIASES) 7
        (0, zip (columns sheet_comments) [VStr (u "c1"); VStr (u "n1"); VStr (u "hi")])))
        [] o) as ((t & a & Ht & _) & Hadd & _); [by vm_compute|]
  end.
  split; [by vm_compute|exact Hadd].
Defined.

(** ** The order of the creators *)

(** X9. The creator records come in the order in which their user ids
    first appear among the rows: the user ids of the batch are the user ids
    of the rows with every repetition after the first left out. *)
Theorem creators_in_first_occurrence_order (FR : FloatRepr) (DS : DatetimeStr)
    (col_map : gmap pystr pystr) (now_ms : Z) (rows : list (Z * Series))
    (objs : list XhsCreator.t) (seen : gset pystr) :
  for_rows (creator_row col_map now_ms) ([], ∅) rows = Ok (objs, seen) →
  XhsCreator.user_id <$> objs
  = reverse (remove_dups (reverse (user_id_texts col_map rows))).
Proof.
  revert objs seen. induction rows as [|r rows IH] using rev_ind; intros objs seen.
  - simpl. by intros [= <- <-].
  - intros Hrun. apply for_rows_snoc_Ok in Hrun as ([objs1 seen1] & Hrun & Hbody).
    pose proof (IH _ _ Hrun) as Hids.
    destruct (creator_loop_invariant col_map now_ms rows objs1 seen1 Hrun)
      as (Hseen & _).
    assert (Hkeys : ∀ k, k ∈ seen1 ↔ k ∈ reverse (user_id_texts col_map rows)).
    { intros k. rewrite Hseen, Hids, !elem_of_reverse, elem_of_remove_dups.
      by rewrite elem_of_reverse. }
    unfold user_id_texts in *. rewrite omap_app. simpl.
    eapply creator_row_inv in Hbody as
      [(Hskip & -> & ->)|(Ht & Hnew & o & -> & -> & Hkey & _)]; [| |done..].
    + destruct (truthy (_get r.2 col_map (u "user_id") VNone)) eqn:Ht.
      * destruct Hskip as [Hf|Hin]; [done|].
        rewrite reverse_app. simpl.
        destruct (decide_rel _ _ _) as [Hd|Hd]; [done|].
        destruct Hd. by apply Hkeys.
      * by rewrite app_nil_r.
    + rewrite Ht, reverse_app. simpl.
      destruct (decide_rel _ _ _) as [Hd|Hd]; [destruct Hnew; by apply Hkeys|].
      rewrite reverse_cons, fmap_app. simpl. by rewrite Hids, Hkey.
Qed.

Lemma creators_in_first_occurrence_order_witness :
  ∃ objs seen,
    @for_rows _ _ (@creator_row (fun _ => []) (fun _ => [])
       (@_build_col_map ascii_lower [u "user_id"] CREATOR_ALIASES) 0) ([], ∅)
       [(0, [(u "user_id", VStr (u "b"))]); (1, [(u "user_id", VStr (u "a"))]);
        (2, [(u "user_id", VStr (u "b"))])] = Ok (objs, seen) ∧
    XhsCreator.user_id <$> objs = [u "b"; u "a"].
Proof.
  do 2 eexists. split; [by vm_compute|].
  match goal with
  | |- XhsCreator.user_id <$> ?objs = _ =>
      rewrite (creators_in_first_occurrence_order (fun _ => []) (fun _ => [])
        (@_build_col_map ascii_lower [u "user_id"] CREATOR_ALIASES) 0
        [(0, [(u "user_id", VStr (u "b"))]); (1, [(u "user_id", VStr (u "a"))]);
         (2, [(u "user_id", VStr (u "b"))])] objs
        ({[u "b"]} ∪ {[u "a"]}))
  end.
  - by vm_compute.
  - by vm_compute.
Defined.

(** ** Loops that only append *)

(** A loop whose body appends to the list it is given what the body gives
    on the empty list collects, in order, what each row gives alone. *)
Lemma for_rows_append_only {O R : Type} (body : list O → R → result (list O))
    (rows : list R) (acc objs : list O) :
  (∀ acc r, body acc r = (acc ++.) <$> body [] r) →
  for_rows body acc rows = Ok objs →
  ∃ parts, Forall2 (fun r part => body [] r = Ok part) rows parts ∧
           objs = acc ++ concat parts.
Proof.
  intros Hbody. revert acc. induction rows as [|r rows IH]; intros acc; simpl.
  - intros [= <-]. exists []. split; [constructor|]. by rewrite app_nil_r.
  - rewrite Hbody. destruct (body [] r) as [part|] eqn:Hr; [|done]. simpl.
    intros Hrun. destruct (IH _ Hrun) as (parts & Hparts & ->).
    exists (part :: parts). split; [by constructor|]. simpl. by rewrite app_assoc.
Qed.

Lemma note_row_append_only `{!FloatRepr, !DatetimeStr, !ToDatetimeMs}
    (cols : list pystr) (col_map : gmap pystr pystr) (now_ms : Z)
    (acc : list XhsNote.t) (ir : Z * Series) :
  note_row cols col_map now_ms acc ir = (acc ++.) <$> note_row cols col_map now_ms [] ir.
Proof.
  destruct ir as [idx row]. unfold note_row.
  destruct (note_id_of col_map idx row); [|simpl; by rewrite app_nil_r].
  destruct (_to_ts_ms _ _); [|done]. simpl.
  destruct (_to_int (_get row col_map (u "liked_count") VNone) _); [|done]. simpl.
  destruct (_to_int (_get row col_map (u "collected_count") VNone) _); [|done]. simpl.
  destruct (_to_int (_get row col_map (u "comment_count") VNone) _); [|done]. simpl.
  by destruct (_to_int (_get row col_map (u "share_count") VNone) _).
Qed.

Lemma comment_row_append_only `{!FloatRepr, !DatetimeStr, !ToDatetimeMs}
    (col_map : gmap pystr pystr) (now_ms : Z)
    (acc : list XhsNoteComment.t) (ir : Z * Series) :
  comment_row col_map now_ms acc ir = (acc ++.) <$> comment_row col_map now_ms [] ir.
Proof.
  unfold comment_row.
  destruct (negb (truthy _) || negb (truthy _)); [simpl; by rewrite app_nil_r|].
  destruct (_to_ts_ms _ _); [|done]. simpl.
  destruct (_to_int (_get ir.2 col_map (u "sub_comment_count") VNone) _); [|done]. simpl.
  by destruct (_to_int (_get ir.2 col_map (u "like_count") VNone) _).
Qed.

(** X10. The note loop removes no duplicate and keeps the order of the
    rows: the objects it collects are, row after row, what each row gives
    alone, which is nothing for a row without note_id and one record with
    the note_id of the row otherwise, whatever the rows before it. *)
Theorem notes_one_per_kept_row (FR : FloatRepr) (DS : DatetimeStr)
    (T : ToDatetimeMs) (cols : list pystr) (col_map : gmap pystr pystr)
    (now_ms : Z) (rows : list (Z * Series)) (objs : list XhsNote.t) :
  for_rows (note_row cols col_map now_ms) [] rows = Ok objs →
  ∃ parts,
    objs = concat parts ∧
    Forall2 (fun (ir : Z * Series) part =>
               note_row cols col_map now_ms [] ir = Ok part ∧
               match note_id_of col_map ir.1 ir.2 with
               | None => part = []
               | Some note_id => ∃ o, part = [o] ∧ XhsNote.note_id o = py_str note_id
               end) rows parts.
Proof.
  intros Hrun.
  apply for_rows_append_only in Hrun as (parts & Hparts & ->);
    [|apply note_row_append_only].
  exists parts. split; [done|].
  eapply Forall2_impl; [exact Hparts|]. intros [idx row] part Hrow. split; [done|].
  apply note_row_inv in Hrow. simpl.
  destruct (note_id_of col_map idx row); [|done].
  destruct Hrow as (o & -> & Hid & _). by exists o.
Qed.

Lemma notes_one_per_kept_row_witness :
  ∃ a b, @for_rows _ _ (@note_row (fun _ => []) (fun _ => []) (fun _ => None)
           [u "笔记id"] (@_build_col_map ascii_lower [u "笔记id"] NOTE_ALIASES) 0) []
           [(0, [(u "笔记id", VStr (u "n1"))]); (1, [(u "笔记id", VStr (u "n1"))])]
         = Ok (concat [[a]; [b]]) ∧
         XhsNote.note_id a = u "n1" ∧ XhsNote.note_id b = u "n1".
Proof.
  do 2 eexists. split; [by vm_compute|].
  match goal with
  | |- XhsNote.note_id ?a = _ ∧ XhsNote.note_id ?b = _ =>
      destruct (notes_one_per_kept_row (fun _ => []) (fun _ => []) (fun _ => None)
        [u "笔记id"] (@_build_col_map ascii_lower [u "笔记id"] NOTE_ALIASES) 0
        [(0, [(u "笔记id", VStr (u "n1"))]); (1, [(u "笔记id", VStr (u "n1"))])]
        [a; b]) as (parts & _ & _); [by vm_compute|]
  end.
  split; by vm_compute.
Defined.

(** X12. The comment loop removes no duplicate either: the objects it
    collects are, row after row, what each row gives alone, nothing for a row
    with an empty comment_id or note_id and one record with the two ids of
    the row otherwise. *)
Theorem comments_one_per_kept_row (FR : FloatRepr) (DS : DatetimeStr)
    (T : ToDatetimeMs) (col_map : gmap pystr pystr) (now_ms : Z)
    (rows : list (Z * Series)) (objs : list XhsNoteComment.t) :
  for_rows (comment_row col_map now_ms) [] rows = Ok objs →
  ∃ parts,
    objs = concat parts ∧
    Forall2 (fun (ir : Z * Series) part =>
               comment_row col_map now_ms [] ir = Ok part ∧
               if truthy (_get ir.2 col_map (u "comment_id") VNone) &&
                  truthy (_get ir.2 col_map (u "note_id") VNone)
               then ∃ o, part = [o] ∧
                         XhsNoteComment.comment_id o
                           = py_str (_get ir.2 col_map (u "comment_id") VNone) ∧
                         XhsNoteComment.note_id o
                           = py_str (_get ir.2 col_map (u "note_id") VNone)
               else part = []) rows parts.
Proof.
  intros Hrun.
  apply for_rows_append_only in Hrun as (parts & Hparts & ->);
    [|apply comment_row_append_only].
  exists parts. split; [done|].
  eapply Forall2_impl; [exact Hparts|]. intros ir part Hrow. cbv beta in Hrow.
  split; [done|].
  destruct (truthy (_get ir.2 col_map (u "comment_id") VNone)) eqn:Hc;
    destruct (truthy (_get ir.2 col_map (u "note_id") VNone)) eqn:Hn; simpl.
  - apply comment_row_inv in Hrow as (o & -> & ? & ?); [|done..]. by exists o.
  - rewrite comment_row_skip in Hrow by (by right). by injection Hrow as <-.
  - rewrite comment_row_skip in Hrow by (by left). by injection Hrow as <-.
  - rewrite comment_row_skip in Hrow by (by left). by injection Hrow as <-.
Qed.

Lemma comments_one_per_kept_row_witness :
  ∃ a b,
    @for_rows _ _
      (@comment_row (fun _ => []) (fun _ => []) (fun _ => None)
         (@_build_col_map ascii_lower [u "comment_id"; u "note_id"] COMMENT_ALIASES) 0) []
      [(0, [(u "comment_id", VStr (u "c1")); (u "note_id", VStr (u "n1"))]);
       (1, [(u "comment_id", VFloat S754_nan); (u "note_id", VStr (u "n1"))]);
       (2, [(u "comment_id", VStr (u "c1")); (u "note_id", VStr (u "n1"))])]
    = Ok [a; b] ∧
    XhsNoteComment.comment_id a = u "c1" ∧ XhsNoteComment.comment_id b = u "c1" ∧
    ∃ parts,
      [a; b] = concat parts ∧
      Forall2 (fun (ir : Z * Series) part =>
                 @comment_row (fun _ => []) (fun _ => []) (fun _ => None)
                   (@_build_col_map ascii_lower [u "comment_id"; u "note_id"]
                      COMMENT_ALIASES) 0 [] ir = Ok part ∧
                 if truthy (_get ir.2
                              (@_build_col_map ascii_lower [u "comment_id"; u "note_id"]
                                 COMMENT_ALIASES) (u "comment_id") VNone) &&
                    truthy (_get ir.2
                              (@_build_col_map ascii_lower [u "comment_id"; u "note_id"]
                                 COMMENT_ALIASES) (u "note_id") VNone)
                 then ∃ o, part = [o] ∧
                           XhsNoteComment.comment_id o
                             = @py_str (fun _ => []) (fun _ => [])
                                 (_get ir.2
                                    (@_build_col_map ascii_lower
                                       [u "comment_id"; u "note_id"] COMMENT_ALIASES)
                                    (u "comment_id") VNone) ∧
                           XhsNoteComment.note_id o
                             = @py_str (fun _ => []) (fun _ => [])
                                 (_get ir.2
                                    (@_build_col_map ascii_lower
                                       [u "comment_id"; u "note_id"] COMMENT_ALIASES)
                                    (u "note_id") VNone)
                 else part = [])
        [(0, [(u "comment_id", VStr (u "c1")); (u "note_id", VStr (u "n1"))]);
         (1, [(u "comment_id", VFloat S754_nan); (u "note_id", VStr (u "n1"))]);
         (2, [(u "comment_id", VStr (u "c1")); (u "note_id", VStr (u "n1"))])]
        parts.
Proof.
  do 2 eexists. split; [by vm_compute|]. split; [by vm_compute|].
  split; [by vm_compute|].
  apply (comments_one_per_kept_row (fun _ => []) (fun _ => []) (fun _ => None)).
  by vm_compute.
Defined.

(** ** The synthesized note ids *)

Lemma bytes_of_string_inj (s t : string) :
  bytes_of_string s = bytes_of_string t → s = t.
Proof.
  unfold bytes_of_string. revert t.
  induction s as [|a s IH]; intros [|b t]; simpl; try done.
  intros [= Hab Hst]. f_equal; [|by apply IH].
  apply N2Z.inj in Hab. rewrite <- (ascii_N_embedding a), <- (ascii_N_embedding b).
  by rewrite Hab.
Qed.

(** The decimal numerals of two integers differ when the integers do. *)
Lemma str_of_int_inj (a b : Z) : str_of_int a = str_of_int b → a = b.
Proof.
  unfold str_of_int. intros Heq. apply bytes_of_string_inj in Heq.
  apply DecimalZ.to_int_inj.
  assert (Hnn : ∀ n : Z, Z.to_int n ≠ Decimal.Pos Decimal.Nil ∧
                         Z.to_int n ≠ Decimal.Neg Decimal.Nil).
  { intros [|p|p]; simpl; split; try done; intros [= Hp];
      by apply DecimalPos.Unsigned.to_uint_nonnil in Hp. }
  destruct (Hnn a) as [Ha1 Ha2]. destruct (Hnn b) as [Hb1 Hb2].
  pose proof (NilZero.isi _ Ha1 Ha2) as Hia.
  pose proof (NilZero.isi _ Hb1 Hb2) as Hib.
  rewrite Heq in Hia. rewrite Hia in Hib. by injection Hib.
Qed.

(** X11. In a sheet without a column for the note id, the note ids that
    the loop makes up are pairwise distinct. *)
Theorem synthesized_note_ids_distinct (L : StrLower) (FR : FloatRepr)
    (DS : DatetimeStr) (T : ToDatetimeMs) (df : DataFrame) (now_ms : Z)
    (objs : list XhsNote.t) :
  _build_col_map (columns df) NOTE_ALIASES !! u "note_id" = None →
  note_objs df now_ms = Ok objs →
  NoDup (XhsNote.note_id <$> objs).
Proof.
  intros Hc Hrun. unfold note_objs in Hrun.
  eapply note_loop_synthesized in Hrun as [_ Hids]; [|done|apply iterrows_index].
  apply NoDup_alt. intros i j x Hi Hj.
  rewrite list_lookup_fmap in Hi. rewrite list_lookup_fmap in Hj.
  destruct (objs !! i) as [oi|] eqn:Hoi; [|done].
  destruct (objs !! j) as [oj|] eqn:Hoj; [|done].
  simpl in Hi, Hj. injection Hi as Hi. injection Hj as Hj.
  rewrite (Hids i oi Hoi) in Hi. rewrite (Hids j oj Hoj) in Hj.
  rewrite <- Hj in Hi. apply app_inv_head in Hi. apply str_of_int_inj in Hi. lia.
Qed.

Lemma synthesized_note_ids_distinct_witness :
  ∃ objs, @note_objs ascii_lower (fun _ => []) (fun _ => []) (fun _ => None)
            sheet_notes_no_id 0 = Ok objs ∧
          NoDup (XhsNote.note_id <$> objs).
Proof.
  eexists. split; [by vm_compute|].
  apply (synthesized_note_ids_distinct ascii_lower (fun _ => []) (fun _ => [])
    (fun _ => None) sheet_notes_no_id 0); by vm_compute.
Defined.

(** ** The batches of a run *)

Section Batches.
Context `{!StrLower, !FloatRepr, !DatetimeStr, !ToDatetimeMs}.

Lemma import_creators_shape (d : option DataFrame) (now_ms : Z) (bs : list batch) :
  import_creators d now_ms = Ok bs →
  (bs = [] ∨ ∃ objs, objs ≠ [] ∧ bs = [Creators objs]) ∧
  (d = None → bs = []) ∧ (∀ df, d = Some df → df_empty df = true → bs = []).
Proof.
  unfold import_creators. destruct d as [df|]; [|intros [= <-]; by eauto].
  destruct (df_empty df) eqn:He; [intros [= <-]; by eauto|].
  case_bool_decide; [intros [= <-]; split; [by left|]; split; [done|];
                     by intros ? [= <-]|].
  destruct (for_rows _ _ _) as [[objs seen]|]; simpl; [|done].
  intros [= <-]. split; [|split; [done|intros ? [= <-]; congruence]].
  case_bool_decide; [by left|]. right. by exists objs.
Qed.

Lemma import_notes_shape (d : option DataFrame) (now_ms : Z) (bs : list batch) :
  import_notes d now_ms = Ok bs →
  (bs = [] ∨ ∃ objs, objs ≠ [] ∧ bs = [Notes objs]) ∧
  (d = None → bs = []) ∧ (∀ df, d = Some df → df_empty df = true → bs = []).
Proof.
  unfold import_notes. destruct d as [df|]; [|intros [= <-]; by eauto].
  destruct (df_empty df) eqn:He; [intros [= <-]; by eauto|].
  destruct (note_objs df now_ms) as [objs|]; simpl; [|done].
  intros [= <-]. split; [|split; [done|intros ? [= <-]; congruence]].
  case_bool_decide; [by left|]. right. by exists objs.
Qed.

Lemma import_comments_shape (d : option DataFrame) (now_ms : Z) (bs : list batch) :
  import_comments d now_ms = Ok bs →
  (bs = [] ∨ ∃ objs, objs ≠ [] ∧ bs = [Comments objs]) ∧
  (d = None → bs = []) ∧ (∀ df, d = Some df → df_empty df = true → bs = []).
Proof.
  unfold import_comments. destruct d as [df|]; [|intros [= <-]; by eauto].
  destruct (df_empty df) eqn:He; [intros [= <-]; by eauto|].
  destruct (comment_objs df now_ms) as [[objs|]|]; simpl; [| |done].
  - intros [= <-]. split; [|split; [done|intros ? [= <-]; congruence]].
    case_bool_decide; [by left|]. right. by exists objs.
  - intros [= <-]. split; [by left|]. split; [done|]. by intros ? [= <-].
Qed.

Lemma import_frames_parts (dn dc dm : option DataFrame) (now_ms : Z) (bs : list batch) :
  import_frames dn dc dm now_ms = Ok bs →
  ∃ c n m, import_creators dc now_ms = Ok c ∧ import_notes dn now_ms = Ok n ∧
           import_comments dm now_ms = Ok m ∧ bs = c ++ n ++ m.
Proof.
  unfold import_frames.
  destruct (import_creators dc now_ms) as [c|]; simpl; [|done].
  destruct (import_notes dn now_ms) as [n|]; simpl; [|done].
  destruct (import_comments dm now_ms) as [m|]; simpl; [|done].
  intros [= <-]. by exists c, n, m.
Qed.

End Batches.

(** X13. A run hands the session at most three batches, the creators
    first, the notes next and the comments last, and never an empty one; a
    sheet that is absent or empty gives no batch. *)
Theorem batches_in_order_and_nonempty (L : StrLower) (FR : FloatRepr)
    (DS : DatetimeStr) (T : ToDatetimeMs) (dn dc dm : option DataFrame)
    (now_ms : Z) (bs : list batch) :
  import_frames dn dc dm now_ms = Ok bs →
  ∃ c n m, bs = c ++ n ++ m ∧
    (c = [] ∨ ∃ objs, objs ≠ [] ∧ c = [Creators objs]) ∧
    (n = [] ∨ ∃ objs, objs ≠ [] ∧ n = [Notes objs]) ∧
    (m = [] ∨ ∃ objs, objs ≠ [] ∧ m = [Comments objs]) ∧
    ((dc = None ∨ ∃ df, dc = Some df ∧ df_empty df = true) → c = []) ∧
    ((dn = None ∨ ∃ df, dn = Some df ∧ df_empty df = true) → n = []) ∧
    ((dm = None ∨ ∃ df, dm = Some df ∧ df_empty df = true) → m = []).
Proof.
  intros Hrun. apply import_frames_parts in Hrun as (c & n & m & Hc & Hn & Hm & ->).
  apply import_creators_shape in Hc as (Hc & Hc0 & Hce).
  apply import_notes_shape in Hn as (Hn & Hn0 & Hne).
  apply import_comments_shape in Hm as (Hm & Hm0 & Hme).
  exists c, n, m. repeat split; try done.
  - intros [?|(df & ? & ?)]; [by apply Hc0|by apply (Hce df)].
  - intros [?|(df & ? & ?)]; [by apply Hn0|by apply (Hne df)].
  - intros [?|(df & ? & ?)]; [by apply Hm0|by apply (Hme df)].
Qed.

Lemma batches_in_order_and_nonempty_witness :
  ∃ bs c n m,
    @import_frames ascii_lower (fun _ => []) (fun _ => []) (fun _ => None)
      (Some sheet_notes_no_id) (Some sheet_creators_u1) None 0 = Ok bs ∧
    bs = c ++ n ++ m ∧ m = [].
Proof.
  eexists. 
  assert (Hrun : ∀ bs r, r = Ok bs →
    r = @import_frames ascii_lower (fun _ => []) (fun _ => []) (fun _ => None)
          (Some sheet_notes_no_id) (Some sheet_creators_u1) None 0 →
    ∃ c n m, bs = c ++ n ++ m ∧ m = []).
  { intros bs r -> Hr. symmetry in Hr.
    destruct (batches_in_order_and_nonempty ascii_lower (fun _ => []) (fun _ => [])
      (fun _ => None) (Some sheet_notes_no_id) (Some sheet_creators_u1) None 0 bs Hr)
      as (c & n & m & Hbs & _ & _ & _ & _ & _ & Hm).
    exists c, n, m. split; [done|]. apply Hm. by left. }
  match goal with
  | |- ∃ c n m, ?r = Ok ?bs ∧ _ =>
      assert (Hr : r = Ok bs) by (vm_compute; reflexivity);
      destruct (Hrun _ _ eq_refl (eq_sym Hr)) as (c & n & m & Hbs & Hm);
      exists c, n, m; by repeat split
  end.
Defined.

(** ** A workbook with one sheet *)

(** The creator and the note schema give user_id the same aliases, so the
    two column maps of one sheet send user_id to the same column. *)
Lemma user_id_column_shared `{!StrLower} (cols : list pystr) :
  _build_col_map cols NOTE_ALIASES !! u "user_id"
  = _build_col_map cols CREATOR_ALIASES !! u "user_id".
Proof.
  destruct alias_tables_NoDup as (Hn & Hc & _).
  rewrite (build_col_map_lookup cols NOTE_ALIASES (u "user_id")
             [u "user_id"; u "账号小红书号"; u "作者ID"] Hn) by compute_done.
  by rewrite (build_col_map_lookup cols CREATOR_ALIASES (u "user_id")
             [u "user_id"; u "账号小红书号"; u "作者ID"] Hc) by compute_done.
Qed.

Lemma get_ext (row : Series) (col_map col_map' : gmap pystr pystr)
    (field : pystr) (default : value) :
  col_map !! field = col_map' !! field →
  _get row col_map field default = _get row col_map' field default.
Proof. intros Heq. unfold _get. by rewrite Heq. Qed.

(** Without a column for the note id the loop gives one object for each row,
    in order, with the user id of the row or the placeholder. *)
Lemma note_loop_unresolved_rows `{!FloatRepr, !DatetimeStr, !ToDatetimeMs}
    (cols : list pystr) (col_map : gmap pystr pystr) (now_ms : Z)
    (rows : list (Z * Series)) (objs : list XhsNote.t) :
  col_map !! u "note_id" = None →
  for_rows (note_row cols col_map now_ms) [] rows = Ok objs →
  Forall2 (fun (ir : Z * Series) o =>
             XhsNote.user_id o =
               if truthy (_get ir.2 col_map (u "user_id") VNone)
               then py_str (_get ir.2 col_map (u "user_id") VNone)
               else u "unknown") rows objs.
Proof.
  intros Hc. revert objs. induction rows as [|[idx row] rows IH] using rev_ind;
    intros objs.
  - simpl. intros [= <-]. constructor.
  - intros Hrun. apply for_rows_snoc_Ok in Hrun as (objs1 & Hrun & Hbody).
    apply note_row_inv in Hbody. rewrite note_id_of_unresolved in Hbody by done.
    destruct Hbody as (o & -> & _ & Huid & _).
    apply Forall2_app; [by apply IH|]. by repeat constructor.
Qed.

(** X14. A workbook with one sheet gives no comment batch; and when this
    sheet has no column for the note id, every creator of the creator batch
    has a note in the note batch that carries its user id. *)
Theorem single_sheet_creators_have_notes (L : StrLower) (FR : FloatRepr)
    (DS : DatetimeStr) (T : ToDatetimeMs) (name : pystr) (df : DataFrame)
    (notes_sheet creators_sheet comments_sheet : pystr) (now_ms : Z)
    (bs : list batch) :
  import_from_excel [(name, df)] notes_sheet creators_sheet comments_sheet now_ms
    = Ok bs →
  (∀ objs, Comments objs ∉ bs) ∧
  (_build_col_map (columns df) NOTE_ALIASES !! u "note_id" = None →
   ∀ cobjs c, Creators cobjs ∈ bs → c ∈ cobjs →
     ∃ nobjs n, Notes nobjs ∈ bs ∧ n ∈ nobjs ∧
                XhsNote.user_id n = XhsCreator.user_id c).
Proof.
  intros Hrun. change (import_frames (Some df) (Some df) None now_ms = Ok bs) in Hrun.
  apply import_frames_parts in Hrun as (c & n & m & Hc & Hn & Hm & ->).
  injection Hm as <-. rewrite app_nil_r.
  destruct (import_creators_shape _ _ _ Hc) as (Hcs & _ & Hce).
  destruct (import_notes_shape _ _ _ Hn) as (Hns & _ & _).
  split.
  - intros objs Hin. apply elem_of_app in Hin as [Hin|Hin].
    + destruct Hcs as [->|(o & _ & ->)]; [by apply elem_of_nil in Hin|].
      by apply list_elem_of_singleton in Hin.
    + destruct Hns as [->|(o & _ & ->)]; [by apply elem_of_nil in Hin|].
      by apply list_elem_of_singleton in Hin.
  - intros Hnoid cobjs c0 Hin Hc0.
    assert (Hc' : c = [Creators cobjs]).
    { apply elem_of_app in Hin as [Hin|Hin].
      - destruct Hcs as [->|(o & _ & ->)]; [by apply elem_of_nil in Hin|].
        apply list_elem_of_singleton in Hin. by injection Hin as <-.
      - destruct Hns as [->|(o & _ & ->)]; [by apply elem_of_nil in Hin|].
        by apply list_elem_of_singleton in Hin. }
    subst c.
    assert (Hne : df_empty df = false).
    { destruct (df_empty df) eqn:He; [|done]. by specialize (Hce df eq_refl He). }
    apply import_creators_loop in Hc as [seen Hloop].
    apply creator_loop_invariant in Hloop as (_ & _ & Hfirst & _).
    destruct (Hfirst c0 Hc0) as (i & ir & Hi & Ht & Hkey & _).
    unfold import_notes in Hn. rewrite Hne in Hn.
    destruct (note_objs df now_ms) as [nobjs|] eqn:Hobjs; simpl in Hn; [|done].
    unfold note_objs in Hobjs.
    apply note_loop_unresolved_rows in Hobjs; [|done].
    destruct (Forall2_lookup_l _ _ _ i ir Hobjs Hi) as (o & Ho & Huid).
    assert (Hon : o ∈ nobjs) by by eapply list_elem_of_lookup_2.
    exists nobjs, o. split; [|split; [done|]].
    + apply elem_of_app. right. injection Hn as <-.
      rewrite bool_decide_false; [left|]. intros ->. by apply elem_of_nil in Hon.
    + rewrite Huid.
      rewrite (get_ext ir.2 _ (_build_col_map (columns df) CREATOR_ALIASES))
        by apply user_id_column_shared.
      by rewrite Ht.
Qed.

Lemma single_sheet_creators_have_notes_witness :
  ∃ bs, @import_from_excel ascii_lower (fun _ => []) (fun _ => []) (fun _ => None)
          [(u "Sheet1", sheet_notes_no_id)] (u "xhs_note") (u "xhs_creator")
          (u "xhs_note_comment") 0 = Ok bs ∧
        ∀ objs, Comments objs ∉ bs.
Proof.
  eexists. split; [by vm_compute|].
  apply (single_sheet_creators_have_notes ascii_lower (fun _ => []) (fun _ => [])
    (fun _ => None) (u "Sheet1") sheet_notes_no_id (u "xhs_note") (u "xhs_creator")
    (u "xhs_note_comment") 0). by vm_compute.
Defined.

(** ** Runs that return *)

Lemma for_rows_Ok {S R : Type} (body : S → R → result S) (rows : list R) (st : S) :
  (∀ st r, r ∈ rows → ∃ st', body st r = Ok st') →
  ∃ st', for_rows body st rows = Ok st'.
Proof.
  revert st. induction rows as [|r rows IH]; intros st Hbody; simpl; [by eexists|].
  destruct (Hbody st r) as [st1 ->]; [left|]. simpl.
  apply IH. intros st2 r' Hr'. apply Hbody. by right.
Qed.

Lemma get_finite (row : Series) (col_map : gmap pystr pystr) (field : pystr) :
  Forall (fun kv : pystr * value => reads_as_infinity kv.2 = false) row →
  reads_as_infinity (_get row col_map field VNone) = false.
Proof.
  intros Hrow. destruct (get_cases row col_map field VNone) as [->|(col & _ & _ & Hin & _)];
    [done|].
  by apply (proj1 (Forall_forall _ _) Hrow (col, _get row col_map field VNone)).
Qed.

Lemma iterrows_finite (df : DataFrame) (ir : Z * Series) :
  Forall (Forall (fun v => reads_as_infinity v = false)) (data df) →
  ir ∈ iterrows df →
  Forall (fun kv : pystr * value => reads_as_infinity kv.2 = false) ir.2.
Proof.
  intros Hdata Hin. unfold iterrows in Hin.
  apply list_elem_of_lookup in Hin as [i Hi]. rewrite list_lookup_imap in Hi.
  destruct (data df !! i) as [vals|] eqn:Hv; [|done]. injection Hi as <-. simpl.
  assert (Hvals : Forall (fun v => reads_as_infinity v = false) vals).
  { apply (proj1 (Forall_forall _ _) Hdata). by eapply list_elem_of_lookup_2. }
  apply Forall_forall. intros [k v] Hkv. simpl.
  apply elem_of_zip_r in Hkv. by apply (proj1 (Forall_forall _ _) Hvals).
Qed.

Section FiniteRows.
Context `{!FloatRepr, !DatetimeStr, !ToDatetimeMs}.
Context (col_map : gmap pystr pystr) (now_ms : Z) (ir : Z * Series).
Hypothesis Hrow : Forall (fun kv : pystr * value => reads_as_infinity kv.2 = false) ir.2.

Lemma creator_row_finite (st : list XhsCreator.t * gset pystr) :
  ∃ st', creator_row col_map now_ms st ir = Ok st'.
Proof.
  destruct st as [objs seen]. unfold creator_row.
  destruct (negb (truthy _)); [by eexists|]. case_bool_decide; [by eexists|].
  destruct (to_int_finite _ (Some 0) (get_finite ir.2 col_map (u "follows") Hrow))
    as [a ->].
  destruct (to_int_finite _ (Some 0) (get_finite ir.2 col_map (u "fans") Hrow))
    as [b ->].
  destruct (to_int_finite _ (Some 0) (get_finite ir.2 col_map (u "interaction") Hrow))
    as [c ->].
  by eexists.
Qed.

Lemma note_row_finite (cols : list pystr) (objs : list XhsNote.t) :
  ∃ objs', note_row cols col_map now_ms objs ir = Ok objs'.
Proof.
  destruct ir as [idx row]. simpl in Hrow. unfold note_row.
  destruct (note_id_of col_map idx row); [|by eexists].
  destruct (to_ts_ms_finite _ (Some now_ms) (get_finite row col_map (u "time") Hrow))
    as [t ->]. simpl.
  destruct (to_int_finite _ (Some 0) (get_finite row col_map (u "liked_count") Hrow))
    as [a ->]. simpl.
  destruct (to_int_finite _ (Some 0) (get_finite row col_map (u "collected_count") Hrow))
    as [b ->]. simpl.
  destruct (to_int_finite _ (Some 0) (get_finite row col_map (u "comment_count") Hrow))
    as [c ->]. simpl.
  destruct (to_int_finite _ (Some 0) (get_finite row col_map (u "share_count") Hrow))
    as [e ->]. simpl.
  by eexists.
Qed.

Lemma comment_row_finite (objs : list XhsNoteComment.t) :
  ∃ objs', comment_row col_map now_ms objs ir = Ok objs'.
Proof.
  unfold comment_row. destruct (negb (truthy _) || negb (truthy _)); [by eexists|].
  destruct (to_ts_ms_finite _ (Some now_ms)
              (get_finite ir.2 col_map (u "create_time") Hrow)) as [t ->]. simpl.
  destruct (to_int_finite _ (Some 0)
              (get_finite ir.2 col_map (u "sub_comment_count") Hrow)) as [a ->]. simpl.
  destruct (to_int_finite _ (Some 0)
              (get_finite ir.2 col_map (u "like_count") Hrow)) as [b ->]. simpl.
  by eexists.
Qed.

End FiniteRows.

Section ReturningSections.
Context `{!StrLower, !FloatRepr, !DatetimeStr, !ToDatetimeMs}.
Context (now_ms : Z) (d : option DataFrame).
Hypothesis Hfin :
  ∀ df, d = Some df → Forall (Forall (fun v => reads_as_infinity v = false)) (data df).

Lemma import_creators_returns : ∃ bs, import_creators d now_ms = Ok bs.
Proof.
  unfold import_creators. destruct d as [df|]; [|by eexists].
  destruct (df_empty df); [by eexists|]. case_bool_decide; [by eexists|].
  destruct (for_rows_Ok (creator_row (_build_col_map (columns df) CREATOR_ALIASES)
              now_ms) (iterrows df) ([], ∅)) as [st ->]; [|by eexists].
  intros st r Hr. apply creator_row_finite.
  apply (iterrows_finite df); [|done]. by apply Hfin.
Qed.

Lemma import_notes_returns : ∃ bs, import_notes d now_ms = Ok bs.
Proof.
  unfold import_notes, note_objs. destruct d as [df|]; [|by eexists].
  destruct (df_empty df); [by eexists|].
  destruct (for_rows_Ok (note_row (columns df)
              (_build_col_map (columns df) NOTE_ALIASES) now_ms) (iterrows df) [])
    as [st ->]; [|by eexists].
  intros st r Hr. apply note_row_finite.
  apply (iterrows_finite df); [|done]. by apply Hfin.
Qed.

Lemma import_comments_returns : ∃ bs, import_comments d now_ms = Ok bs.
Proof.
  unfold import_comments, comment_objs. destruct d as [df|]; [|by eexists].
  destruct (df_empty df); [by eexists|]. case_bool_decide; [by eexists|].
  destruct (for_rows_Ok (comment_row (_build_col_map (columns df) COMMENT_ALIASES)
              now_ms) (iterrows df) []) as [st ->]; [|simpl; by eexists].
  intros st r Hr. apply comment_row_finite.
  apply (iterrows_finite df); [|done]. by apply Hfin.
Qed.

End ReturningSections.

(** On frames, whose labels are text: a run returns when no cell reads as an
    infinite float. *)
Lemma import_frames_returns `{!StrLower, !FloatRepr, !DatetimeStr, !ToDatetimeMs}
    (dn dc dm : option DataFrame) (now_ms : Z) :
  (∀ df, dn = Some df ∨ dc = Some df ∨ dm = Some df →
     Forall (Forall (fun v => reads_as_infinity v = false)) (data df)) →
  ∃ bs, import_frames dn dc dm now_ms = Ok bs.
Proof.
  intros Hfin. unfold import_frames.
  destruct (import_creators_returns now_ms dc) as [c ->];
    [intros df ->; apply Hfin; by right; left|].
  destruct (import_notes_returns now_ms dn) as [n ->];
    [intros df ->; apply Hfin; by left|].
  destruct (import_comments_returns now_ms dm) as [m ->];
    [intros df ->; apply Hfin; by right; right|].
  by eexists.
Qed.

Lemma text_labels_Ok (ls : list value) :
  Forall (fun c => ∃ t, c = VStr t) ls → ∃ cols, text_labels ls = Ok cols.
Proof.
  induction 1 as [|c ls [t ->] _ [cols IH]]; [by exists []|].
  exists (t :: cols). unfold text_labels in *. simpl. by rewrite IH.
Qed.

Lemma text_labels_raise (ls : list value) (c : value) :
  c ∈ ls → (∀ t, c ≠ VStr t) → text_labels ls = Raise AttributeError.
Proof.
  intros Hin Hc. unfold text_labels.
  induction ls as [|x ls IH]; [by apply elem_of_nil in Hin|].
  apply elem_of_cons in Hin as [<-|Hin].
  - simpl. destruct c; try done. by destruct (Hc s).
  - simpl. destruct x; try done. by rewrite (IH Hin).
Qed.

Lemma import_section_returns
    (section : option DataFrame → Z → result (list batch))
    (sheet : option Sheet) (now_ms : Z) :
  (∀ d, (∀ df, d = Some df →
           Forall (Forall (fun v => reads_as_infinity v = false)) (data df)) →
        ∃ bs, section d now_ms = Ok bs) →
  (∀ s, sheet = Some s →
     Forall (fun c => ∃ t, c = VStr t) (labels s) ∧
     Forall (Forall (fun v => reads_as_infinity v = false)) (cells s)) →
  ∃ bs, import_section section sheet now_ms = Ok bs.
Proof.
  intros Hsection Hsheet. unfold import_section.
  destruct sheet as [s|]; [|by eexists].
  destruct (sheet_empty s); [by eexists|].
  destruct (Hsheet s eq_refl) as [Hlabels Hcells].
  destruct (text_labels_Ok _ Hlabels) as [cols ->]. simpl.
  apply Hsection. by intros df [= <-].
Qed.

(** X15. A run on sheets whose labels are all text fails only on a cell
    that reads as an infinite float: when every label of the three sheets is
    text and no cell reads as an infinite float, the run returns its
    batches. *)
Theorem run_returns_without_infinite_cells (L : StrLower) (FR : FloatRepr)
    (DS : DatetimeStr) (T : ToDatetimeMs) (notes creators comments : option Sheet)
    (now_ms : Z) :
  (∀ s, notes = Some s ∨ creators = Some s ∨ comments = Some s →
     Forall (fun c => ∃ t, c = VStr t) (labels s) ∧
     Forall (Forall (fun v => reads_as_infinity v = false)) (cells s)) →
  ∃ bs, import_sheets notes creators comments now_ms = Ok bs.
Proof.
  intros Hfin. unfold import_sheets.
  destruct (import_section_returns import_creators creators now_ms) as [c ->].
  { intros d Hd. by apply import_creators_returns. }
  { intros s ->. apply Hfin. by right; left. }
  destruct (import_section_returns import_notes notes now_ms) as [n ->].
  { intros d Hd. by apply import_notes_returns. }
  { intros s ->. apply Hfin. by left. }
  destruct (import_section_returns import_comments comments now_ms) as [m ->].
  { intros d Hd. by apply import_comments_returns. }
  { intros s ->. apply Hfin. by right; right. }
  by eexists.
Qed.

Lemma run_returns_without_infinite_cells_witness :
  ∃ bs, @import_sheets ascii_lower (fun _ => []) (fun _ => []) (fun _ => None)
          (Some {| labels := [VStr (u "笔记id"); VStr (u "点赞")];
                   cells := [[VStr (u "n1"); VNpInt 12]; [VStr (u "n2"); VStr (u "１２")]] |})
          (Some {| labels := [VStr (u "user_id"); VStr (u "fans")];
                   cells := [[VStr (u "u1"); VFloat (Prim2SF 3.5)]] |})
          None 0
        = Ok bs.
Proof.
  apply (run_returns_without_infinite_cells ascii_lower (fun _ => []) (fun _ => [])
    (fun _ => None)).
  intros s [[= <-]|[[= <-]|[=]]]; simpl;
    (split; [repeat (constructor; [by eexists|]); constructor|compute_done]).
Defined.

(** X25. A sheet that is not empty and has a label that is no text ends the
    run before any of its rows is read: its section raises [AttributeError],
    and so does the run when the sheet is the creator sheet, which comes
    first.  An empty sheet with such a label is passed over as any empty
    sheet. *)
Theorem non_text_label_ends_run (L : StrLower) (FR : FloatRepr) (DS : DatetimeStr)
    (T : ToDatetimeMs) (s : Sheet) (c : value) (notes comments : option Sheet)
    (now_ms : Z) :
  c ∈ labels s → (∀ t, c ≠ VStr t) →
  (sheet_empty s = false →
     (∀ section, import_section section (Some s) now_ms = Raise AttributeError) ∧
     import_sheets notes (Some s) comments now_ms = Raise AttributeError) ∧
  (sheet_empty s = true →
     ∀ section, import_section section (Some s) now_ms = Ok []).
Proof.
  intros Hin Hc. split.
  - intros He.
    assert (∀ section, import_section section (Some s) now_ms = Raise AttributeError)
      as Hsec.
    { intros section. unfold import_section. rewrite He.
      by rewrite (text_labels_raise _ c Hin Hc). }
    split; [done|]. unfold import_sheets. by rewrite Hsec.
  - intros He section. unfold import_section. by rewrite He.
Qed.

Lemma non_text_label_ends_run_witness :
  @import_sheets ascii_lower (fun _ => []) (fun _ => []) (fun _ => None)
    None
    (Some {| labels := [VStr (u "user_id"); VInt 2024];
             cells := [[VStr (u "u1"); VInt 5]] |})
    None 0
  = Raise AttributeError.
Proof.
  refine (proj2 (proj1 (non_text_label_ends_run ascii_lower (fun _ => [])
    (fun _ => []) (fun _ => None) _ (VInt 2024) None None 0 _ _) _)).
  - right. by left.
  - done.
  - by vm_compute.
Defined.

(** ** The defaults of the records *)

Lemma get_field_missing (col_map : gmap pystr pystr) (row : Series) (field : pystr) :
  field_missing col_map row field → _get row col_map field VNone = VNone.
Proof.
  intros [Hc|(col & Hc & Hna)]; [by apply get_unresolved|by eapply get_missing].
Qed.

Lemma to_int_missing_zero (v : value) (r : option Z) :
  v = VNone → _to_int v (Some 0) = Ok r → str_of_optint r = u "0".
Proof. intros ->. by intros [= <-]. Qed.

(** X16. A field without a value takes its default: in the record that a
    loop body appends, a count whose field has no value is the numeral 0, the
    time of a note and the creation time of a comment are the start time of
    the run, the number of replies is 0, the user id of a comment is null,
    and a text field is null. *)
Theorem missing_fields_take_defaults (FR : FloatRepr) (DS : DatetimeStr)
    (T : ToDatetimeMs) (col_map : gmap pystr pystr) (now_ms : Z) (ir : Z * Series) :
  (∀ objs seen seen' o,
     creator_row col_map now_ms (objs, seen) ir = Ok (objs ++ [o], seen') →
     (field_missing col_map ir.2 (u "follows") → XhsCreator.follows o = u "0") ∧
     (field_missing col_map ir.2 (u "fans") → XhsCreator.fans o = u "0") ∧
     (field_missing col_map ir.2 (u "interaction") → XhsCreator.interaction o = u "0") ∧
     (field_missing col_map ir.2 (u "nickname") → XhsCreator.nickname o = VNone) ∧
     (field_missing col_map ir.2 (u "desc") → XhsCreator.desc o = VNone) ∧
     (field_missing col_map ir.2 (u "tag_list") → XhsCreator.tag_list o = VNone)) ∧
  (∀ cols objs o,
     note_row cols col_map now_ms objs ir = Ok (objs ++ [o]) →
     (field_missing col_map ir.2 (u "time") → XhsNote.time o = Some now_ms) ∧
     (field_missing col_map ir.2 (u "liked_count") → XhsNote.liked_count o = u "0") ∧
     (field_missing col_map ir.2 (u "collected_count") →
        XhsNote.collected_count o = u "0") ∧
     (field_missing col_map ir.2 (u "comment_count") → XhsNote.comment_count o = u "0") ∧
     (field_missing col_map ir.2 (u "share_count") → XhsNote.share_count o = u "0") ∧
     (field_missing col_map ir.2 (u "user_id") → XhsNote.user_id o = u "unknown") ∧
     (field_missing col_map ir.2 (u "title") → XhsNote.title o = VNone)) ∧
  (∀ objs o,
     comment_row col_map now_ms objs ir = Ok (objs ++ [o]) →
     (field_missing col_map ir.2 (u "create_time") →
        XhsNoteComment.create_time o = Some now_ms) ∧
     (field_missing col_map ir.2 (u "sub_comment_count") →
        XhsNoteComment.sub_comment_count o = 0) ∧
     (field_missing col_map ir.2 (u "like_count") → XhsNoteComment.like_count o = u "0") ∧
     (field_missing col_map ir.2 (u "user_id") → XhsNoteComment.user_id o = None) ∧
     (field_missing col_map ir.2 (u "content") → XhsNoteComment.content o = VNone)).
Proof.
  split; [|split].
  - intros objs seen seen' o. unfold creator_row.
    destruct (negb (truthy _)).
    { intros [= Heq _]. by apply app_singleton_neq in Heq. }
    case_bool_decide.
    { intros [= Heq _]. by apply app_singleton_neq in Heq. }
    destruct (_to_int (_get ir.2 col_map (u "follows") VNone) _) as [a|] eqn:Ha; [|done].
    destruct (_to_int (_get ir.2 col_map (u "fans") VNone) _) as [b|] eqn:Hb; [|done].
    destruct (_to_int (_get ir.2 col_map (u "interaction") VNone) _) as [c|] eqn:Hc; [|done].
    simpl. intros [= Heq _]. apply app_inj_tail in Heq as [_ <-]. simpl.
    repeat split; intros Hm; apply get_field_missing in Hm;
      first [ by eapply to_int_missing_zero | done ].
  - intros cols objs o. destruct ir as [idx row]. unfold note_row.
    destruct (note_id_of col_map idx row) as [note_id|].
    2:{ intros [= Heq]. by apply app_singleton_neq in Heq. }
    destruct (_to_ts_ms _ _) as [t|] eqn:Ht; [|done]. simpl.
    destruct (_to_int (_get row col_map (u "liked_count") VNone) _) as [a|] eqn:Ha;
      [|done]. simpl.
    destruct (_to_int (_get row col_map (u "collected_count") VNone) _) as [b|] eqn:Hb;
      [|done]. simpl.
    destruct (_to_int (_get row col_map (u "comment_count") VNone) _) as [c|] eqn:Hc;
      [|done]. simpl.
    destruct (_to_int (_get row col_map (u "share_count") VNone) _) as [e|] eqn:He;
      [|done]. simpl.
    intros [= Heq]. apply app_inj_tail in Heq as [_ <-]. simpl.
    split.
    { intros Hm. apply get_field_missing in Hm. rewrite Hm in Ht. by injection Ht as <-. }
    repeat split; intros Hm; apply get_field_missing in Hm;
      first [ by eapply to_int_missing_zero | by rewrite Hm | done ].
  - intros objs o. unfold comment_row.
    destruct (negb (truthy _) || negb (truthy _)).
    { intros [= Heq]. by apply app_singleton_neq in Heq. }
    destruct (_to_ts_ms _ _) as [t|] eqn:Ht; [|done]. simpl.
    destruct (_to_int (_get ir.2 col_map (u "sub_comment_count") VNone) _) as [a|] eqn:Ha;
      [|done]. simpl.
    destruct (_to_int (_get ir.2 col_map (u "like_count") VNone) _) as [b|] eqn:Hb;
      [|done]. simpl.
    intros [= Heq]. apply app_inj_tail in Heq as [_ <-]. simpl.
    split.
    { intros Hm. apply get_field_missing in Hm. rewrite Hm in Ht. by injection Ht as <-. }
    split.
    { intros Hm. apply get_field_missing in Hm. rewrite Hm in Ha. by injection Ha as <-. }
    repeat split; intros Hm; apply get_field_missing in Hm;
      first [ by eapply to_int_missing_zero | by rewrite Hm | done ].
Qed.

Lemma missing_fields_take_defaults_witness :
  ∃ o, @comment_row (fun _ => []) (fun _ => []) (fun _ => None)
         (@_build_col_map ascii_lower (columns sheet_comments) COMMENT_ALIASES) 7 []
         (0, zip (columns sheet_comments) [VStr (u "c1"); VStr (u "n1"); VStr (u "hi")])
       = Ok ([] ++ [o]) ∧
       XhsNoteComment.create_time o = Some 7 ∧ XhsNoteComment.like_count o = u "0".
Proof.
  eexists. split; [by vm_compute|].
  match goal with
  | |- XhsNoteComment.create_time ?o = _ ∧ _ =>
      destruct (proj2 (proj2 (missing_fields_take_defaults (fun _ => []) (fun _ => [])
        (fun _ => None)
        (@_build_col_map ascii_lower (columns sheet_comments) COMMENT_ALIASES) 7
        (0, zip (columns sheet_comments) [VStr (u "c1"); VStr (u "n1"); VStr (u "hi")])))
        [] o) as (Ht & _ & Hl & _); [by vm_compute|]
  end.
  split; [apply Ht|apply Hl]; left; by vm_compute.
Defined.

(** ** The creator section without a user id column *)

(** X17. A creator sheet in which user_id finds no column gives the session
    no creator batch, and the run is the one of a workbook without the
    creator sheet: the notes and the comments are imported as usual. *)
Theorem creators_skipped_without_user_id (L : StrLower) (FR : FloatRepr)
    (DS : DatetimeStr) (T : ToDatetimeMs) (dn dm : option DataFrame)
    (df : DataFrame) (now_ms : Z) :
  _build_col_map (columns df) CREATOR_ALIASES !! u "user_id" = None →
  import_creators (Some df) now_ms = Ok [] ∧
  import_frames dn (Some df) dm now_ms = import_frames dn None dm now_ms.
Proof.
  intros Hun.
  assert (Himp : import_creators (Some df) now_ms = Ok []).
  { unfold import_creators. destruct (df_empty df); [done|].
    by rewrite bool_decide_true. }
  split; [done|]. unfold import_frames. by rewrite Himp.
Qed.

Lemma creators_skipped_without_user_id_witness :
  @import_frames ascii_lower (fun _ => []) (fun _ => []) (fun _ => None)
    (Some sheet_notes_with_id) (Some sheet_comments_no_id) None 0
  = @import_frames ascii_lower (fun _ => []) (fun _ => []) (fun _ => None)
      (Some sheet_notes_with_id) None None 0.
Proof.
  apply (creators_skipped_without_user_id ascii_lower (fun _ => []) (fun _ => [])
    (fun _ => None)). by vm_compute.
Defined.

(** ** Case *)

Lemma first_alias_fmap `{!StrLower} (f : pystr → pystr) (lc : gmap pystr pystr)
    (names : list pystr) :
  (∀ c, f c = [] ↔ c = []) →
  first_alias (f <$> lc) names = f <$> first_alias lc names.
Proof.
  intros Hf. induction names as [|name names IH]; simpl; [done|].
  rewrite lookup_fmap. destruct (lc !! str_lower name) as [c|]; simpl; [|done].
  destruct (decide (c = [])) as [Hc|Hc].
  - rewrite !bool_decide_false; [done|by intros []|intros Hn; apply Hn; by apply Hf].
  - rewrite !bool_decide_true; [done..|]. intros Hfc. by apply Hc, Hf.
Qed.

Lemma lower_cols_fmap `{!StrLower} (f : pystr → pystr) (cols : list pystr) :
  (∀ c, str_lower (f c) = str_lower c) →
  lower_cols (f <$> cols) = f <$> lower_cols cols.
Proof.
  intros Hf. unfold lower_cols.
  assert (Hgen : ∀ m : gmap pystr pystr,
    foldl (fun m c => <[str_lower c:=c]> m) (f <$> m) (f <$> cols)
    = f <$> foldl (fun m c => <[str_lower c:=c]> m) m cols).
  { induction cols as [|c cols IH]; intros m; simpl; [done|].
    rewrite <- IH. by rewrite fmap_insert, Hf. }
  rewrite <- Hgen. by rewrite fmap_empty.
Qed.

Lemma first_alias_recase `{!StrLower} (f : pystr → pystr) (lc : gmap pystr pystr)
    (names : list pystr) :
  (∀ c, str_lower (f c) = str_lower c) →
  first_alias lc (f <$> names) = first_alias lc names.
Proof.
  intros Hf. induction names as [|name names IH]; [done|].
  rewrite fmap_cons. cbn [first_alias]. by rewrite Hf, IH.
Qed.

(** X18. Resolution depends on the labels and on the aliases up to case
    only: writing the aliases in another case leaves the column map as it
    is, and writing the labels of the sheet in another case changes the map
    in that each field is sent to the label as it is now written. *)
Theorem resolution_ignores_case (L : StrLower) (cols : list pystr)
    (aliases : Aliases) (f : pystr → pystr) :
  (∀ c, str_lower (f c) = str_lower c) →
  _build_col_map cols ((fun fn : pystr * list pystr => (fn.1, f <$> fn.2)) <$> aliases)
    = _build_col_map cols aliases ∧
  ((∀ c, f c = [] ↔ c = []) →
   _build_col_map (f <$> cols) aliases = f <$> _build_col_map cols aliases).
Proof.
  intros Hf. split.
  - unfold _build_col_map. generalize (∅ : gmap pystr pystr).
    induction aliases as [|[field names] aliases IH]; intros m; [done|].
    rewrite fmap_cons. cbn [foldl fst snd].
    rewrite (first_alias_recase f (lower_cols cols) names Hf). apply IH.
  - intros Hnil. unfold _build_col_map. rewrite lower_cols_fmap by done.
    rewrite <- (fmap_empty f) at 1. generalize (∅ : gmap pystr pystr).
    induction aliases as [|[field names] aliases IH]; intros m; simpl; [done|].
    rewrite first_alias_fmap by done.
    destruct (first_alias (lower_cols cols) names) as [col|]; simpl; [|apply IH].
    rewrite <- fmap_insert. apply IH.
Qed.

Lemma ascii_lower_idemp (c : pystr) : ascii_lower (ascii_lower c) = ascii_lower c.
Proof.
  unfold ascii_lower. induction c as [|x c IH]; simpl; [done|]. f_equal; [|done].
  unfold ascii_lower_char.
  destruct ((65 <=? x) && (x <=? 90)) eqn:Hx; [|by rewrite Hx].
  apply andb_prop in Hx as [H1 H2]. apply Z.leb_le in H1. apply Z.leb_le in H2.
  assert ((x + 32 <=? 90) = false) as -> by (apply Z.leb_gt; lia).
  by rewrite andb_false_r.
Qed.

Lemma resolution_ignores_case_witness :
  @_build_col_map ascii_lower (ascii_lower <$> [u "Note_ID"; u "Title"]) NOTE_ALIASES
  = ascii_lower <$> @_build_col_map ascii_lower [u "Note_ID"; u "Title"] NOTE_ALIASES.
Proof.
  apply (resolution_ignores_case ascii_lower _ _ ascii_lower).
  - intros c. apply ascii_lower_idemp.
  - intros c. unfold ascii_lower. by destruct c.
Defined.

(** * Properties of the keyword helpers *)

Import KeywordOptimizer.

Lemma foldl_invariant {A B : Type} (I : B → Prop) (body : B → A → B)
    (l : list A) (acc : B) :
  (∀ acc a, a ∈ l → I acc → I (body acc a)) → I acc → I (foldl body acc l).
Proof.
  revert acc. induction l as [|a l IH]; intros acc Hbody Hacc; simpl; [done|].
  apply IH.
  - intros acc' a' Ha'. apply Hbody. by right.
  - apply Hbody; [by left|done].
Qed.

Lemma startswith_spec (s p : pystr) : startswith s p = true ↔ ∃ post, s = p ++ post.
Proof.
  revert s. induction p as [|a p IH]; intros s.
  - split; [by exists s|by destruct s].
  - destruct s as [|b s]; simpl.
    + split; [done|]. by intros [post Hp].
    + rewrite andb_true_iff, Z.eqb_eq, IH. split.
      * intros [-> [post ->]]. by exists post.
      * intros [post [= -> ->]]. split; [done|by exists post].
Qed.

Lemma contains_spec (s sub : pystr) :
  contains s sub = true ↔ ∃ pre post, s = pre ++ sub ++ post.
Proof.
  induction s as [|c s IH].
  - change (contains [] sub) with (startswith [] sub || false).
    rewrite orb_false_r, startswith_spec. split.
    + intros [post H]. by exists [], post.
    + intros (pre & post & H). destruct pre; simpl in *; [by exists post|done].
  - change (contains (c :: s) sub) with (startswith (c :: s) sub || contains s sub).
    rewrite orb_true_iff, startswith_spec, IH. split.
    + intros [[post H]|(pre & post & ->)]; [by exists [], post | by exists (c :: pre), post].
    + intros (pre & post & H). destruct pre as [|x pre]; simpl in H.
      * left. by exists post.
      * right. injection H as -> ->. by exists pre, post.
Qed.

Lemma lstrip_chars_suffix (chars : list Z) (s : pystr) :
  ∃ pre, s = pre ++ lstrip_chars chars s.
Proof.
  induction s as [|c s [pre IH]]; simpl; [by exists []|].
  case_bool_decide; [|by exists []]. exists (c :: pre). simpl. by f_equal.
Qed.

Lemma lstrip_chars_head (chars : list Z) (s : pystr) (c : Z) :
  head (lstrip_chars chars s) = Some c → c ∉ chars.
Proof.
  induction s as [|x s IH]; simpl; [done|].
  case_bool_decide; [done|]. simpl. by intros [= ->].
Qed.

Lemma strip_chars_ends (chars : list Z) (s : pystr) (c : Z) :
  c ∈ chars →
  head (strip_chars chars s) ≠ Some c ∧ last (strip_chars chars s) ≠ Some c.
Proof.
  intros Hc. unfold strip_chars. rewrite head_reverse, last_reverse. split.
  - set (t := lstrip_chars chars s).
    destruct (lstrip_chars_suffix chars (reverse t)) as [pre Hpre].
    intros Hl.
    assert (last (reverse t) = Some c) as Ht by (by rewrite Hpre, last_app, Hl).
    rewrite last_reverse in Ht. by apply lstrip_chars_head in Ht.
  - intros Hh. by apply lstrip_chars_head in Hh.
Qed.

Lemma lstrip_Forall (P : Z → Prop) (s : pystr) : Forall P s → Forall P (lstrip s).
Proof.
  induction 1 as [|c s Hc Hs IH]; simpl; [done|].
  destruct (isspace c); [done|by constructor].
Qed.

Lemma strip_Forall (P : Z → Prop) (s : pystr) : Forall P s → Forall P (strip s).
Proof.
  intros Hs. unfold strip.
  apply Forall_reverse, lstrip_Forall, Forall_reverse, lstrip_Forall, Hs.
Qed.

(** The pieces of a split hold no separator. *)
Lemma split_class_pieces (plus : bool) (is_sep : Z → bool) (s cur : pystr)
    (in_sep : bool) :
  Forall (fun c => is_sep c = false) cur →
  Forall (Forall (fun c => is_sep c = false)) (split_class plus is_sep s cur in_sep).
Proof.
  revert cur in_sep. induction s as [|c s IH]; intros cur in_sep Hcur; simpl.
  - by constructor.
  - destruct (is_sep c) eqn:Hc.
    + destruct (in_sep && plus); [by apply IH|]. constructor; [done|by apply IH].
    + apply IH, Forall_app. split; [done|]. by constructor.
Qed.

(** The pieces of a split are made of characters of the text. *)
Lemma split_class_chars (P : Z → Prop) (plus : bool) (is_sep : Z → bool)
    (s cur : pystr) (in_sep : bool) :
  Forall P s → Forall P cur →
  Forall (Forall P) (split_class plus is_sep s cur in_sep).
Proof.
  intros Hs. revert cur in_sep.
  induction Hs as [|c s Hc Hs IH]; intros cur in_sep Hcur; simpl.
  - by constructor.
  - destruct (is_sep c).
    + destruct (in_sep && plus); [by apply IH|]. constructor; [done|by apply IH].
    + apply IH, Forall_app. split; [done|]. by constructor.
Qed.

Lemma take_20_bound {A : Type} (l : list A) : (length (take 20 l) ≤ 20)%nat.
Proof. rewrite length_take. lia. Qed.

Lemma elem_of_take_elem {A : Type} (x : A) (n : nat) (l : list A) :
  x ∈ take n l → x ∈ l.
Proof.
  rewrite elem_of_take. intros (i & Hi & _). by eapply list_elem_of_lookup_2.
Qed.

Lemma clean_ends (s : pystr) (c : Z) :
  c ∈ QUOTES → head (clean s) ≠ Some c ∧ last (clean s) ≠ Some c.
Proof. apply strip_chars_ends. Qed.

(** X19. [_validate_keywords] returns at most twenty keywords; each of them
    is the cleaned form of a text item of the input, has between one and
    twenty characters, holds none of the eight unwanted words as a part, and
    neither begins nor ends with a quote.  Items that are no text are never
    returned. *)
Theorem validated_keywords_well_formed (keywords : list item) :
  (length (_validate_keywords keywords) ≤ 20)%nat ∧
  ∀ k, k ∈ _validate_keywords keywords →
    (∃ s, IStr s ∈ keywords ∧ k = clean s) ∧
    (1 ≤ length k ≤ 20)%nat ∧
    (∀ bad pre post, bad ∈ bad_keywords → k ≠ pre ++ bad ++ post) ∧
    (∀ c, c ∈ QUOTES → head k ≠ Some c ∧ last k ≠ Some c).
Proof.
  unfold _validate_keywords. split; [apply take_20_bound|].
  intros k Hk. apply elem_of_take_elem in Hk. revert k Hk.
  apply Forall_forall.
  apply foldl_invariant; [|by constructor].
  intros acc [s|] Hin Hacc; [|done].
  destruct (_ && _) eqn:Hcond; [|done].
  apply Forall_app. split; [done|]. constructor; [|constructor].
  apply andb_prop in Hcond as [Hcond Hbad].
  apply andb_prop in Hcond as [Hcond Hge].
  apply andb_prop in Hcond as [_ Hle].
  apply Nat.leb_le in Hle. apply Nat.leb_le in Hge.
  split; [by exists s|]. split; [lia|]. split; [|apply clean_ends].
  intros bad pre post Hb Heq.
  apply negb_true_iff in Hbad.
  assert (existsb (fun bad_word => contains (clean s) bad_word) bad_keywords = true)
    as Hex; [|congruence].
  apply existsb_exists. exists bad. split; [by apply list_elem_of_In|].
  apply contains_spec. by exists pre, post.
Qed.

Lemma fallback_tokens_kept (tokens : list pystr) :
  Forall (Forall (fun c => is_separator c = false)) tokens →
  Forall (fun k => (2 ≤ length k)%nat ∧ Forall (fun c => is_separator c = false) k)
    (foldl (fun keywords token =>
              let token := strip token in
              if bool_decide (token ≠ []) && negb (bool_decide (token ∈ stop_words)) &&
                 (2 <=? length token)%nat
              then keywords ++ [token]
              else keywords) [] tokens).
Proof.
  intros Htok. apply foldl_invariant; [|by constructor].
  intros acc token Hin Hacc. cbv zeta.
  destruct (_ && _) eqn:Hcond; [|done].
  apply andb_prop in Hcond as [_ Hlen]. apply Nat.leb_le in Hlen.
  apply Forall_app. split; [done|]. constructor; [|constructor].
  split; [done|]. apply strip_Forall.
  by eapply Forall_forall in Htok.
Qed.

(** X20. [_fallback_keyword_extraction] never returns an empty list and
    never more than twenty keywords, and no keyword is the empty text.  A
    keyword either has two characters or more and holds no white space and
    none of the seven punctuation marks, or it is the only keyword returned
    (the first word of the query, the query itself or the default word). *)
Theorem fallback_keywords_never_empty (q : pystr) :
  _fallback_keyword_extraction q ≠ [] ∧
  (length (_fallback_keyword_extraction q) ≤ 20)%nat ∧
  ∀ k, k ∈ _fallback_keyword_extraction q →
    k ≠ [] ∧
    (((2 ≤ length k)%nat ∧ Forall (fun c => is_separator c = false) k)
     ∨ _fallback_keyword_extraction q = [k]).
Proof.
  unfold _fallback_keyword_extraction.
  pose proof (fallback_tokens_kept (split_class true is_separator q [] false)
                (split_class_pieces true is_separator q [] false (Forall_nil_2 _)))
    as Hkept.
  cbv zeta. cbv zeta in Hkept.
  set (kws := foldl _ [] (split_class true is_separator q [] false)) in *.
  split; [|split; [apply take_20_bound|]].
  - case_bool_decide as Hk.
    + by case_bool_decide.
    + by destruct kws.
  - intros k. case_bool_decide as Hk.
    + case_bool_decide as Hw; simpl; intros ->%list_elem_of_singleton.
      * split; [done|by right].
      * split; [by vm_compute|by right].
    + intros Hin%elem_of_take_elem.
      eapply Forall_forall in Hkept as [Hlen Hsep]; [|done].
      split; [|by left]. destruct k; [simpl in Hlen; lia|done].
Qed.

Lemma split_class_all_separators (is_sep : Z → bool) (s : pystr) :
  Forall (fun c => is_sep c = true) s → split_class true is_sep s [] true = [[]].
Proof.
  induction 1 as [|c s Hc Hs IH]; simpl; [done|]. by rewrite Hc.
Qed.

Lemma split_class_blank (is_sep : Z → bool) (c : Z) (s : pystr) :
  Forall (fun c => is_sep c = true) (c :: s) →
  split_class true is_sep (c :: s) [] false = [[]; []].
Proof.
  intros [Hc Hs]%Forall_cons. simpl. rewrite Hc. simpl.
  by rewrite split_class_all_separators.
Qed.

(** X21. For a query of white space only, [_fallback_keyword_extraction]
    returns the default word when the query is empty and otherwise the query
    itself, white space as it is, as the only keyword. *)
Theorem fallback_on_blank_query (q : pystr) :
  Forall (fun c => isspace c = true) q →
  _fallback_keyword_extraction q = if bool_decide (q = []) then [u "热门"] else [q].
Proof.
  intros Hq. destruct q as [|c q]; [by vm_compute|].
  unfold _fallback_keyword_extraction, split_ws.
  rewrite (split_class_blank isspace) by done.
  rewrite (split_class_blank is_separator).
  - simpl. by repeat case_bool_decide.
  - eapply Forall_impl; [done|]. intros x Hx. unfold is_separator. by rewrite Hx.
Qed.

Lemma fallback_on_blank_query_witness :
  _fallback_keyword_extraction [32; 32] = [[32; 32]].
Proof.
  apply (fallback_on_blank_query [32; 32]). by repeat constructor.
Defined.

Lemma lstrip_chars_Forall (P : Z → Prop) (chars : list Z) (s : pystr) :
  Forall P s → Forall P (lstrip_chars chars s).
Proof.
  induction 1 as [|c s Hc Hs IH]; simpl; [done|].
  case_bool_decide; [done|by constructor].
Qed.

Lemma clean_Forall (P : Z → Prop) (s : pystr) : Forall P s → Forall P (clean s).
Proof.
  intros Hs. unfold clean, strip_chars.
  apply Forall_reverse, lstrip_chars_Forall, Forall_reverse, lstrip_chars_Forall.
  by apply strip_Forall.
Qed.

Lemma split_on_chars (P : Z → Prop) (sep : Z) (s : pystr) :
  Forall P s → Forall (Forall P) (split_on sep s).
Proof. intros Hs. by apply split_class_chars. Qed.

Lemma line_keywords_chars (P : Z → Prop) (line : pystr) :
  Forall P line → Forall (Forall P) (line_keywords line).
Proof.
  intros Hl%strip_Forall. unfold line_keywords. cbv zeta.
  destruct (_ || _); [|done].
  set (parts := if contains (strip line) (u "：") then _ else _).
  assert (Forall (Forall P) parts) as Hparts
    by (subst parts; destruct (contains _ _); by apply split_on_chars).
  destruct parts as [|p0 [|part parts]]; [done..|].
  apply Forall_cons in Hparts as [_ [Hpart%strip_Forall _]%Forall_cons].
  destruct (contains _ _); [|destruct (contains _ _)].
  - apply Forall_fmap. eapply Forall_impl; [by apply split_on_chars|].
    intros x Hx. by apply strip_Forall.
  - apply Forall_fmap. eapply Forall_impl; [by apply split_on_chars|].
    intros x Hx. by apply strip_Forall.
  - by repeat constructor.
Qed.

Lemma findall_quoted_chars (P : Z → Prop) (s : pystr) (inside : option pystr) :
  Forall P s → from_option (Forall (fun c => P c ∧ c ≠ 10)) True inside →
  Forall (Forall (fun c => P c ∧ c ≠ 10)) (findall_quoted s inside).
Proof.
  intros Hs. revert inside.
  induction Hs as [|c s Hc Hs IH]; intros inside Hin; simpl; [done|].
  destruct inside as [content|]; simpl in Hin.
  - case_bool_decide; [constructor; [done|by apply IH]|].
    destruct (c =? 10) eqn:Hnl; [by apply IH|].
    apply IH. simpl. apply Forall_app. split; [done|].
    apply Z.eqb_neq in Hnl. constructor; [done|constructor].
  - case_bool_decide; apply IH; simpl; [constructor|done].
Qed.

(** The keywords read off the lines and the quoted content of a text, before
    they are cleaned: their characters are characters of the text and none is
    a line feed. *)
Lemma raw_keywords_chars (text : pystr) :
  let lines := split_on 10 text in
  let keywords := foldl (fun keywords line => keywords ++ line_keywords line) [] lines in
  Forall (Forall (fun c => c ∈ text ∧ c ≠ 10))
    (if bool_decide (keywords = []) then keywords ++ findall_quoted text None
     else keywords).
Proof.
  cbv zeta.
  assert (Forall (Forall (fun c => c ∈ text ∧ c ≠ 10)) (split_on 10 text)) as Hlines.
  { apply Forall_forall. intros line Hline. apply Forall_forall. intros c Hc. split.
    - pose proof (split_on_chars (fun c => c ∈ text) 10 text) as Hin.
      assert (Forall (fun c => c ∈ text) text) as Ht by by apply Forall_forall.
      specialize (Hin Ht). eapply Forall_forall in Hin; [|done].
      by eapply Forall_forall in Hin.
    - pose proof (split_class_pieces false (Z.eqb 10) text [] false (Forall_nil_2 _))
        as Hsep.
      eapply Forall_forall in Hsep; [|done].
      eapply Forall_forall in Hsep; [|done]. apply Z.eqb_neq in Hsep. congruence. }
  assert (Forall (Forall (fun c => c ∈ text ∧ c ≠ 10))
            (foldl (fun keywords line => keywords ++ line_keywords line) []
               (split_on 10 text))) as Hkw.
  { apply foldl_invariant; [|by constructor].
    intros acc line Hline Hacc. apply Forall_app. split; [done|].
    apply line_keywords_chars. by eapply Forall_forall in Hlines. }
  case_bool_decide; [|done].
  apply Forall_app. split; [done|].
  apply findall_quoted_chars; [|done]. by apply Forall_forall.
Qed.

(** X22. [_extract_keywords_from_text] returns at most twenty keywords; each
    has between one and twenty characters, neither begins nor ends with a
    quote, is made of characters of the text only and holds no line feed. *)
Theorem extracted_keywords_well_formed (text : pystr) :
  (length (_extract_keywords_from_text text) ≤ 20)%nat ∧
  ∀ k, k ∈ _extract_keywords_from_text text →
    (1 ≤ length k ≤ 20)%nat ∧
    (∀ c, c ∈ QUOTES → head k ≠ Some c ∧ last k ≠ Some c) ∧
    Forall (fun c => c ∈ text ∧ c ≠ 10) k.
Proof.
  unfold _extract_keywords_from_text. split; [apply take_20_bound|].
  intros k Hk%elem_of_take_elem. revert k Hk. apply Forall_forall.
  pose proof (raw_keywords_chars text) as Hraw. cbv zeta in Hraw. cbv zeta.
  apply foldl_invariant; [|by constructor].
  intros acc kw Hin%elem_of_take_elem Hacc.
  destruct (_ && _) eqn:Hcond; [|done].
  apply andb_prop in Hcond as [Hne Hle]. apply Nat.leb_le in Hle.
  apply bool_decide_eq_true in Hne.
  apply Forall_app. split; [done|]. constructor; [|constructor].
  split; [|split; [apply clean_ends|]].
  - split; [|done]. destruct (clean kw); [done|simpl; lia].
  - apply clean_Forall. by eapply Forall_forall in Hraw.
Qed.

Lemma contains_char (s : pystr) (x : Z) : contains s [x] = true → x ∈ s.
Proof.
  intros (pre & post & ->)%contains_spec.
  apply elem_of_app. right. by left.
Qed.

Lemma line_keywords_no_colon (line : pystr) :
  Forall (fun c => c ∉ [58; 65306]) line → line_keywords line = [].
Proof.
  intros Hl%strip_Forall. unfold line_keywords. cbv zeta.
  assert (u "：" = [65306]) as -> by by vm_compute.
  assert (u ":" = [58]) as -> by by vm_compute.
  destruct (contains (strip line) [65306]) eqn:H1.
  { apply contains_char in H1. eapply Forall_forall in Hl; [|done].
    exfalso. apply Hl. right. by left. }
  destruct (contains (strip line) [58]) eqn:H2; [|done].
  apply contains_char in H2. eapply Forall_forall in Hl; [|done].
  exfalso. apply Hl. by left.
Qed.

Lemma findall_quoted_no_quote (s : pystr) :
  Forall (fun c => c ∉ QUOTES) s → findall_quoted s None = [].
Proof.
  induction 1 as [|c s Hc Hs IH]; simpl; [done|]. by case_bool_decide.
Qed.

(** X23. A text that holds no colon, ASCII or full-width, and no quote gives
    no keyword: [_extract_keywords_from_text] returns the empty list. *)
Theorem no_colon_no_quote_no_keywords (text : pystr) :
  Forall (fun c => c ∉ [58; 65306; 34; 39]) text →
  _extract_keywords_from_text text = [].
Proof.
  intros Htext. unfold _extract_keywords_from_text. cbv zeta.
  assert (foldl (fun keywords line => keywords ++ line_keywords line) []
            (split_on 10 text) = []) as ->.
  { apply (foldl_invariant (fun k => k = [])); [|done].
    intros acc line Hline ->. simpl. apply line_keywords_no_colon.
    pose proof (split_on_chars _ 10 text Htext) as Hlines.
    eapply Forall_forall in Hlines; [|done].
    eapply Forall_impl; [done|]. intros c Hc Hin. apply Hc.
    apply elem_of_cons in Hin as [->|Hin]; [by left|].
    apply list_elem_of_singleton in Hin as ->. right. by left. }
  rewrite bool_decide_true by done. simpl.
  rewrite findall_quoted_no_quote; [done|].
  eapply Forall_impl; [done|]. intros c Hc Hin. apply Hc.
  by do 2 right.
Qed.

Lemma no_colon_no_quote_no_keywords_witness :
  _extract_keywords_from_text (u "face cream, night cream") = [].
Proof.
  apply (no_colon_no_quote_no_keywords (u "face cream, night cream")).
  compute_done.
Defined.

Lemma bad_word_free (k : pystr) :
  existsb (fun bad_word => contains k bad_word) bad_keywords = false
  ↔ ∀ bad pre post, bad ∈ bad_keywords → k ≠ pre ++ bad ++ post.
Proof.
  split.
  - intros Hex bad pre post Hbad Heq.
    assert (existsb (fun bad_word => contains k bad_word) bad_keywords = true)
      as Htrue; [|congruence].
    apply existsb_exists. exists bad. split; [by apply list_elem_of_In|].
    apply contains_spec. by exists pre, post.
  - intros Hfree. apply not_true_is_false. intros Hex.
    apply existsb_exists in Hex as (bad & Hbad%list_elem_of_In & Hc).
    apply contains_spec in Hc as (pre & post & Heq). by eapply Hfree.
Qed.

(** X24. While [_validate_keywords] returns fewer than twenty keywords, it
    drops no valid one: a text item whose cleaned form has between one and
    twenty characters and holds none of the unwanted words is returned in
    its cleaned form. *)
Theorem valid_keywords_kept_below_limit (keywords : list item) (s : pystr) :
  (length (_validate_keywords keywords) < 20)%nat →
  IStr s ∈ keywords →
  (1 ≤ length (clean s) ≤ 20)%nat →
  (∀ bad pre post, bad ∈ bad_keywords → clean s ≠ pre ++ bad ++ post) →
  clean s ∈ _validate_keywords keywords.
Proof.
  unfold _validate_keywords. cbv zeta.
  rewrite (foldl_append_omap _
             (fun keyword =>
                match keyword with
                | IStr s =>
                    if bool_decide (clean s ≠ []) &&
                       (length (clean s) <=? 20)%nat && (1 <=? length (clean s))%nat &&
                       negb (existsb (fun bad_word => contains (clean s) bad_word)
                               bad_keywords)
                    then Some (clean s) else None
                | IOther => None
                end)).
  2: { intros acc [s'|]; [|done]. by destruct (_ && _). }
  rewrite app_nil_l. intros Hlen Hin [Hge Hle] Hfree.
  rewrite take_ge by (rewrite length_take in Hlen; lia).
  apply list_elem_of_omap. exists (IStr s). split; [done|]. cbv beta iota.
  apply bad_word_free in Hfree. rewrite Hfree.
  rewrite bool_decide_true by (intros Hnil; rewrite Hnil in Hge; simpl in Hge; lia).
  apply Nat.leb_le in Hge, Hle. by rewrite Hge, Hle.
Qed.

Lemma valid_keywords_kept_below_limit_witness :
  clean (u " 'night cream' ")
  ∈ _validate_keywords [IStr (u " 'night cream' "); IOther; IStr (u "发展趋势分析")].
Proof.
  apply (valid_keywords_kept_below_limit
           [IStr (u " 'night cream' "); IOther; IStr (u "发展趋势分析")]
           (u " 'night cream' ")).
  - vm_compute. lia.
  - by left.
  - vm_compute. lia.
  - apply bad_word_free. by vm_compute.
Defined.
